(** * Visual query builder: SQL generator, validator, route gates, add handlers

    A shallow embedding of

    - [SQLGenerator.generateSQL] and [SQLGenerator.validateSQL], the class the
      client imports from [@/lib/sql-generator];
    - the handlers [registerRoutes] installs for [POST /api/query/execute]
      and [POST /api/query/export];
    - [handleTablesAdd] and [handleColumnsAdd] of the [QueryBuilder] page;

    over the types the client imports from [@/types/query].

    Strings are sequences of 8-bit code units, read as the range
    U+0000..U+00FF of JavaScript's UTF-16 code units.  On that range
    [trim], [toLowerCase], [startsWith], [includes] and the recogniser behind
    [isNaN(Number(s))] are modelled after ECMAScript. *)

From Stdlib Require Import String Ascii List ZArith Bool Arith Lia DecimalString
  Sorted.
Import ListNotations.

Local Open Scope list_scope.
Local Open Scope string_scope.

(** ** JavaScript primitives used by the sources *)

Module JS.

Definition code (c : ascii) : nat := nat_of_ascii c.

(** WhiteSpace and LineTerminator code points below U+0100:
    TAB, LF, VT, FF, CR, SP and NBSP. *)
Definition isWhiteSpace (c : ascii) : bool :=
  let n := code c in
  (((9 <=? n) && (n <=? 13)) || (n =? 32) || (n =? 160))%nat.

Fixpoint trimStart (s : string) : string :=
  match s with
  | String c t => if isWhiteSpace c then trimStart t else s
  | EmptyString => EmptyString
  end.

Fixpoint trimEnd (s : string) : string :=
  match s with
  | String c t =>
      match trimEnd t with
      | EmptyString =>
          if isWhiteSpace c then EmptyString else String c EmptyString
      | t' => String c t'
      end
  | EmptyString => EmptyString
  end.

(** [String.prototype.trim] *)
Definition trim (s : string) : string := trimEnd (trimStart s).

(** Lower-casing of one code unit below U+0100: A..Z and the Latin-1
    capitals U+00C0..U+00DE (the multiplication sign U+00D7 apart). *)
Definition toLowerChar (c : ascii) : ascii :=
  let n := code c in
  if (((65 <=? n) && (n <=? 90))
      || ((192 <=? n) && (n <=? 222) && negb (n =? 215)))%nat
  then ascii_of_nat (n + 32)
  else c.

(** [String.prototype.toLowerCase] *)
Fixpoint toLowerCase (s : string) : string :=
  match s with
  | String c t => String (toLowerChar c) (toLowerCase t)
  | EmptyString => EmptyString
  end.

(** [s.startsWith(p)] *)
Fixpoint startsWith (s p : string) {struct p} : bool :=
  match p with
  | EmptyString => true
  | String pc p' =>
      match s with
      | String sc s' => Ascii.eqb sc pc && startsWith s' p'
      | EmptyString => false
      end
  end.

(** [s.includes(needle)] *)
Fixpoint includes (s needle : string) : bool :=
  startsWith s needle ||
  match s with
  | String _ t => includes t needle
  | EmptyString => false
  end.

(** [(s.match(/c/g) || []).length] for a one-character pattern *)
Fixpoint countChar (c : ascii) (s : string) : nat :=
  match s with
  | String d t => ((if Ascii.eqb d c then 1 else 0) + countChar c t)%nat
  | EmptyString => 0
  end.

(** Truthiness of a string: the empty string is the only falsy one. *)
Definition truthy (s : string) : bool :=
  match s with EmptyString => false | _ => true end.

(** [arr.push(x)] on an array passed as a value *)
Definition push {A : Type} (arr : list A) (x : A) : list A := (arr ++ [x])%list.

(** [arr.join(sep)] on an array of strings *)
Definition join (sep : string) (arr : list string) : string :=
  String.concat sep arr.

(** [arr.map((x, index) => f x index)] *)
Fixpoint mapi_from {A B : Type} (i : nat) (f : A -> nat -> B) (arr : list A)
  : list B :=
  match arr with
  | [] => []
  | x :: t => f x i :: mapi_from (S i) f t
  end.

Definition mapi {A B : Type} (f : A -> nat -> B) (arr : list A) : list B :=
  mapi_from 0 f arr.

(** [arr.includes(x)] on an array of strings *)
Definition arrayIncludes (arr : list string) (x : string) : bool :=
  existsb (String.eqb x) arr.

(** [Array.from(new Set(arr))]: a Set keeps the insertion order of the
    first occurrence of every element. *)
Definition setAdd (set : list string) (x : string) : list string :=
  if arrayIncludes set x then set else push set x.

Definition uniqueInOrder (arr : list string) : list string :=
  fold_left setAdd arr [].

(** *** [Number(s)] and [isNaN]

    [Number] applied to a string is NaN exactly when the string is not a
    StringNumericLiteral: optional white space around nothing at all, a
    signed decimal literal, [Infinity], or an unsigned binary, octal or
    hexadecimal integer literal. *)

Definition isDigit (c : ascii) : bool :=
  let n := code c in ((48 <=? n) && (n <=? 57))%nat.

Definition isBinaryDigit (c : ascii) : bool :=
  let n := code c in ((48 <=? n) && (n <=? 49))%nat.

Definition isOctalDigit (c : ascii) : bool :=
  let n := code c in ((48 <=? n) && (n <=? 55))%nat.

Definition isHexDigit (c : ascii) : bool :=
  let n := code c in
  (isDigit c || ((65 <=? n) && (n <=? 70)) || ((97 <=? n) && (n <=? 102)))%nat.

Fixpoint allChars (p : ascii -> bool) (s : string) : bool :=
  match s with
  | String c t => p c && allChars p t
  | EmptyString => true
  end.

(** one or more characters, all satisfying [p] *)
Definition someChars (p : ascii -> bool) (s : string) : bool :=
  truthy s && allChars p s.

Fixpoint dropDigits (s : string) : string :=
  match s with
  | String c t => if isDigit c then dropDigits t else s
  | EmptyString => EmptyString
  end.

Definition dropSign (s : string) : string :=
  match s with
  | String c t => if Ascii.eqb c "+" || Ascii.eqb c "-" then t else s
  | EmptyString => EmptyString
  end.

(** ExponentPart, optional, up to the end of the text *)
Definition exponentPartOpt (s : string) : bool :=
  match s with
  | EmptyString => true
  | String c t =>
      (Ascii.eqb c "e" || Ascii.eqb c "E") && someChars isDigit (dropSign t)
  end.

Definition strUnsignedDecimalLiteral (s : string) : bool :=
  String.eqb s "Infinity" ||
  let r := dropDigits s in
  let n1 := (String.length s - String.length r)%nat in
  match r with
  | String "." r1 =>
      let r2 := dropDigits r1 in
      let n2 := (String.length r1 - String.length r2)%nat in
      (0 <? n1 + n2)%nat && exponentPartOpt r2
  | _ => (0 <? n1)%nat && exponentPartOpt r
  end.

Definition nonDecimalIntegerLiteral (s : string) : bool :=
  match s with
  | String "0" (String k t) =>
      if Ascii.eqb k "b" || Ascii.eqb k "B" then someChars isBinaryDigit t
      else if Ascii.eqb k "o" || Ascii.eqb k "O" then someChars isOctalDigit t
      else if Ascii.eqb k "x" || Ascii.eqb k "X" then someChars isHexDigit t
      else false
  | _ => false
  end.

Definition strNumericLiteral (s : string) : bool :=
  strUnsignedDecimalLiteral (dropSign s) || nonDecimalIntegerLiteral s.

(** [isNaN(Number(s))] *)
Definition isNaN_Number (s : string) : bool :=
  let t := trim s in
  negb (negb (truthy t) || strNumericLiteral t).

(** A template literal [`${n}`] for an integer [n] of absolute value below
    10^21; from there on JavaScript prints the exponent form, which is not
    modelled. *)
Definition numberToString (n : Z) : string :=
  NilZero.string_of_int (Z.to_int n).

End JS.

(** ** Data model ([@/types/query])

    An optional field [f?: T] is an [option]; [None] is [undefined]. *)

Module SelectedColumn.
Record t : Type := mk {
  id : string;
  tableName : string;
  columnName : string;
  alias : option string;
  function : option string;
  functionParams : option (list string)
}.
End SelectedColumn.

Inductive LogicalOperator : Type := AND | OR.

Module QueryCondition.
Record t : Type := mk {
  id : string;
  column : string;
  operator : string;
  value : string;
  logicalOperator : option LogicalOperator
}.
End QueryCondition.

Inductive JoinType : Type := INNER | LEFT | RIGHT | OUTER.

Module AdditionalCondition.
Record t : Type := mk {
  id : string;
  leftColumn : string;
  rightColumn : string
}.
End AdditionalCondition.

Module QueryJoin.
Record t : Type := mk {
  id : string;
  type : JoinType;
  leftTable : string;
  leftColumn : string;
  rightTable : string;
  rightColumn : string;
  additionalConditions : option (list AdditionalCondition.t)
}.
End QueryJoin.

Inductive Direction : Type := ASC | DESC.

Module OrderBy.
Record t : Type := mk {
  column : string;
  direction : Direction
}.
End OrderBy.

(** [limit] is set by the UI from [parseInt]: an integer, or [None] for
    [undefined] and NaN, which are both falsy.  Integers print in plain
    decimal, as JavaScript prints those below 10^21. *)
Module QueryConfig.
Record t : Type := mk {
  selectedTables : list string;
  selectedColumns : list SelectedColumn.t;
  conditions : list QueryCondition.t;
  joins : list QueryJoin.t;
  groupBy : list string;
  orderBy : list OrderBy.t;
  limit : option Z;
  distinct : bool;
  logicalOperator : option LogicalOperator
}.
End QueryConfig.

Definition LogicalOperator_toString (o : LogicalOperator) : string :=
  match o with AND => "AND" | OR => "OR" end.

Definition JoinType_toString (j : JoinType) : string :=
  match j with
  | INNER => "INNER" | LEFT => "LEFT" | RIGHT => "RIGHT" | OUTER => "OUTER"
  end.

Definition Direction_toString (d : Direction) : string :=
  match d with ASC => "ASC" | DESC => "DESC" end.

(** ** The generator and the validator ([@/lib/sql-generator]) *)

Module SQLGenerator.
Import JS.

Definition LF : string := String "010"%char EmptyString.

(** The callback of [config.selectedColumns.map]. *)
Definition renderColumn (col : SelectedColumn.t) : string :=
  let columnExpr :=
    SelectedColumn.tableName col ++ "." ++ SelectedColumn.columnName col in
  let columnExpr :=
    match SelectedColumn.function col with
    | Some fn =>
        if truthy fn then
          if String.eqb fn "DATE_TRUNC" then
            "DATE_TRUNC('day', " ++ columnExpr ++ ")"
          else if String.eqb fn "EXTRACT" then
            "EXTRACT(year FROM " ++ columnExpr ++ ")"
          else if String.eqb fn "COUNT" then
            if String.eqb (SelectedColumn.columnName col) "*"
            then "COUNT(*)"
            else "COUNT(" ++ columnExpr ++ ")"
          else if arrayIncludes
                    ["SUM"; "AVG"; "MIN"; "MAX"; "UPPER"; "LOWER"; "LENGTH"] fn
          then fn ++ "(" ++ columnExpr ++ ")"
          else columnExpr
        else columnExpr
    | None => columnExpr
    end in
  match SelectedColumn.alias col with
  | Some a => if truthy a then columnExpr ++ " AS " ++ a else columnExpr
  | None => columnExpr
  end.

Definition selectClause (config : QueryConfig.t) : string :=
  let selectClause := "SELECT" in
  let selectClause :=
    if QueryConfig.distinct config then selectClause ++ " DISTINCT"
    else selectClause in
  if (List.length (QueryConfig.selectedColumns config) =? 0)%nat then
    selectClause ++ " *"
  else
    let columnsList := map renderColumn (QueryConfig.selectedColumns config) in
    selectClause ++ LF ++ "  " ++ join ("," ++ LF ++ "  ") columnsList.

(** The callback of [config.joins.forEach], up to its [parts.push]. *)
Definition renderJoin (j : QueryJoin.t) : string :=
  let joinClause :=
    JoinType_toString (QueryJoin.type j) ++ " JOIN " ++ QueryJoin.rightTable j
    ++ " ON " ++ QueryJoin.leftTable j ++ "." ++ QueryJoin.leftColumn j
    ++ " = " ++ QueryJoin.rightTable j ++ "." ++ QueryJoin.rightColumn j in
  match QueryJoin.additionalConditions j with
  | Some acs =>
      if (0 <? List.length acs)%nat then
        joinClause ++
        join ""
          (map (fun condition =>
                  " AND " ++ QueryJoin.leftTable j ++ "."
                  ++ AdditionalCondition.leftColumn condition
                  ++ " = " ++ QueryJoin.rightTable j ++ "."
                  ++ AdditionalCondition.rightColumn condition) acs)
      else joinClause
  | None => joinClause
  end.

(** The value of a condition after the operator-dependent formatting. *)
Definition renderValue (operator value : string) : string :=
  if String.eqb operator "IN" || String.eqb operator "NOT IN" then
    if negb (startsWith value "(") then "(" ++ value ++ ")" else value
  else if String.eqb operator "LIKE" || String.eqb operator "ILIKE" then
    if negb (startsWith value "'") then "'" ++ value ++ "'" else value
  else if String.eqb operator "IS NULL" || String.eqb operator "IS NOT NULL"
  then ""
  else if isNaN_Number value && negb (startsWith value "'") then
    "'" ++ value ++ "'"
  else value.

(** The callback of [config.conditions.map]. *)
Definition renderCondition (condition : QueryCondition.t) (index : nat)
  : string :=
  let conditionStr := "" in
  let conditionStr :=
    match QueryCondition.logicalOperator condition with
    | Some lop =>
        if (0 <? index)%nat
        then conditionStr ++ LogicalOperator_toString lop ++ " "
        else conditionStr
    | None => conditionStr
    end in
  let value :=
    renderValue (QueryCondition.operator condition)
                (QueryCondition.value condition) in
  let conditionStr :=
    conditionStr ++ QueryCondition.column condition ++ " "
    ++ QueryCondition.operator condition in
  if truthy value then conditionStr ++ " " ++ value else conditionStr.

Definition orderFilter (order : OrderBy.t) : bool :=
  truthy (OrderBy.column order)
  && negb (String.eqb (trim (OrderBy.column order)) "").

Definition renderOrder (order : OrderBy.t) : string :=
  OrderBy.column order ++ " " ++ Direction_toString (OrderBy.direction order).

(** The array [parts] at the end of [generateSQL]; every [let] is one
    statement of the source, threading the array. *)
Definition generateParts (config : QueryConfig.t) : list string :=
  let parts : list string := [] in
  (* SELECT clause *)
  let parts := push parts (selectClause config) in
  (* FROM clause *)
  let parts :=
    match QueryConfig.selectedTables config with
    | [] => parts
    | table0 :: others =>
        let parts := push parts ("FROM " ++ table0) in
        if (1 <? List.length (QueryConfig.selectedTables config))%nat
           && (List.length (QueryConfig.joins config) =? 0)%nat
        then fold_left (fun parts table => push parts ("CROSS JOIN " ++ table))
                       others parts
        else parts
    end in
  (* JOIN clauses *)
  let parts :=
    fold_left (fun parts j => push parts (renderJoin j))
              (QueryConfig.joins config) parts in
  (* WHERE clause *)
  let parts :=
    if (0 <? List.length (QueryConfig.conditions config))%nat then
      let whereConditions :=
        mapi renderCondition (QueryConfig.conditions config) in
      push parts ("WHERE " ++ join " " whereConditions)
    else parts in
  (* GROUP BY clause *)
  let parts :=
    if (0 <? List.length (QueryConfig.groupBy config))%nat
    then push parts ("GROUP BY " ++ join ", " (QueryConfig.groupBy config))
    else parts in
  (* ORDER BY clause *)
  let parts :=
    if (0 <? List.length (QueryConfig.orderBy config))%nat then
      let orderList :=
        map renderOrder (filter orderFilter (QueryConfig.orderBy config)) in
      if (0 <? List.length orderList)%nat
      then push parts ("ORDER BY " ++ join ", " orderList)
      else parts
    else parts in
  (* LIMIT clause *)
  let parts :=
    match QueryConfig.limit config with
    | Some n =>
        if negb (n =? 0)%Z && (0 <? n)%Z
        then push parts ("LIMIT " ++ numberToString n)
        else parts
    | None => parts
    end in
  parts.

Definition generateSQL (config : QueryConfig.t) : string :=
  join LF (generateParts config).

Module ValidationResult.
Record t : Type := mk {
  isValid : bool;
  errors : list string
}.
End ValidationResult.

Definition dangerousKeywords : list string :=
  ["drop"; "delete"; "update"; "insert"; "alter"; "create"; "truncate"].

Definition validateSQL (sql : string) : ValidationResult.t :=
  let errors : list string := [] in
  let normalizedSql := toLowerCase (trim sql) in
  (* Basic validation *)
  let errors :=
    if negb (startsWith normalizedSql "select")
    then push errors "Query must start with SELECT"
    else errors in
  let errors :=
    if negb (includes normalizedSql "from")
    then push errors "Query must include FROM clause"
    else errors in
  (* Check for balanced parentheses *)
  let openParens := countChar "(" sql in
  let closeParens := countChar ")" sql in
  let errors :=
    if negb (openParens =? closeParens)%nat
    then push errors "Unbalanced parentheses in query"
    else errors in
  (* Check for dangerous keywords *)
  let hasDangerousKeywords :=
    existsb (fun keyword => includes normalizedSql keyword) dangerousKeywords in
  let errors :=
    if hasDangerousKeywords
    then push errors "Query contains restricted keywords"
    else errors in
  ValidationResult.mk (List.length errors =? 0)%nat errors.

End SQLGenerator.

(** ** The execute and export entry points ([registerRoutes])

    The storage layer is a collaborator: [storage_executeQuery] either
    returns a result or throws.  A handler is modelled by the list of texts
    it hands to [storage.executeQuery], followed by its response. *)

Module Routes.
Import JS.

(** A result cell: a string, or another value with the text [join] gives
    it. *)
Inductive Cell : Type :=
| CellString (s : string)
| CellOther (text : string).

Module QueryResult.
Record t : Type := mk {
  columns : list string;
  rows : list (list Cell)
}.
End QueryResult.

Inductive Body : Type :=
| Json (message : string) (error : option string)
| JsonResult (result : QueryResult.t)
| Csv (text : string).

Module Response.
Record t : Type := mk {
  status : nat;
  body : Body
}.
End Response.

(** What [storage.executeQuery] was called with, and the response. *)
Definition Handled : Type := (list string * Response.t)%type.

Definition passedToExecutor (h : Handled) : list string := fst h.
Definition response (h : Handled) : Response.t := snd h.

(** [executeQuerySchema.parse(req.body)]: the body carries a string [sql]
    of length at least one, or parsing throws.  [None] is a body without a
    string [sql]. *)
Definition executeQuerySchema_parse (body : option string) : option string :=
  match body with
  | Some sql => if (1 <=? String.length sql)%nat then Some sql else None
  | None => None
  end.

Definition DQUOTE : string := String "034"%char EmptyString.

(** The [cell.replace] of the export: every double quote is doubled. *)
Fixpoint doubleQuotes (s : string) : string :=
  match s with
  | String c t =>
      if Ascii.eqb c "034"%char
      then DQUOTE ++ DQUOTE ++ doubleQuotes t
      else String c (doubleQuotes t)
  | EmptyString => EmptyString
  end.

Definition csvCell (cell : Cell) : string :=
  match cell with
  | CellString s =>
      if includes s "," then DQUOTE ++ doubleQuotes s ++ DQUOTE else s
  | CellOther text => text
  end.

Definition toCsv (result : QueryResult.t) : string :=
  let csv := join "," (QueryResult.columns result) ++ SQLGenerator.LF in
  fold_left
    (fun csv row => csv ++ join "," (map csvCell row) ++ SQLGenerator.LF)
    (QueryResult.rows result) csv.

Section Storage.

(** [inl] is the resolved result, [inr] the message of the error thrown. *)
Variable storage_executeQuery : string -> QueryResult.t + string.

(** The message of the error [executeQuerySchema.parse] throws. *)
Variable zodErrorMessage : string.

(** [app.post("/api/query/execute", ...)] *)
Definition executeRoute (body : option string) : Handled :=
  match executeQuerySchema_parse body with
  | None =>
      ([], Response.mk 400 (Json "Query execution failed"
                                 (Some zodErrorMessage)))
  | Some sql =>
      (* Basic SQL validation to prevent destructive operations *)
      let normalizedSql := toLowerCase (trim sql) in
      if startsWith normalizedSql "drop"
         || startsWith normalizedSql "delete"
         || startsWith normalizedSql "update"
         || startsWith normalizedSql "insert"
         || startsWith normalizedSql "alter"
         || startsWith normalizedSql "create"
      then
        ([], Response.mk 400
               (Json "Only SELECT queries are allowed for security reasons"
                     None))
      else
        match storage_executeQuery sql with
        | inl result => ([sql], Response.mk 200 (JsonResult result))
        | inr err =>
            ([sql], Response.mk 400 (Json "Query execution failed"
                                          (Some err)))
        end
  end.

(** [app.post("/api/query/export", ...)] *)
Definition exportRoute (body : option string) : Handled :=
  match executeQuerySchema_parse body with
  | None => ([], Response.mk 400 (Json "Export failed" (Some zodErrorMessage)))
  | Some sql =>
      let normalizedSql := toLowerCase (trim sql) in
      if negb (startsWith normalizedSql "select") then
        ([], Response.mk 400
               (Json "Only SELECT queries are allowed for export" None))
      else
        match storage_executeQuery sql with
        | inl result => ([sql], Response.mk 200 (Csv (toCsv result)))
        | inr err => ([sql], Response.mk 400 (Json "Export failed" (Some err)))
        end
  end.

End Storage.

End Routes.

(** ** The add handlers of the query builder page ([QueryBuilder])

    Each handler is the updater it passes to [setQueryConfig]: a function
    from the previous configuration to the next one. *)

Module QueryBuilder.
Import JS.

(** The element type of the argument of [handleColumnsAdd]. *)
Module ColumnPick.
Record t : Type := mk {
  tableName : string;
  columnName : string
}.
End ColumnPick.

Definition withTablesAndColumns (prev : QueryConfig.t)
    (tables : list string) (columns : list SelectedColumn.t) : QueryConfig.t :=
  QueryConfig.mk tables columns
    (QueryConfig.conditions prev) (QueryConfig.joins prev)
    (QueryConfig.groupBy prev) (QueryConfig.orderBy prev)
    (QueryConfig.limit prev) (QueryConfig.distinct prev)
    (QueryConfig.logicalOperator prev).

Definition handleTablesAdd (tableNames : list string) (prev : QueryConfig.t)
  : QueryConfig.t :=
  let combinedTables := (QueryConfig.selectedTables prev ++ tableNames)%list in
  let uniqueTables := uniqueInOrder combinedTables in
  withTablesAndColumns prev uniqueTables (QueryConfig.selectedColumns prev).

Definition derivedId (col : ColumnPick.t) : string :=
  ColumnPick.tableName col ++ "." ++ ColumnPick.columnName col.

(** The body of the first [columns.forEach]. *)
Definition addTableOf (newTables : list string) (col : ColumnPick.t)
  : list string :=
  if negb (arrayIncludes newTables (ColumnPick.tableName col))
  then push newTables (ColumnPick.tableName col)
  else newTables.

(** The body of the second [columns.forEach]. *)
Definition addColumnOf (newColumns : list SelectedColumn.t)
    (col : ColumnPick.t) : list SelectedColumn.t :=
  let id := derivedId col in
  match find (fun c => String.eqb (SelectedColumn.id c) id) newColumns with
  | None =>
      push newColumns
        (SelectedColumn.mk id (ColumnPick.tableName col)
           (ColumnPick.columnName col) None None None)
  | Some _ => newColumns
  end.

Definition handleColumnsAdd (columns : list ColumnPick.t)
    (prev : QueryConfig.t) : QueryConfig.t :=
  (* Add tables if not already present *)
  let newTables :=
    fold_left addTableOf columns (QueryConfig.selectedTables prev) in
  (* Add columns if not already present *)
  let newColumns :=
    fold_left addColumnOf columns (QueryConfig.selectedColumns prev) in
  withTablesAndColumns prev newTables newColumns.

(** Some selected column carries the id [id]. *)
Definition hasId (columns : list SelectedColumn.t) (id : string) : Prop :=
  exists c, In c columns /\ SelectedColumn.id c = id.

End QueryBuilder.

(** ** What the generator reads

    [forgetIds] blanks every field [generateSQL] never reads: the ids (the UI
    makes them from the clock), [functionParams] and the configuration's own
    [logicalOperator]. *)

Module Forget.

Definition column (c : SelectedColumn.t) : SelectedColumn.t :=
  SelectedColumn.mk "" (SelectedColumn.tableName c)
    (SelectedColumn.columnName c) (SelectedColumn.alias c)
    (SelectedColumn.function c) None.

Definition condition (c : QueryCondition.t) : QueryCondition.t :=
  QueryCondition.mk "" (QueryCondition.column c) (QueryCondition.operator c)
    (QueryCondition.value c) (QueryCondition.logicalOperator c).

Definition additional (c : AdditionalCondition.t) : AdditionalCondition.t :=
  AdditionalCondition.mk "" (AdditionalCondition.leftColumn c)
    (AdditionalCondition.rightColumn c).

Definition join (j : QueryJoin.t) : QueryJoin.t :=
  QueryJoin.mk "" (QueryJoin.type j) (QueryJoin.leftTable j)
    (QueryJoin.leftColumn j) (QueryJoin.rightTable j)
    (QueryJoin.rightColumn j)
    (option_map (map additional) (QueryJoin.additionalConditions j)).

Definition forgetIds (config : QueryConfig.t) : QueryConfig.t :=
  QueryConfig.mk (QueryConfig.selectedTables config)
    (map column (QueryConfig.selectedColumns config))
    (map condition (QueryConfig.conditions config))
    (map join (QueryConfig.joins config))
    (QueryConfig.groupBy config) (QueryConfig.orderBy config)
    (QueryConfig.limit config) (QueryConfig.distinct config) None.

End Forget.

(** ** The denylist screen as the specification words it

    The specification asks for a tokenizer-based, word-boundary match of the
    denylist.  [Spec.wordBoundaryScreen] follows those words; it is compared
    with the screen of [SQLGenerator.validateSQL], which is the one embedded
    from the source. *)

Module Spec.
Import JS.

(** Letters, digits and the underscore make up identifiers. *)
Definition isWordChar (c : ascii) : bool :=
  let n := code c in
  (isDigit c || ((65 <=? n) && (n <=? 90)) || ((97 <=? n) && (n <=? 122))
   || (n =? 95))%nat.

Definition flush (word : string) : list string :=
  if truthy word then [word] else [].

(** The maximal runs of word characters of [s], after the run [word]
    already read. *)
Fixpoint tokensFrom (word s : string) : list string :=
  match s with
  | String c t =>
      if isWordChar c
      then tokensFrom (word ++ String c EmptyString) t
      else (flush word ++ tokensFrom EmptyString t)%list
  | EmptyString => flush word
  end.

Definition tokens (s : string) : list string := tokensFrom EmptyString s.

(** Some token of the text is a denylist keyword. *)
Definition wordBoundaryScreen (normalizedSql : string) : bool :=
  existsb (fun keyword => existsb (String.eqb keyword) (tokens normalizedSql))
          SQLGenerator.dangerousKeywords.

(** The text with every run of white space taken as one separator: the
    reading of a rendered query "whitespace and line breaks aside". *)
Fixpoint wordsFrom (word s : string) : list string :=
  match s with
  | String c t =>
      if isWhiteSpace c
      then (flush word ++ wordsFrom EmptyString t)%list
      else wordsFrom (word ++ String c EmptyString) t
  | EmptyString => flush word
  end.

Definition words (s : string) : list string := wordsFrom EmptyString s.

(** The value of a condition as the specification words it, by operator
    class: membership, the whole pattern family, nullability, and the rest. *)
Definition isMembership (operator : string) : bool :=
  arrayIncludes ["IN"; "NOT IN"] operator.

Definition isPattern (operator : string) : bool :=
  arrayIncludes ["LIKE"; "ILIKE"; "NOT LIKE"; "NOT ILIKE"] operator.

Definition isNullability (operator : string) : bool :=
  arrayIncludes ["IS NULL"; "IS NOT NULL"] operator.

Definition renderValue (operator value : string) : string :=
  if isMembership operator then
    if startsWith value "(" then value else "(" ++ value ++ ")"
  else if isPattern operator then
    if startsWith value "'" then value else "'" ++ value ++ "'"
  else if isNullability operator then ""
  else if negb (isNaN_Number value) || startsWith value "'" then value
  else "'" ++ value ++ "'".

End Spec.

(** ** Clause kinds

    The kind of a rendered clause is read off its leading keyword. *)

Inductive ClauseKind : Type :=
| KSelect | KFrom | KJoin | KWhere | KGroupBy | KOrderBy | KLimit.



Definition isCrossJoin (part : string) : bool :=
  JS.startsWith part "CROSS JOIN ".

Definition clauseKind (part : string) : option ClauseKind :=
  if JS.startsWith part "SELECT" then Some KSelect
  else if JS.startsWith part "FROM " then Some KFrom
  else if isCrossJoin part
          || JS.startsWith part "INNER JOIN "
          || JS.startsWith part "LEFT JOIN "
          || JS.startsWith part "RIGHT JOIN "
          || JS.startsWith part "OUTER JOIN " then Some KJoin
  else if JS.startsWith part "WHERE " then Some KWhere
  else if JS.startsWith part "GROUP BY " then Some KGroupBy
  else if JS.startsWith part "ORDER BY " then Some KOrderBy
  else if JS.startsWith part "LIMIT " then Some KLimit
  else None.


(** ** The clauses each block of [generateSQL] pushes

    One definition per commented block of the source, each giving the
    clauses that block appends to [parts]; [expectedKinds] is the sequence of
    clause kinds the specification words: SELECT, FROM, JOIN(s), WHERE,
    GROUP BY, ORDER BY, LIMIT, a clause without inputs being left out. *)

Module Clauses.
Import JS SQLGenerator.

Definition crossJoin (table : string) : string := "CROSS JOIN " ++ table.

Definition fromClauses (config : QueryConfig.t) : list string :=
  match QueryConfig.selectedTables config with
  | [] => []
  | table0 :: others =>
      ("FROM " ++ table0)
      :: (if (1 <? List.length (QueryConfig.selectedTables config))%nat
             && (List.length (QueryConfig.joins config) =? 0)%nat
          then map crossJoin others else [])
  end.

Definition joinClauses (config : QueryConfig.t) : list string :=
  map renderJoin (QueryConfig.joins config).

Definition whereClauses (config : QueryConfig.t) : list string :=
  if (0 <? List.length (QueryConfig.conditions config))%nat
  then ["WHERE "
        ++ join " " (mapi renderCondition (QueryConfig.conditions config))]
  else [].

Definition groupByClauses (config : QueryConfig.t) : list string :=
  if (0 <? List.length (QueryConfig.groupBy config))%nat
  then ["GROUP BY " ++ join ", " (QueryConfig.groupBy config)]
  else [].

Definition orderList (config : QueryConfig.t) : list string :=
  map renderOrder (filter orderFilter (QueryConfig.orderBy config)).

Definition orderByClauses (config : QueryConfig.t) : list string :=
  if (0 <? List.length (orderList config))%nat
  then ["ORDER BY " ++ join ", " (orderList config)]
  else [].

Definition limitClauses (config : QueryConfig.t) : list string :=
  match QueryConfig.limit config with
  | Some n => if (0 <? n)%Z then ["LIMIT " ++ numberToString n] else []
  | None => []
  end.

(** The clauses after the joins: WHERE, GROUP BY, ORDER BY, LIMIT. *)
Definition tailClauses (config : QueryConfig.t) : list string :=
  (whereClauses config ++ groupByClauses config ++ orderByClauses config
   ++ limitClauses config)%list.

Definition implicitJoins (config : QueryConfig.t) : nat :=
  match QueryConfig.joins config with
  | [] => List.length (QueryConfig.selectedTables config) - 1
  | _ :: _ => 0
  end.



Definition kindIf (present : bool) (k : ClauseKind) : list ClauseKind :=
  if present then [k] else [].

Definition nonEmpty {A : Type} (l : list A) : bool :=
  match l with [] => false | _ :: _ => true end.

Definition expectedKinds (config : QueryConfig.t) : list ClauseKind :=
  ([KSelect]
   ++ kindIf (nonEmpty (QueryConfig.selectedTables config)) KFrom
   ++ repeat KJoin (implicitJoins config)
   ++ repeat KJoin (List.length (QueryConfig.joins config))
   ++ kindIf (nonEmpty (QueryConfig.conditions config)) KWhere
   ++ kindIf (nonEmpty (QueryConfig.groupBy config)) KGroupBy
   ++ kindIf (nonEmpty (filter orderFilter (QueryConfig.orderBy config)))
             KOrderBy
   ++ kindIf (match QueryConfig.limit config with
              | Some n => (0 <? n)%Z
              | None => false
              end) KLimit)%list.

End Clauses.

(** ** The four rules of the validator, one by one

    Each rule is the test [SQLGenerator.validateSQL] makes, with the message
    it pushes when the test fails. *)

Module Rules.
Import JS SQLGenerator.

Definition MSG_SELECT : string := "Query must start with SELECT".
Definition MSG_FROM : string := "Query must include FROM clause".
Definition MSG_PARENS : string := "Unbalanced parentheses in query".
Definition MSG_KEYWORDS : string := "Query contains restricted keywords".

Definition normalize (sql : string) : string := toLowerCase (trim sql).

Definition failsSelect (sql : string) : bool :=
  negb (startsWith (normalize sql) "select").
Definition failsFrom (sql : string) : bool :=
  negb (includes (normalize sql) "from").
Definition failsParens (sql : string) : bool :=
  negb (countChar "(" sql =? countChar ")" sql)%nat.
Definition failsKeywords (sql : string) : bool :=
  existsb (includes (normalize sql)) dangerousKeywords.

Definition when (b : bool) (msg : string) : list string :=
  if b then [msg] else [].

(** Neither [f] nor [F]: a text made of such characters cannot hold
    [from] after lower-casing. *)
Definition notLetterF (c : ascii) : bool :=
  negb (Ascii.eqb c "f") && negb (Ascii.eqb c "F").

Definition notLowerF (c : ascii) : bool := negb (Ascii.eqb c "f").

End Rules.

(** ** Configurations and texts of the scenarios *)

Module Scenario.

Definition plainColumn (tableName columnName : string) : SelectedColumn.t :=
  SelectedColumn.mk (tableName ++ "." ++ columnName) tableName columnName
    None None None.

Definition emptyConfig : QueryConfig.t :=
  QueryConfig.mk [] [] [] [] [] [] None false (Some AND).

(** The configuration of the end-to-end scenario. *)
Definition endToEndConfig : QueryConfig.t :=
  QueryConfig.mk ["public.users"]
    [plainColumn "users" "id"; plainColumn "users" "email"]
    [QueryCondition.mk "condition_1" "public.users.status" "=" "active" None]
    [] [] [] None false (Some AND).

(** The same scenario with other ids and another connective. *)
Definition endToEndConfigOtherIds : QueryConfig.t :=
  QueryConfig.mk ["public.users"]
    [SelectedColumn.mk "c1" "users" "id" None None (Some []);
     SelectedColumn.mk "c2" "users" "email" None None None]
    [QueryCondition.mk "condition_2" "public.users.status" "=" "active" None]
    [] [] [] None false (Some OR).

Definition LF : string := SQLGenerator.LF.

(** The text the specification gives for the end-to-end scenario. *)
Definition endToEndSpecText : string :=
  "SELECT" ++ LF ++ "  users.id," ++ LF ++ "  users.email" ++ LF
  ++ "FROM public.users" ++ LF ++ "WHERE status = 'active'".

(** The text the generator renders for it. *)
Definition endToEndText : string :=
  "SELECT" ++ LF ++ "  users.id," ++ LF ++ "  users.email" ++ LF
  ++ "FROM public.users" ++ LF ++ "WHERE public.users.status = 'active'".

(** One condition over the table [users]. *)
Definition oneCondition (operator value : string) : QueryConfig.t :=
  QueryConfig.mk ["users"] []
    [QueryCondition.mk "condition_1" "name" operator value None]
    [] [] [] None false (Some AND).

(** No table selected, one column read through EXTRACT. *)
Definition extractConfig : QueryConfig.t :=
  QueryConfig.mk []
    [SelectedColumn.mk "orders.ts" "orders" "ts" None (Some "EXTRACT") None]
    [] [] [] [] None false (Some AND).

(** A column is selected whose table has been removed since. *)
Definition orphanColumnConfig : QueryConfig.t :=
  QueryConfig.mk [] [plainColumn "users" "id"] [] [] [] [] None false
    (Some AND).

(** A table listed twice. *)
Definition twiceListedConfig : QueryConfig.t :=
  QueryConfig.mk ["users"; "users"] [] [] [] [] [] None false (Some AND).

Definition twoTablesConfig : QueryConfig.t :=
  QueryConfig.mk ["orders"; "users"] [] [] [] [] [] None false (Some AND).

End Scenario.

(** ** Updating one field of a configuration

    The object spread [{ ...config, field: value }] of the handlers. *)

Module Update.

Definition selectedTables (config : QueryConfig.t) (v : list string)
  : QueryConfig.t :=
  QueryConfig.mk v (QueryConfig.selectedColumns config)
    (QueryConfig.conditions config) (QueryConfig.joins config)
    (QueryConfig.groupBy config) (QueryConfig.orderBy config)
    (QueryConfig.limit config) (QueryConfig.distinct config)
    (QueryConfig.logicalOperator config).

Definition selectedColumns (config : QueryConfig.t)
    (v : list SelectedColumn.t) : QueryConfig.t :=
  QueryConfig.mk (QueryConfig.selectedTables config) v
    (QueryConfig.conditions config) (QueryConfig.joins config)
    (QueryConfig.groupBy config) (QueryConfig.orderBy config)
    (QueryConfig.limit config) (QueryConfig.distinct config)
    (QueryConfig.logicalOperator config).

Definition conditions (config : QueryConfig.t) (v : list QueryCondition.t)
  : QueryConfig.t :=
  QueryConfig.mk (QueryConfig.selectedTables config)
    (QueryConfig.selectedColumns config) v (QueryConfig.joins config)
    (QueryConfig.groupBy config) (QueryConfig.orderBy config)
    (QueryConfig.limit config) (QueryConfig.distinct config)
    (QueryConfig.logicalOperator config).

Definition joins (config : QueryConfig.t) (v : list QueryJoin.t)
  : QueryConfig.t :=
  QueryConfig.mk (QueryConfig.selectedTables config)
    (QueryConfig.selectedColumns config) (QueryConfig.conditions config) v
    (QueryConfig.groupBy config) (QueryConfig.orderBy config)
    (QueryConfig.limit config) (QueryConfig.distinct config)
    (QueryConfig.logicalOperator config).

Definition groupBy (config : QueryConfig.t) (v : list string) : QueryConfig.t :=
  QueryConfig.mk (QueryConfig.selectedTables config)
    (QueryConfig.selectedColumns config) (QueryConfig.conditions config)
    (QueryConfig.joins config) v (QueryConfig.orderBy config)
    (QueryConfig.limit config) (QueryConfig.distinct config)
    (QueryConfig.logicalOperator config).

Definition orderBy (config : QueryConfig.t) (v : list OrderBy.t)
  : QueryConfig.t :=
  QueryConfig.mk (QueryConfig.selectedTables config)
    (QueryConfig.selectedColumns config) (QueryConfig.conditions config)
    (QueryConfig.joins config) (QueryConfig.groupBy config) v
    (QueryConfig.limit config) (QueryConfig.distinct config)
    (QueryConfig.logicalOperator config).

(** [{ ...condition, logicalOperator: v }] *)
Definition conditionLogicalOperator (c : QueryCondition.t)
    (v : option LogicalOperator) : QueryCondition.t :=
  QueryCondition.mk (QueryCondition.id c) (QueryCondition.column c)
    (QueryCondition.operator c) (QueryCondition.value c) v.

End Update.

(** ** More JavaScript primitives *)

Module JSArray.

(** [s.split(sep)] for a one-character separator: the segments between the
    separators, at least one. *)
Fixpoint splitFrom (sep : ascii) (segment s : string) : list string :=
  match s with
  | String c t =>
      if Ascii.eqb c sep
      then segment :: splitFrom sep EmptyString t
      else splitFrom sep (segment ++ String c EmptyString) t
  | EmptyString => [segment]
  end.

Definition split (sep : ascii) (s : string) : list string :=
  splitFrom sep EmptyString s.

(** The value of [arr.pop()]: the last element, [None] for [undefined]. *)
Fixpoint pop {A : Type} (arr : list A) : option A :=
  match arr with
  | [] => None
  | [x] => Some x
  | _ :: t => pop t
  end.

(** [arr[i]], [None] for [undefined]. *)
Definition at_ {A : Type} (arr : list A) (i : nat) : option A :=
  nth_error arr i.

(** [x || fallback] for an optional string. *)
Definition orElse (x : option string) (fallback : string) : string :=
  match x with
  | Some v => if JS.truthy v then v else fallback
  | None => fallback
  end.

(** [arr.filter((_, i) => i !== index)] *)
Fixpoint removeAtFrom {A : Type} (i index : nat) (arr : list A) : list A :=
  match arr with
  | [] => []
  | x :: t =>
      if (i =? index)%nat then removeAtFrom (S i) index t
      else x :: removeAtFrom (S i) index t
  end.

Definition removeAt {A : Type} (index : nat) (arr : list A) : list A :=
  removeAtFrom 0 index arr.

End JSArray.

(** ** The query builder page, beyond the add handlers ([QueryBuilder]) *)

Module Page.
Import JS JSArray SQLGenerator.

(** The effect that recomputes [generatedSQL] whenever the configuration
    changes. *)
Definition generatedSQL (queryConfig : QueryConfig.t) : string :=
  if (0 <? List.length (QueryConfig.selectedTables queryConfig))%nat
  then generateSQL queryConfig
  else "".

(** What [handleExecuteQuery] does: it shows a toast, or it starts the
    mutation for a page. *)
Inductive ExecuteOutcome : Type :=
| ToastShown (title description : string)
| MutationStarted (page : Z).

Definition handleExecuteQuery (generatedSQL : string) : ExecuteOutcome :=
  if negb (truthy (trim generatedSQL)) then
    ToastShown "No Query" "Please build a query first"
  else
    let validation := validateSQL generatedSQL in
    if negb (ValidationResult.isValid validation) then
      ToastShown "Invalid Query"
                 (join ", " (ValidationResult.errors validation))
    else MutationStarted 1.

(** *** The request body [executeQueryMutation] builds *)

Module PayloadJoin.
Record t : Type := mk {
  schema : string;
  table : string;
  type : JoinType;
  on : list (list string)
}.
End PayloadJoin.

Module Aggregation.
Record t : Type := mk {
  operation : string;
  column : string;
  alias : string
}.
End Aggregation.

Module FilterCondition.
Record t : Type := mk {
  column : option string;
  op : string;
  value : string
}.
End FilterCondition.

Module OrderEntry.
Record t : Type := mk {
  column : option string;
  dir : string
}.
End OrderEntry.

Module Payload.
Record t : Type := mk {
  schema : string;
  table : option string;
  columns : list string;
  joins : list PayloadJoin.t;
  aggregations : list Aggregation.t;
  group_by : list (option string);
  logical_op : option LogicalOperator;
  conditions : list FilterCondition.t;
  order_by : list OrderEntry.t;
  page : Z
}.
End Payload.

(** [!col.function] *)
Definition noFunction (col : SelectedColumn.t) : bool :=
  match SelectedColumn.function col with
  | Some fn => negb (truthy fn)
  | None => true
  end.

(** [path.split('.').pop()] *)
Definition lastSegment (path : string) : option string :=
  pop (split "." path).

(** [sent] is the part of [path] after its last dot, the whole path when
    it has none. *)
Definition namedByLastSegment (path : string) (sent : option string) : Prop :=
  exists last prefix,
    sent = Some last /\ countChar "." last = 0 /\ path = prefix ++ last
    /\ (prefix = "" \/ exists p, prefix = p ++ ".").

Definition payloadJoin (j : QueryJoin.t) : PayloadJoin.t :=
  PayloadJoin.mk "public" (QueryJoin.rightTable j) (QueryJoin.type j)
    ([QueryJoin.leftTable j ++ "." ++ QueryJoin.leftColumn j;
      QueryJoin.rightTable j ++ "." ++ QueryJoin.rightColumn j]
     :: map (fun cond =>
               [QueryJoin.leftTable j ++ "."
                ++ AdditionalCondition.leftColumn cond;
                QueryJoin.rightTable j ++ "."
                ++ AdditionalCondition.rightColumn cond])
            (match QueryJoin.additionalConditions j with
             | Some acs => acs
             | None => []
             end)).

(** The function of a column that passed the filter [!!col.function]. *)
Definition functionOf (col : SelectedColumn.t) : string :=
  match SelectedColumn.function col with
  | Some fn => fn
  | None => EmptyString
  end.

Definition buildPayload (queryConfig : QueryConfig.t) (page : Z) : Payload.t :=
  let columns :=
    map SelectedColumn.columnName
        (filter noFunction (QueryConfig.selectedColumns queryConfig)) in
  let joins := map payloadJoin (QueryConfig.joins queryConfig) in
  let aggregations :=
    map (fun col =>
           Aggregation.mk (functionOf col) (SelectedColumn.columnName col)
             (orElse (SelectedColumn.alias col) (SelectedColumn.columnName col)))
        (filter (fun col => negb (noFunction col))
                (QueryConfig.selectedColumns queryConfig)) in
  Payload.mk "public" (at_ (QueryConfig.selectedTables queryConfig) 0)
    columns joins aggregations
    (map lastSegment (QueryConfig.groupBy queryConfig))
    (QueryConfig.logicalOperator queryConfig)
    (map (fun cond =>
            FilterCondition.mk (lastSegment (QueryCondition.column cond))
              (QueryCondition.operator cond) (QueryCondition.value cond))
         (QueryConfig.conditions queryConfig))
    (map (fun order =>
            OrderEntry.mk (lastSegment (OrderBy.column order))
              (toLowerCase (Direction_toString (OrderBy.direction order))))
         (QueryConfig.orderBy queryConfig))
    page.

End Page.

(** ** The configuration panel ([QueryConfiguration])

    Every handler is modelled by the configuration it passes to [onChange];
    [addToGroupBy] may leave [onChange] uncalled, which is [None].  [now] is
    the value of [Date.now()]. *)

Module Configuration.
Import JS JSArray.

Definition allTables (config : QueryConfig.t) : list string :=
  uniqueInOrder
    (QueryConfig.selectedTables config
     ++ map QueryJoin.leftTable (QueryConfig.joins config)
     ++ map QueryJoin.rightTable (QueryConfig.joins config))%list.

Definition addToGroupBy (column : string) (config : QueryConfig.t)
  : option QueryConfig.t :=
  if negb (arrayIncludes (QueryConfig.groupBy config) column)
  then Some (Update.groupBy config (QueryConfig.groupBy config ++ [column])%list)
  else None.

Definition removeFromGroupBy (column : string) (config : QueryConfig.t)
  : QueryConfig.t :=
  let newGroupBy :=
    filter (fun col => negb (String.eqb col column))
           (QueryConfig.groupBy config) in
  Update.groupBy config newGroupBy.

Definition addJoin (now : Z) (config : QueryConfig.t) : QueryConfig.t :=
  let newJoin :=
    QueryJoin.mk ("join_" ++ numberToString now) INNER
      (orElse (at_ (QueryConfig.selectedTables config) 0) "") ""
      (orElse (at_ (QueryConfig.selectedTables config) 1) "") "" None in
  Update.joins config (QueryConfig.joins config ++ [newJoin])%list.

(** [Partial<QueryJoin>]: a field is [Some] when the update carries it. *)
Module JoinUpdates.
Record t : Type := mk {
  id : option string;
  type : option JoinType;
  leftTable : option string;
  leftColumn : option string;
  rightTable : option string;
  rightColumn : option string;
  additionalConditions : option (list AdditionalCondition.t)
}.
End JoinUpdates.

Definition override {A : Type} (old : A) (new : option A) : A :=
  match new with Some v => v | None => old end.

(** What a field is after a spread of [updates] over an entry: the value
    the update carries, or the old value when it carries none. *)
Definition merged {A : Type} (old : A) (update : option A) (new : A) : Prop :=
  match update with
  | Some v => new = v
  | None => new = old
  end.

(** [{ ...join, ...updates }] *)
Definition applyJoinUpdates (join : QueryJoin.t) (updates : JoinUpdates.t)
  : QueryJoin.t :=
  QueryJoin.mk
    (override (QueryJoin.id join) (JoinUpdates.id updates))
    (override (QueryJoin.type join) (JoinUpdates.type updates))
    (override (QueryJoin.leftTable join) (JoinUpdates.leftTable updates))
    (override (QueryJoin.leftColumn join) (JoinUpdates.leftColumn updates))
    (override (QueryJoin.rightTable join) (JoinUpdates.rightTable updates))
    (override (QueryJoin.rightColumn join) (JoinUpdates.rightColumn updates))
    (match JoinUpdates.additionalConditions updates with
     | Some acs => Some acs
     | None => QueryJoin.additionalConditions join
     end).

Definition updateJoin (joinId : string) (updates : JoinUpdates.t)
    (config : QueryConfig.t) : QueryConfig.t :=
  let newJoins :=
    map (fun join =>
           if String.eqb (QueryJoin.id join) joinId
           then applyJoinUpdates join updates else join)
        (QueryConfig.joins config) in
  Update.joins config newJoins.

Definition removeJoin (joinId : string) (config : QueryConfig.t)
  : QueryConfig.t :=
  let newJoins :=
    filter (fun join => negb (String.eqb (QueryJoin.id join) joinId))
           (QueryConfig.joins config) in
  Update.joins config newJoins.

Definition addCondition (now : Z) (config : QueryConfig.t) : QueryConfig.t :=
  let newCondition :=
    QueryCondition.mk ("condition_" ++ numberToString now) "" "=" ""
      (if (0 <? List.length (QueryConfig.conditions config))%nat
       then Some AND else None) in
  Update.conditions config (QueryConfig.conditions config ++ [newCondition])%list.

(** [Partial<QueryCondition>] *)
Module ConditionUpdates.
Record t : Type := mk {
  id : option string;
  column : option string;
  operator : option string;
  value : option string;
  logicalOperator : option LogicalOperator
}.
End ConditionUpdates.

(** [{ ...condition, ...updates }] *)
Definition applyConditionUpdates (condition : QueryCondition.t)
    (updates : ConditionUpdates.t) : QueryCondition.t :=
  QueryCondition.mk
    (override (QueryCondition.id condition) (ConditionUpdates.id updates))
    (override (QueryCondition.column condition)
              (ConditionUpdates.column updates))
    (override (QueryCondition.operator condition)
              (ConditionUpdates.operator updates))
    (override (QueryCondition.value condition) (ConditionUpdates.value updates))
    (match ConditionUpdates.logicalOperator updates with
     | Some lop => Some lop
     | None => QueryCondition.logicalOperator condition
     end).

Definition updateCondition (conditionId : string)
    (updates : ConditionUpdates.t) (config : QueryConfig.t) : QueryConfig.t :=
  let newConditions :=
    map (fun condition =>
           if String.eqb (QueryCondition.id condition) conditionId
           then applyConditionUpdates condition updates else condition)
        (QueryConfig.conditions config) in
  Update.conditions config newConditions.

Definition removeCondition (conditionId : string) (config : QueryConfig.t)
  : QueryConfig.t :=
  let newConditions :=
    filter (fun condition =>
              negb (String.eqb (QueryCondition.id condition) conditionId))
           (QueryConfig.conditions config) in
  Update.conditions config newConditions.

(** The "Add Sort" button. *)
Definition addSort (config : QueryConfig.t) : QueryConfig.t :=
  let newOrderBy := (QueryConfig.orderBy config ++ [OrderBy.mk "" ASC])%list in
  Update.orderBy config newOrderBy.

(** The remove button of the sort entry at [index]. *)
Definition removeSort (index : nat) (config : QueryConfig.t) : QueryConfig.t :=
  let newOrderBy := removeAt index (QueryConfig.orderBy config) in
  Update.orderBy config newOrderBy.

(** *** The columns offered for a table

    [columnsCache] is the lookup [columnsCache[tableName]], with the column
    names of a fetched table. *)

Module AvailableColumn.
Record t : Type := mk {
  value : string;
  label : string;
  table : string
}.
End AvailableColumn.

(** The effect that rebuilds [availableColumns] from the cache. *)
Definition buildAvailableColumns (tables : list string)
    (columnsCache : string -> option (list string))
  : list AvailableColumn.t :=
  flat_map
    (fun tableName =>
       let columns :=
         match columnsCache tableName with Some cols => cols | None => [] end in
       map (fun column_name =>
              AvailableColumn.mk (tableName ++ "." ++ column_name)
                (tableName ++ "." ++ column_name) tableName)
           columns)
    tables.

Module TableColumn.
Record t : Type := mk {
  name : string;
  fullName : string
}.
End TableColumn.

Definition getColumnsForTable (availableColumns : list AvailableColumn.t)
    (tableName : string) : list TableColumn.t :=
  filter
    (fun col =>
       truthy (TableColumn.name col)
       && negb (String.eqb (trim (TableColumn.name col)) ""))
    (map (fun col =>
            TableColumn.mk
              (orElse (at_ (split "." (AvailableColumn.value col)) 1)
                      (AvailableColumn.value col))
              (AvailableColumn.value col))
         (filter (fun col => String.eqb (AvailableColumn.table col) tableName)
                 availableColumns)).

End Configuration.

(** ** Join conditions on the canvas ([QueryCanvas]) *)

Module Canvas.
Import JS.

Definition additionalOrEmpty (join : QueryJoin.t) : list AdditionalCondition.t :=
  match QueryJoin.additionalConditions join with
  | Some acs => acs
  | None => []
  end.

Definition withAdditional (join : QueryJoin.t)
    (acs : list AdditionalCondition.t) : QueryJoin.t :=
  QueryJoin.mk (QueryJoin.id join) (QueryJoin.type join)
    (QueryJoin.leftTable join) (QueryJoin.leftColumn join)
    (QueryJoin.rightTable join) (QueryJoin.rightColumn join) (Some acs).

Definition addJoinCondition (now : Z) (joinId : string)
    (config : QueryConfig.t) : QueryConfig.t :=
  let newJoins :=
    map (fun join =>
           if String.eqb (QueryJoin.id join) joinId then
             withAdditional join
               (additionalOrEmpty join
                ++ [AdditionalCondition.mk
                      ("join_condition_" ++ numberToString now) "" ""])%list
           else join)
        (QueryConfig.joins config) in
  Update.joins config newJoins.

Definition removeJoinCondition (joinId conditionId : string)
    (config : QueryConfig.t) : QueryConfig.t :=
  let newJoins :=
    map (fun join =>
           if String.eqb (QueryJoin.id join) joinId then
             withAdditional join
               (filter (fun condition =>
                          negb (String.eqb (AdditionalCondition.id condition)
                                           conditionId))
                       (additionalOrEmpty join))
           else join)
        (QueryConfig.joins config) in
  Update.joins config newJoins.

(** The two pieces of a rendered join: the clause up to its first
    equality, and the piece one additional condition adds. *)
Definition onClause (j : QueryJoin.t) : string :=
  JoinType_toString (QueryJoin.type j) ++ " JOIN " ++ QueryJoin.rightTable j
  ++ " ON " ++ QueryJoin.leftTable j ++ "." ++ QueryJoin.leftColumn j
  ++ " = " ++ QueryJoin.rightTable j ++ "." ++ QueryJoin.rightColumn j.

Definition andClause (j : QueryJoin.t) (ac : AdditionalCondition.t) : string :=
  " AND " ++ QueryJoin.leftTable j ++ "." ++ AdditionalCondition.leftColumn ac
  ++ " = " ++ QueryJoin.rightTable j ++ "."
  ++ AdditionalCondition.rightColumn ac.

End Canvas.

(** ** Subqueries ([SubqueryBuilder]) *)

Module Subquery.
Import JS.

Record t : Type := mk {
  id : string;
  name : string;
  config : QueryConfig.t;
  alias : string
}.

Definition generateSubquerySQL (subConfig : QueryConfig.t) : string :=
  let sql := "SELECT " in
  let sql :=
    if (List.length (QueryConfig.selectedColumns subConfig) =? 0)%nat
    then sql ++ "*"
    else sql ++ join ", "
                  (map (fun col => SelectedColumn.tableName col ++ "."
                                   ++ SelectedColumn.columnName col)
                       (QueryConfig.selectedColumns subConfig)) in
  let sql :=
    match QueryConfig.selectedTables subConfig with
    | table0 :: _ => sql ++ " FROM " ++ table0
    | [] => sql
    end in
  let sql :=
    if (0 <? List.length (QueryConfig.conditions subConfig))%nat
    then sql ++ " WHERE "
         ++ join " AND "
              (map (fun cond => QueryCondition.column cond ++ " "
                                ++ QueryCondition.operator cond ++ " "
                                ++ QueryCondition.value cond)
                   (QueryConfig.conditions subConfig))
    else sql in
  sql.

(** The value of the condition a subquery becomes in the main query. *)
Definition subqueryValue (subquery : t) : string :=
  "(SELECT id FROM (" ++ generateSubquerySQL (config subquery) ++ ") "
  ++ alias subquery ++ ")".

Definition addSubqueryToMainQuery (now : Z) (subquery : t)
    (config : QueryConfig.t) : QueryConfig.t :=
  let subqueryCondition :=
    QueryCondition.mk ("condition_" ++ numberToString now) "id" "IN"
      (subqueryValue subquery)
      (if (0 <? List.length (QueryConfig.conditions config))%nat
       then Some AND else None) in
  let newConditions := (QueryConfig.conditions config ++ [subqueryCondition])%list in
  Update.conditions config newConditions.

End Subquery.

(** ** The external database and the storage layer
    ([ExternalDatabaseManager], [DatabaseStorage], the database routes)

    The two databases are collaborators: [pgConnect] is the outcome of
    connecting to a PostgreSQL server and running [SELECT 1] there ([None]
    when it succeeds, the error's message otherwise), [externalQuery] and
    [poolQuery] are the outcomes of [query] on the external pool and on the
    local one ([inr] is the message of the error thrown).  [testConnection]
    catches every error itself, so the [catch] blocks of the database routes
    are not entered. *)

Module Server.
Import JS.

Inductive DbType : Type := postgresql | mysql.

Definition DbType_toString (t : DbType) : string :=
  match t with postgresql => "postgresql" | mysql => "mysql" end.

Module ExternalDatabaseConfig.
Record t : Type := mk {
  type : DbType;
  host : string;
  port : Z;
  database : string;
  username : string;
  password : string;
  ssl : option bool
}.
End ExternalDatabaseConfig.

Module Manager.
Record t : Type := mk {
  currentConfig : option ExternalDatabaseConfig.t;
  isConnected : bool
}.
End Manager.

Definition setConfiguration (config : ExternalDatabaseConfig.t)
    (m : Manager.t) : Manager.t :=
  Manager.mk (Some config) false.

Definition clearConfiguration (m : Manager.t) : Manager.t :=
  Manager.mk None false.

Definition isExternalDatabaseConfigured (m : Manager.t) : bool :=
  match Manager.currentConfig m with Some _ => true | None => false end.

Module TestResult.
Record t : Type := mk {
  success : bool;
  error : option string
}.
End TestResult.

(** The server's state: the manager and the flag of the storage. *)
Module State.
Record t : Type := mk {
  manager : Manager.t;
  useExternalDB : bool
}.
End State.

Definition initial : State.t := State.mk (Manager.mk None false) false.

(** A row as the database driver returns it, and as [Object.values] turns
    it. *)
Inductive Row : Type :=
| ObjectRow (entries : list (string * Routes.Cell))
| ArrayRow (cells : list Routes.Cell).

Module PgResult.
Record t : Type := mk {
  fields : option (list string);
  rows : list (list (string * Routes.Cell))
}.
End PgResult.

Module StorageResult.
Record t : Type := mk {
  columns : list string;
  rows : list Row
}.
End StorageResult.

Inductive DbBody : Type :=
| TestBody (result : TestResult.t)
| ConnectedBody (success : bool) (message : string)
| StatusBody (connected : bool).

Module DbResponse.
Record t : Type := mk {
  status : nat;
  body : DbBody
}.
End DbResponse.

Inductive Request : Type :=
| PostTest (config : ExternalDatabaseConfig.t)
| PostConnect (config : ExternalDatabaseConfig.t)
| PostDisconnect
| GetStatus.

Section Databases.

Variable pgConnect : ExternalDatabaseConfig.t -> option string.
Variable externalQuery :
  ExternalDatabaseConfig.t -> string -> PgResult.t + string.
Variable poolQuery : string -> PgResult.t + string.

Definition testConnection (config : ExternalDatabaseConfig.t) : TestResult.t :=
  match ExternalDatabaseConfig.type config with
  | postgresql =>
      match pgConnect config with
      | None => TestResult.mk true None
      | Some message => TestResult.mk false (Some message)
      end
  | mysql => TestResult.mk false (Some "MySQL support not yet implemented")
  end.

(** [externalDbManager.executeQuery] *)
Definition manager_executeQuery (m : Manager.t) (query : string)
  : StorageResult.t + string :=
  match Manager.currentConfig m with
  | None => inr "No external database configured"
  | Some config =>
      match ExternalDatabaseConfig.type config with
      | postgresql =>
          match externalQuery config query with
          | inl result =>
              inl (StorageResult.mk
                     (match PgResult.fields result with
                      | Some fields => fields
                      | None => []
                      end)
                     (map ObjectRow (PgResult.rows result)))
          | inr message => inr message
          end
      | other => inr ("Unsupported database type: " ++ DbType_toString other)
      end
  end.

(** [storage.executeQuery] *)
Definition storage_executeQuery (st : State.t) (sqlQuery : string)
  : StorageResult.t + string :=
  if State.useExternalDB st
     && isExternalDatabaseConfigured (State.manager st)
  then manager_executeQuery (State.manager st) sqlQuery
  else
    match poolQuery sqlQuery with
    | inl result =>
        match PgResult.rows result with
        | row0 :: _ =>
            let columns :=
              match PgResult.fields result with
              | Some fields => fields
              | None => map fst row0
              end in
            let rows :=
              map (fun row => ArrayRow (map snd row)) (PgResult.rows result) in
            inl (StorageResult.mk columns rows)
        | [] => inl (StorageResult.mk [] [])
        end
    | inr message => inr ("Query execution failed: " ++ message)
    end.

(** The routes [/api/database/test], [/connect], [/disconnect] and
    [/status]. *)
Definition handle (request : Request) (st : State.t)
  : State.t * DbResponse.t :=
  match request with
  | PostTest config =>
      (st, DbResponse.mk 200 (TestBody (testConnection config)))
  | PostConnect config =>
      let testResult := testConnection config in
      if negb (TestResult.success testResult) then
        (st, DbResponse.mk 400 (TestBody testResult))
      else
        (State.mk (setConfiguration config (State.manager st)) true,
         DbResponse.mk 200
           (ConnectedBody true "Connected to external database"))
  | PostDisconnect =>
      (State.mk (clearConfiguration (State.manager st)) false,
       DbResponse.mk 200
         (ConnectedBody true "Disconnected from external database"))
  | GetStatus =>
      (st, DbResponse.mk 200
             (StatusBody (isExternalDatabaseConfigured (State.manager st))))
  end.

(** The state after a sequence of requests. *)
Definition run (requests : list Request) (st : State.t) : State.t :=
  fold_left (fun st request => fst (handle request st)) requests st.

(** What holds of the states the routes can reach. *)
Definition consistent (st : State.t) : Prop :=
  Manager.isConnected (State.manager st) = false
  /\ State.useExternalDB st = isExternalDatabaseConfigured (State.manager st)
  /\ (forall config,
        Manager.currentConfig (State.manager st) = Some config ->
        ExternalDatabaseConfig.type config = postgresql
        /\ pgConnect config = None).

(** A request that is no disconnect and no connect that passes the test: a
    test, a status request, or a connect to a MySQL server or to a
    PostgreSQL server that cannot be reached. *)
Definition quiet (request : Request) : Prop :=
  match request with
  | PostTest _ | GetStatus => True
  | PostConnect config =>
      ExternalDatabaseConfig.type config = mysql \/ pgConnect config <> None
  | PostDisconnect => False
  end.

End Databases.

End Server.

(** ** The page that keeps its tables as records ([QueryBuilder], in the
    variant whose [selectedTables] holds [{ tableName, schema, alias }])

    [handleTablesAdd] is modelled on the list [selectedTables]; the other
    fields of the configuration are carried over by the spread. *)

Module RecordsPage.
Import JS.

Module TableRef.
Record t : Type := mk {
  tableName : string;
  schema : string;
  alias : option string
}.
End TableRef.

Module TableItem.
Record t : Type := mk {
  schema : string;
  table : string
}.
End TableItem.

Definition keyOf (table : TableRef.t) : string :=
  TableRef.schema table ++ "." ++ TableRef.tableName table.

(** [map.set(key, value)] on a [Map], which keeps the place of a key it
    already holds. *)
Fixpoint mapSet (entries : list (string * TableRef.t)) (key : string)
    (value : TableRef.t) : list (string * TableRef.t) :=
  match entries with
  | [] => [(key, value)]
  | (k, v) :: rest =>
      if String.eqb k key then (k, value) :: rest
      else (k, v) :: mapSet rest key value
  end.

Definition keys (entries : list (string * TableRef.t)) : list string :=
  map fst entries.

(** The value the loop stores for a table: [alias ?? ""]. *)
Definition stored (table : TableRef.t) : TableRef.t :=
  TableRef.mk (TableRef.tableName table) (TableRef.schema table)
    (Some (match TableRef.alias table with Some a => a | None => "" end)).

Definition newTable (item : TableItem.t) : TableRef.t :=
  TableRef.mk (TableItem.table item) (TableItem.schema item) (Some "").

Definition handleTablesAdd (tableItems : list TableItem.t)
    (prevTables : list TableRef.t) : list TableRef.t :=
  let newTables := map newTable tableItems in
  let combinedTables := (prevTables ++ newTables)%list in
  let uniqueTableMap :=
    fold_left (fun m table => mapSet m (keyOf table) (stored table))
              combinedTables [] in
  map snd uniqueTableMap.

Definition getTableAlias (selectedTables : list TableRef.t)
    (schema table : string) : string :=
  let fallback := schema ++ "." ++ table in
  match find (fun t => String.eqb (TableRef.schema t) schema
                       && String.eqb (TableRef.tableName t) table)
             selectedTables with
  | Some m =>
      match TableRef.alias m with
      | Some a => if truthy (trim a) then trim a else fallback
      | None => fallback
      end
  | None => fallback
  end.

End RecordsPage.

(** ** Calls in a world that can change

    [generateSQL] once more, statement by statement, as a computation in the
    world a call runs in: the configuration object the caller holds, which a
    callee reaches by reference and could write; the arrays allocated so
    far, which [push] changes in place; and the clock [Date.now] reads.
    Every [config.x] of the source is a read of the object at that moment,
    [parts] is an array allocated by the call.  The source enumerates no
    object by its keys: it walks arrays only, by index, as [forEach] and
    [map] do here. *)

Module Runtime.
Import JS SQLGenerator.

Record World : Type := mkWorld {
  config : QueryConfig.t;
  arrays : list (list string);
  now : Z
}.

Definition M (A : Type) : Type := World -> A * World.

Definition ret {A : Type} (x : A) : M A := fun w => (x, w).

Definition bind {A B : Type} (m : M A) (k : A -> M B) : M B :=
  fun w => let (x, w') := m w in k x w'.

Notation "x <- c1 ;; c2" := (bind c1 (fun x => c2))
  (at level 61, c1 at next level, right associativity).

Notation "e1 ;; e2" := (bind e1 (fun _ => e2))
  (at level 61, right associativity).

(** [config.x] *)
Definition field {A : Type} (f : QueryConfig.t -> A) : M A :=
  fun w => (f (config w), w).

(** [onChange(next)]: the caller's configuration becomes [next]. *)
Definition setConfig (next : QueryConfig.t) : M unit :=
  fun w => (tt, mkWorld next (arrays w) (now w)).

(** [Date.now()] *)
Definition dateNow : M Z := fun w => (now w, w).

Fixpoint updateAt {A : Type} (i : nat) (f : A -> A) (l : list A) : list A :=
  match l, i with
  | [], _ => []
  | x :: rest, O => f x :: rest
  | x :: rest, S i' => x :: updateAt i' f rest
  end.

(** [const parts: string[] = []] *)
Definition newArray : M nat :=
  fun w => (List.length (arrays w),
            mkWorld (config w) (arrays w ++ [[]])%list (now w)).

(** [arr.push(x)] *)
Definition arrayPush (arr : nat) (x : string) : M unit :=
  fun w => (tt, mkWorld (config w)
                  (updateAt arr (fun a => push a x) (arrays w)) (now w)).

(** [arr.join(sep)] *)
Definition arrayJoin (arr : nat) (sep : string) : M string :=
  fun w => (join sep (nth arr (arrays w) []), w).

Fixpoint forEach {A : Type} (l : list A) (body : A -> M unit) : M unit :=
  match l with
  | [] => ret tt
  | x :: rest => body x ;; forEach rest body
  end.

Definition whenM (b : bool) (m : M unit) : M unit :=
  if b then m else ret tt.

(* SELECT clause *)
Definition selectBlock (parts : nat) : M unit :=
  let selectClause := "SELECT" in
  distinct <- field QueryConfig.distinct ;;
  let selectClause :=
    if distinct then selectClause ++ " DISTINCT" else selectClause in
  selectedColumns <- field QueryConfig.selectedColumns ;;
  let selectClause :=
    if (List.length selectedColumns =? 0)%nat then selectClause ++ " *"
    else
      let columnsList := map renderColumn selectedColumns in
      selectClause ++ LF ++ "  " ++ join ("," ++ LF ++ "  ") columnsList in
  arrayPush parts selectClause.

(* FROM clause *)
Definition fromBlock (parts : nat) : M unit :=
  selectedTables <- field QueryConfig.selectedTables ;;
  match selectedTables with
  | [] => ret tt
  | table0 :: others =>
      arrayPush parts ("FROM " ++ table0) ;;
      joins <- field QueryConfig.joins ;;
      whenM ((1 <? List.length selectedTables)%nat
             && (List.length joins =? 0)%nat)
            (forEach others
               (fun table => arrayPush parts ("CROSS JOIN " ++ table)))
  end.

(* JOIN clauses *)
Definition joinBlock (parts : nat) : M unit :=
  joins <- field QueryConfig.joins ;;
  forEach joins (fun j => arrayPush parts (renderJoin j)).

(* WHERE clause *)
Definition whereBlock (parts : nat) : M unit :=
  conditions <- field QueryConfig.conditions ;;
  whenM (0 <? List.length conditions)%nat
        (let whereConditions := mapi renderCondition conditions in
         arrayPush parts ("WHERE " ++ join " " whereConditions)).

(* GROUP BY clause *)
Definition groupByBlock (parts : nat) : M unit :=
  groupBy <- field QueryConfig.groupBy ;;
  whenM (0 <? List.length groupBy)%nat
        (arrayPush parts ("GROUP BY " ++ join ", " groupBy)).

(* ORDER BY clause *)
Definition orderByBlock (parts : nat) : M unit :=
  orderBy <- field QueryConfig.orderBy ;;
  whenM (0 <? List.length orderBy)%nat
        (let orderList := map renderOrder (filter orderFilter orderBy) in
         whenM (0 <? List.length orderList)%nat
               (arrayPush parts ("ORDER BY " ++ join ", " orderList))).

(* LIMIT clause *)
Definition limitBlock (parts : nat) : M unit :=
  limit <- field QueryConfig.limit ;;
  match limit with
  | Some n =>
      whenM (negb (n =? 0)%Z && (0 <? n)%Z)
            (arrayPush parts ("LIMIT " ++ numberToString n))
  | None => ret tt
  end.

(** A call of [SQLGenerator.generateSQL(config)] on the caller's
    configuration. *)
Definition callGenerateSQL : M string :=
  parts <- newArray ;;
  selectBlock parts ;;
  fromBlock parts ;;
  joinBlock parts ;;
  whereBlock parts ;;
  groupByBlock parts ;;
  orderByBlock parts ;;
  limitBlock parts ;;
  arrayJoin parts LF.

(** A click on "Add Join": [addJoin] of the configuration panel, whose
    [onChange] replaces the caller's configuration. *)
Definition callAddJoin : M unit :=
  time <- dateNow ;;
  current <- field (fun c => c) ;;
  setConfig (Configuration.addJoin time current).

End Runtime.

(** ** More sample values *)

Module Examples.

Definition mysqlConfig : Server.ExternalDatabaseConfig.t :=
  Server.ExternalDatabaseConfig.mk Server.mysql "db.example" 3306 "shop"
    "reader" "secret" None.

Definition pgConfig : Server.ExternalDatabaseConfig.t :=
  Server.ExternalDatabaseConfig.mk Server.postgresql "db.example" 5432 "shop"
    "reader" "secret" (Some true).

(** A server every PostgreSQL connection to which succeeds. *)
Definition alwaysUp (config : Server.ExternalDatabaseConfig.t)
  : option string := None.

Definition activeUsers : Subquery.t :=
  Subquery.mk "subquery_1" "Subquery 1"
    (QueryConfig.mk ["users"] [Scenario.plainColumn "users" "id"]
       [QueryCondition.mk "condition_1" "status" "=" "'active'" None]
       [] [] [] None false None)
    "sub1".

(** The text of a cell before the export quotes it. *)
Definition cellText (cell : Routes.Cell) : string :=
  match cell with
  | Routes.CellString s => s
  | Routes.CellOther text => text
  end.

Definition sampleResult : Routes.QueryResult.t :=
  Routes.QueryResult.mk ["id"; "name"]
    [[Routes.CellOther "1"; Routes.CellString "Doe, Jane"];
     [Routes.CellOther "2"; Routes.CellString "Roe"]].

End Examples.

(** * Properties *)

(** ** Strings *)

Section StringFacts.
Import JS.

Lemma startsWith_append (p r : string) : startsWith (p ++ r) p = true.
Proof.
  induction p as [|c p IH]; simpl; [reflexivity|].
  now rewrite Ascii.eqb_refl, IH.
Qed.

Lemma startsWith_spec (s p : string) :
  startsWith s p = true <-> exists r, s = p ++ r.
Proof.
  split.
  - revert s; induction p as [|c p IH]; intros s H; simpl in *.
    + now exists s.
    + destruct s as [|d s]; [discriminate|].
      apply andb_true_iff in H as [Hc Hp].
      apply Ascii.eqb_eq in Hc; subst d.
      destruct (IH _ Hp) as [r ->]. now exists r.
  - intros [r ->]. apply startsWith_append.
Qed.

Lemma includes_unfold (s needle : string) :
  includes s needle =
    startsWith s needle ||
    match s with String _ t => includes t needle | EmptyString => false end.
Proof. destruct s; reflexivity. Qed.

(** [includes] is substring containment. *)
Lemma includes_spec (s needle : string) :
  includes s needle = true <-> exists a b, s = a ++ needle ++ b.
Proof.
  split.
  - induction s as [|c s IH]; rewrite includes_unfold; intros H;
      apply orb_true_iff in H as [H|H].
    + apply startsWith_spec in H as [r Hr]. now exists "", r.
    + discriminate.
    + apply startsWith_spec in H as [r Hr]. now exists "", r.
    + destruct (IH H) as (a & b & ->). now exists (String c a), b.
  - intros (a & b & ->).
    induction a as [|c a IH]; rewrite includes_unfold; simpl.
    + now rewrite startsWith_append.
    + rewrite IH. apply orb_true_r.
Qed.

Lemma push_app {A : Type} (l : list A) (x : A) : push l x = (l ++ [x])%list.
Proof. reflexivity. Qed.

Lemma fold_push {A B : Type} (f : B -> A) (l : list B) (parts : list A) :
  fold_left (fun parts x => push parts (f x)) l parts = (parts ++ map f l)%list.
Proof.
  revert parts; induction l as [|x l IH]; intros parts; simpl.
  - now rewrite app_nil_r.
  - rewrite IH. unfold push. now rewrite <- app_assoc.
Qed.

Lemma length_zero_iff {A : Type} (l : list A) :
  (List.length l =? 0)%nat = true <-> l = [].
Proof. destruct l; simpl; split; intros H; congruence. Qed.

End StringFacts.

(** ** The validator *)

Section Validator.
Import JS SQLGenerator Rules.

Lemma validateSQL_errors (sql : string) :
  ValidationResult.errors (validateSQL sql) =
    (when (failsSelect sql) MSG_SELECT ++ when (failsFrom sql) MSG_FROM
     ++ when (failsParens sql) MSG_PARENS
     ++ when (failsKeywords sql) MSG_KEYWORDS)%list.
Proof.
  unfold validateSQL, failsSelect, failsFrom, failsParens, failsKeywords,
    normalize.
  cbn [ValidationResult.errors].
  destruct (negb (startsWith _ "select"));
    destruct (negb (includes _ "from"));
    destruct (negb (_ =? _)%nat);
    destruct (existsb _ dangerousKeywords); reflexivity.
Qed.

Lemma validateSQL_isValid (sql : string) :
  ValidationResult.isValid (validateSQL sql) =
    (List.length (ValidationResult.errors (validateSQL sql)) =? 0)%nat.
Proof. reflexivity. Qed.

Lemma in_when (b : bool) (msg m : string) :
  In m (when b msg) <-> b = true /\ m = msg.
Proof.
  destruct b; simpl; split; intros H.
  - destruct H as [<-|[]]. now split.
  - destruct H as [_ ->]. now left.
  - destruct H.
  - destruct H; discriminate.
Qed.

Lemma in_errors (sql m : string) :
  In m (ValidationResult.errors (validateSQL sql)) <->
    (failsSelect sql = true /\ m = MSG_SELECT)
    \/ (failsFrom sql = true /\ m = MSG_FROM)
    \/ (failsParens sql = true /\ m = MSG_PARENS)
    \/ (failsKeywords sql = true /\ m = MSG_KEYWORDS).
Proof.
  rewrite validateSQL_errors, !in_app_iff, !in_when. tauto.
Qed.

(** C7: [validateSQL] evaluates its four rules independently of one
    another: the error list is, in rule order, one message for each rule
    that fails (leading select, contains from, balanced parentheses, no
    denylist keyword), whatever the other rules say; and [isValid] is true
    exactly when the error list is empty, which is exactly when all four
    rules pass. *)
Theorem validateSQL_accumulates_all_errors (sql : string) :
  let r := validateSQL sql in
  ValidationResult.errors r =
    (when (failsSelect sql) MSG_SELECT ++ when (failsFrom sql) MSG_FROM
     ++ when (failsParens sql) MSG_PARENS
     ++ when (failsKeywords sql) MSG_KEYWORDS)%list
  /\ (In MSG_SELECT (ValidationResult.errors r)
      <-> startsWith (toLowerCase (trim sql)) "select" = false)
  /\ (In MSG_FROM (ValidationResult.errors r)
      <-> includes (toLowerCase (trim sql)) "from" = false)
  /\ (In MSG_PARENS (ValidationResult.errors r)
      <-> countChar "(" sql <> countChar ")" sql)
  /\ (In MSG_KEYWORDS (ValidationResult.errors r)
      <-> exists keyword, In keyword dangerousKeywords
                          /\ includes (toLowerCase (trim sql)) keyword = true)
  /\ List.length (ValidationResult.errors r) =
       ((if failsSelect sql then 1 else 0) + (if failsFrom sql then 1 else 0)
        + (if failsParens sql then 1 else 0)
        + (if failsKeywords sql then 1 else 0))%nat
  /\ (ValidationResult.isValid r = true <-> ValidationResult.errors r = [])
  /\ (ValidationResult.isValid r = true
      <-> failsSelect sql = false /\ failsFrom sql = false
          /\ failsParens sql = false /\ failsKeywords sql = false).
Proof.
  intros r; subst r.
  split; [apply validateSQL_errors|].
  split.
  { rewrite in_errors. unfold failsSelect, normalize, MSG_SELECT, MSG_FROM,
      MSG_PARENS, MSG_KEYWORDS.
    rewrite negb_true_iff. intuition discriminate. }
  split.
  { rewrite in_errors. unfold failsFrom, normalize, MSG_SELECT, MSG_FROM,
      MSG_PARENS, MSG_KEYWORDS.
    rewrite negb_true_iff. intuition discriminate. }
  split.
  { rewrite in_errors. unfold failsParens, MSG_SELECT, MSG_FROM,
      MSG_PARENS, MSG_KEYWORDS.
    rewrite negb_true_iff, Nat.eqb_neq. intuition discriminate. }
  split.
  { rewrite in_errors. unfold failsKeywords, normalize, MSG_SELECT, MSG_FROM,
      MSG_PARENS, MSG_KEYWORDS.
    rewrite existsb_exists. intuition discriminate. }
  split.
  { rewrite validateSQL_errors.
    destruct (failsSelect sql), (failsFrom sql), (failsParens sql),
      (failsKeywords sql); reflexivity. }
  split.
  { rewrite validateSQL_isValid. apply length_zero_iff. }
  rewrite validateSQL_isValid, length_zero_iff, validateSQL_errors.
  destruct (failsSelect sql), (failsFrom sql), (failsParens sql),
    (failsKeywords sql); simpl; intuition discriminate.
Qed.

End Validator.

(** ** The denylist screen *)

Section KeywordScreen.
Import JS SQLGenerator Rules.

Lemma tokensFrom_substring (s word tok : string) :
  In tok (Spec.tokensFrom word s) -> exists a b, word ++ s = a ++ tok ++ b.
Proof.
  revert word; induction s as [|c s IH]; intros word; simpl.
  - unfold Spec.flush. destruct (truthy word); simpl; [|tauto].
    intros [<-|[]]. exists "", "". simpl.
    clear. induction word as [|d w IHw]; simpl; congruence.
  - destruct (Spec.isWordChar c).
    + intros H. destruct (IH _ H) as (a & b & E).
      exists a, b. rewrite <- E.
      clear. induction word as [|d w IHw]; simpl; congruence.
    + rewrite in_app_iff. intros [H|H].
      * unfold Spec.flush in H. destruct (truthy word); simpl in H; [|tauto].
        destruct H as [<-|[]]. now exists "", (String c s).
      * destruct (IH _ H) as (a & b & E). simpl in E.
        exists (word ++ String c a), b. rewrite E.
        clear. induction word as [|d w IHw]; simpl; congruence.
Qed.

(** What the word-boundary screen flags, substring containment flags too. *)
Lemma wordBoundaryScreen_includes (text : string) :
  Spec.wordBoundaryScreen text = true ->
  existsb (includes text) dangerousKeywords = true.
Proof.
  unfold Spec.wordBoundaryScreen. rewrite !existsb_exists.
  intros (kw & Hkw & Htok). exists kw. split; [exact Hkw|].
  apply existsb_exists in Htok as (tok & Hin & Heq).
  apply String.eqb_eq in Heq; subst tok.
  apply includes_spec. exact (tokensFrom_substring _ "" _ Hin).
Qed.

(** C2, as the claim states it, fails: in [SELECT created_at FROM users] the
    denylist word [create] occurs only inside the identifier [created_at]
    (the word-boundary screen of the specification finds no keyword), and
    [validateSQL] records the restricted-keyword error all the same. *)
Lemma keyword_screen_flags_embedded_word :
  ~ (forall sql : string,
        Spec.wordBoundaryScreen (toLowerCase (trim sql)) = false ->
        ~ In MSG_KEYWORDS (ValidationResult.errors (validateSQL sql))).
Proof.
  intros H.
  apply (H "SELECT created_at FROM users").
  - vm_compute. reflexivity.
  - vm_compute. now left.
Qed.

(** C2, amended: the forbidden-keyword screen of [validateSQL] is substring
    containment on the trimmed, lower-cased text.  The restricted-keyword
    error is recorded exactly when one of drop, delete, update, insert,
    alter, create, truncate occurs anywhere in that text, also inside a
    longer identifier; so every text in which a denylist word stands as a
    whole word is flagged as well. *)
Theorem keyword_screen_is_substring_containment (sql : string) :
  (In MSG_KEYWORDS (ValidationResult.errors (validateSQL sql))
   <-> exists keyword a b,
         In keyword dangerousKeywords
         /\ toLowerCase (trim sql) = a ++ keyword ++ b)
  /\ (Spec.wordBoundaryScreen (toLowerCase (trim sql)) = true ->
      In MSG_KEYWORDS (ValidationResult.errors (validateSQL sql))).
Proof.
  assert (Hin : In MSG_KEYWORDS (ValidationResult.errors (validateSQL sql))
                <-> failsKeywords sql = true).
  { rewrite in_errors. unfold MSG_SELECT, MSG_FROM, MSG_PARENS, MSG_KEYWORDS.
    intuition discriminate. }
  split.
  - rewrite Hin. unfold failsKeywords, normalize. rewrite existsb_exists.
    split.
    + intros (kw & Hkw & Hinc). apply includes_spec in Hinc as (a & b & E).
      now exists kw, a, b.
    + intros (kw & a & b & Hkw & E). exists kw. split; [exact Hkw|].
      apply includes_spec. now exists a, b.
  - intros H. apply Hin. now apply wordBoundaryScreen_includes.
Qed.

Lemma keyword_screen_is_substring_containment_witness :
  Spec.wordBoundaryScreen (toLowerCase (trim "DROP TABLE users")) = true
  /\ In MSG_KEYWORDS
        (ValidationResult.errors (validateSQL "DROP TABLE users")).
Proof.
  split.
  - vm_compute. reflexivity.
  - apply (proj2 (keyword_screen_is_substring_containment "DROP TABLE users")).
    vm_compute. reflexivity.
Defined.

End KeywordScreen.

(** ** The entry points *)

Section EntryPoints.
Import JS Routes.

Variable storage_executeQuery : string -> QueryResult.t + string.
Variable zodErrorMessage : string.

(** The export entry point hands no text to the executor unless its
    trimmed, lower-cased form begins with [select]. *)
Lemma exportRoute_rejects_non_select (sql : string) :
  startsWith (toLowerCase (trim sql)) "select" = false ->
  passedToExecutor
    (exportRoute storage_executeQuery zodErrorMessage (Some sql)) = []
  /\ Response.status
       (response (exportRoute storage_executeQuery zodErrorMessage (Some sql)))
     = 400.
Proof.
  intros H. unfold exportRoute.
  destruct (executeQuerySchema_parse (Some sql)) as [sql'|] eqn:E.
  - assert (sql' = sql) as ->.
    { unfold executeQuerySchema_parse in E.
      destruct (1 <=? String.length sql)%nat; congruence. }
    rewrite H. simpl. now split.
  - now split.
Qed.

(** The execute entry point refuses a parsed text exactly when it begins
    with one of six words; every other text goes to the executor. *)
Lemma executeRoute_gate (sql : string) :
  (1 <= String.length sql)%nat ->
  passedToExecutor
    (executeRoute storage_executeQuery zodErrorMessage (Some sql)) =
    if existsb (startsWith (toLowerCase (trim sql)))
               ["drop"; "delete"; "update"; "insert"; "alter"; "create"]
    then [] else [sql].
Proof.
  intros H. unfold executeRoute, executeQuerySchema_parse.
  apply Nat.leb_le in H. rewrite H.
  cbn [existsb]. rewrite orb_false_r, !orb_assoc.
  destruct (_ || _); [reflexivity|].
  destruct (storage_executeQuery sql); reflexivity.
Qed.

(** C1 on the code: [TRUNCATE TABLE users] does not begin with [select]
    after trimming and lower-casing; the export entry point refuses it, and
    the execute entry point hands it to the executor. *)
Theorem executeRoute_forwards_truncate :
  let sql := "TRUNCATE TABLE users" in
  startsWith (toLowerCase (trim sql)) "select" = false
  /\ passedToExecutor
       (exportRoute storage_executeQuery zodErrorMessage (Some sql)) = []
  /\ passedToExecutor
       (executeRoute storage_executeQuery zodErrorMessage (Some sql)) = [sql].
Proof.
  intros sql. split; [reflexivity|]. split.
  - apply exportRoute_rejects_non_select. reflexivity.
  - unfold sql. rewrite executeRoute_gate by (simpl; lia). reflexivity.
Qed.

End EntryPoints.

(** ** The generator on the scenarios *)

Section GeneratorScenarios.
Import JS SQLGenerator Scenario.

(** C3, as the claim states it, fails: whitespace and line breaks aside,
    the text rendered for the end-to-end configuration is not the text of
    the specification, whose WHERE clause reads [status = 'active']. *)
Lemma endToEnd_where_is_not_bare_column :
  Spec.words (generateSQL endToEndConfig) <> Spec.words endToEndSpecText.
Proof.
  intros H. vm_compute in H. discriminate H.
Qed.

(** C3, amended: for selectedTables = [public.users], selectedColumns =
    [users.id, users.email] and the one condition on
    [public.users.status], [generateSQL] renders, in this order, a SELECT
    clause listing users.id then users.email, the clause
    [FROM public.users], and a WHERE clause whose content is the condition's
    column as it was given: [public.users.status = 'active']. *)
Theorem endToEnd_renders_qualified_column :
  generateParts endToEndConfig =
    [ "SELECT" ++ LF ++ "  users.id," ++ LF ++ "  users.email";
      "FROM public.users";
      "WHERE public.users.status = 'active'" ]
  /\ generateSQL endToEndConfig = endToEndText
  /\ map clauseKind (generateParts endToEndConfig) =
       [Some KSelect; Some KFrom; Some KWhere]
  /\ Spec.words (generateSQL endToEndConfig) =
       [ "SELECT"; "users.id,"; "users.email"; "FROM"; "public.users";
         "WHERE"; "public.users.status"; "="; "'active'" ].
Proof.
  repeat split; vm_compute; reflexivity.
Qed.

End GeneratorScenarios.

(** ** The value of a condition *)

Section ConditionValues.
Import JS SQLGenerator Scenario.

Lemma renderValue_membership (operator value : string) :
  operator = "IN" \/ operator = "NOT IN" ->
  renderValue operator value =
    if startsWith value "(" then value else "(" ++ value ++ ")".
Proof.
  intros [-> | ->]; destruct (startsWith value "(") eqn:E;
    unfold renderValue; rewrite E; reflexivity.
Qed.

Lemma renderValue_pattern (operator value : string) :
  operator = "LIKE" \/ operator = "ILIKE" ->
  renderValue operator value =
    if startsWith value "'" then value else "'" ++ value ++ "'".
Proof.
  intros [-> | ->]; destruct (startsWith value "'") eqn:E;
    unfold renderValue; rewrite E; reflexivity.
Qed.

Lemma renderValue_nullability (operator value : string) :
  operator = "IS NULL" \/ operator = "IS NOT NULL" ->
  renderValue operator value = "".
Proof. intros [-> | ->]; reflexivity. Qed.

(** Every operator outside the three classes the source tests for, NOT
    LIKE and NOT ILIKE among them, takes the last branch. *)
Lemma renderValue_other (operator value : string) :
  ~ In operator ["IN"; "NOT IN"; "LIKE"; "ILIKE"; "IS NULL"; "IS NOT NULL"] ->
  renderValue operator value =
    if isNaN_Number value && negb (startsWith value "'")
    then "'" ++ value ++ "'" else value.
Proof.
  intros H. unfold renderValue.
  repeat match goal with
         | |- context [String.eqb operator ?k] =>
             destruct (String.eqb_spec operator k) as [E|_];
             [exfalso; apply H; rewrite E; simpl; tauto|]
         end.
  reflexivity.
Qed.

Lemma renderValue_other_witness :
  renderValue "=" "active" = "'active'".
Proof.
  rewrite renderValue_other.
  - reflexivity.
  - simpl. intros H.
    repeat (destruct H as [H|H]; [discriminate H|]). exact H.
Defined.

(** A nullability condition is rendered without a value. *)
Lemma renderCondition_nullability (c : QueryCondition.t) :
  QueryCondition.operator c = "IS NULL"
  \/ QueryCondition.operator c = "IS NOT NULL" ->
  renderCondition c 0 =
    QueryCondition.column c ++ " " ++ QueryCondition.operator c.
Proof.
  intros H. unfold renderCondition.
  rewrite (renderValue_nullability _ _ H). simpl.
  destruct (QueryCondition.logicalOperator c); reflexivity.
Qed.

(** The generator formats a value as the specification words it, except
    for NOT LIKE and NOT ILIKE with an unquoted value that parses as a
    number. *)
Lemma renderValue_refines_spec (operator value : string) :
  renderValue operator value <> Spec.renderValue operator value ->
  (operator = "NOT LIKE" \/ operator = "NOT ILIKE")
  /\ isNaN_Number value = false /\ startsWith value "'" = false.
Proof.
  unfold renderValue, Spec.renderValue, Spec.isMembership, Spec.isPattern,
    Spec.isNullability, arrayIncludes. cbn [existsb].
  rewrite !orb_false_r.
  generalize (startsWith value "(") (startsWith value "'")
    (isNaN_Number value) ("(" ++ value ++ ")") ("'" ++ value ++ "'").
  intros paren quote nan wrapped quoted.
  destruct (String.eqb_spec operator "IN") as [->|_];
    [destruct paren; simpl; congruence|].
  destruct (String.eqb_spec operator "NOT IN") as [->|_];
    [destruct paren; simpl; congruence|].
  destruct (String.eqb_spec operator "LIKE") as [->|_];
    [destruct quote; simpl; congruence|].
  destruct (String.eqb_spec operator "ILIKE") as [->|_];
    [destruct quote; simpl; congruence|].
  destruct (String.eqb_spec operator "NOT LIKE") as [->|_];
    [destruct nan, quote; simpl; intros H; try congruence; auto|].
  destruct (String.eqb_spec operator "NOT ILIKE") as [->|_];
    [destruct nan, quote; simpl; intros H; try congruence; auto|].
  cbn [orb].
  destruct (String.eqb operator "IS NULL" || String.eqb operator "IS NOT NULL");
    [congruence|].
  destruct nan, quote; simpl; congruence.
Qed.

Lemma renderValue_refines_spec_witness :
  renderValue "NOT LIKE" "123" <> Spec.renderValue "NOT LIKE" "123"
  /\ ("NOT LIKE" = "NOT LIKE" \/ "NOT LIKE" = "NOT ILIKE")
  /\ isNaN_Number "123" = false /\ startsWith "123" "'" = false.
Proof.
  assert (H : renderValue "NOT LIKE" "123" <> Spec.renderValue "NOT LIKE" "123")
    by (vm_compute; discriminate).
  split; [exact H|]. exact (renderValue_refines_spec _ _ H).
Defined.

(** C4 on the code: for the pattern operators NOT LIKE and NOT ILIKE a
    value that parses as a number is rendered without quotes, where LIKE
    and ILIKE quote the same value. *)
Theorem negated_pattern_value_is_not_quoted :
  renderValue "NOT LIKE" "123" = "123"
  /\ renderValue "NOT ILIKE" "123" = "123"
  /\ Spec.renderValue "NOT LIKE" "123" = "'123'"
  /\ Spec.renderValue "NOT ILIKE" "123" = "'123'"
  /\ renderValue "LIKE" "123" = "'123'"
  /\ renderValue "ILIKE" "123" = "'123'"
  /\ generateSQL (oneCondition "NOT LIKE" "123") =
       "SELECT *" ++ LF ++ "FROM users" ++ LF ++ "WHERE name NOT LIKE 123"
  /\ generateSQL (oneCondition "LIKE" "123") =
       "SELECT *" ++ LF ++ "FROM users" ++ LF ++ "WHERE name LIKE '123'".
Proof.
  repeat split; vm_compute; reflexivity.
Qed.

End ConditionValues.

(** ** The clauses of the generator, in order *)

Section ClauseStructure.
Import JS SQLGenerator Clauses.

(** The array [parts] is the concatenation of what the seven blocks of
    the source push, in the order of the blocks. *)
Lemma generateParts_blocks (config : QueryConfig.t) :
  generateParts config =
    ([selectClause config] ++ fromClauses config ++ joinClauses config
     ++ whereClauses config ++ groupByClauses config
     ++ orderByClauses config ++ limitClauses config)%list.
Proof.
  unfold generateParts, fromClauses, joinClauses, whereClauses,
    groupByClauses, orderByClauses, orderList, limitClauses.
  rewrite !fold_push.
  assert (Hlim : forall n : Z,
             (negb (n =? 0)%Z && (0 <? n)%Z) = (0 <? n)%Z).
  { intros n. destruct (Z.ltb_spec 0 n) as [Hn|Hn].
    - destruct (Z.eqb_spec n 0); [lia|reflexivity].
    - apply andb_false_r. }
  assert (Hord : forall l : list OrderBy.t,
             (0 <? List.length l)%nat = false ->
             (0 <? List.length (map renderOrder (filter orderFilter l)))%nat
             = false).
  { intros [|x l] H; [reflexivity|discriminate H]. }
  destruct (QueryConfig.selectedTables config) as [|table0 others];
    [|rewrite !fold_push];
    destruct (0 <? List.length (QueryConfig.conditions config))%nat;
    destruct (0 <? List.length (QueryConfig.groupBy config))%nat;
    (destruct (0 <? List.length (QueryConfig.orderBy config))%nat eqn:Eo;
     [|rewrite (Hord _ Eo)]);
    try destruct (0 <? List.length (map renderOrder _))%nat;
    (destruct (QueryConfig.limit config) as [n|];
     [rewrite Hlim; destruct (0 <? n)%Z|]);
    try destruct (_ && (List.length (QueryConfig.joins config) =? 0)%nat);
    unfold push; cbn [app]; rewrite <- ?app_assoc, ?app_nil_r;
    cbn [app]; rewrite <- ?app_assoc, ?app_nil_r; reflexivity.
Qed.

Lemma kind_select (config : QueryConfig.t) :
  clauseKind (selectClause config) = Some KSelect.
Proof.
  unfold selectClause.
  destruct (QueryConfig.distinct config);
    destruct (List.length (QueryConfig.selectedColumns config) =? 0)%nat;
    reflexivity.
Qed.

Lemma kind_from (table : string) : clauseKind ("FROM " ++ table) = Some KFrom.
Proof. reflexivity. Qed.

Lemma kind_crossJoin (table : string) :
  clauseKind (crossJoin table) = Some KJoin.
Proof. reflexivity. Qed.

Lemma kind_renderJoin (j : QueryJoin.t) :
  clauseKind (renderJoin j) = Some KJoin.
Proof.
  unfold renderJoin.
  destruct (QueryJoin.type j);
    (destruct (QueryJoin.additionalConditions j) as [acs|];
     [destruct (0 <? List.length acs)%nat|]); reflexivity.
Qed.

Lemma map_const_repeat {A B : Type} (f : A -> B) (b : B) (l : list A) :
  (forall x, f x = b) -> map f l = repeat b (List.length l).
Proof.
  intros H; induction l as [|x l IH]; simpl; [reflexivity|].
  now rewrite H, IH.
Qed.

Lemma map_Some_repeat {A : Type} (a : A) (n : nat) :
  map Some (repeat a n) = repeat (Some a) n.
Proof. induction n; simpl; congruence. Qed.

Lemma nonEmpty_length {A : Type} (l : list A) :
  (0 <? List.length l)%nat = nonEmpty l.
Proof. destruct l; reflexivity. Qed.

Lemma kinds_fromClauses (config : QueryConfig.t) :
  map clauseKind (fromClauses config) =
    map Some (kindIf (nonEmpty (QueryConfig.selectedTables config)) KFrom
              ++ repeat KJoin (implicitJoins config))%list.
Proof.
  unfold fromClauses, implicitJoins.
  destruct (QueryConfig.selectedTables config) as [|table0 others] eqn:Et.
  - destruct (QueryConfig.joins config); reflexivity.
  - cbn [nonEmpty kindIf app map]. rewrite kind_from. f_equal.
    destruct (QueryConfig.joins config) as [|j js]; cbn [List.length].
    + replace (S (List.length others) - 1) with (List.length others) by lia.
      destruct others as [|t1 others']; [reflexivity|].
      change ((1 <? S (List.length (t1 :: others')))%nat && (0 =? 0)%nat)
        with true.
      cbv iota. rewrite map_map, map_Some_repeat.
      apply map_const_repeat. intros; apply kind_crossJoin.
    + rewrite andb_false_r. reflexivity.
Qed.

Lemma kinds_joinClauses (config : QueryConfig.t) :
  map clauseKind (joinClauses config) =
    map Some (repeat KJoin (List.length (QueryConfig.joins config))).
Proof.
  unfold joinClauses. rewrite map_map, map_Some_repeat.
  apply map_const_repeat. intros; apply kind_renderJoin.
Qed.

Lemma kinds_whereClauses (config : QueryConfig.t) :
  map clauseKind (whereClauses config) =
    map Some (kindIf (nonEmpty (QueryConfig.conditions config)) KWhere).
Proof.
  unfold whereClauses. rewrite nonEmpty_length.
  destruct (nonEmpty _); reflexivity.
Qed.

Lemma kinds_groupByClauses (config : QueryConfig.t) :
  map clauseKind (groupByClauses config) =
    map Some (kindIf (nonEmpty (QueryConfig.groupBy config)) KGroupBy).
Proof.
  unfold groupByClauses. rewrite nonEmpty_length.
  destruct (nonEmpty _); reflexivity.
Qed.

Lemma kinds_orderByClauses (config : QueryConfig.t) :
  map clauseKind (orderByClauses config) =
    map Some (kindIf (nonEmpty (filter orderFilter (QueryConfig.orderBy config)))
                     KOrderBy).
Proof.
  unfold orderByClauses, orderList. rewrite nonEmpty_length.
  destruct (filter orderFilter _); reflexivity.
Qed.

Lemma kinds_limitClauses (config : QueryConfig.t) :
  map clauseKind (limitClauses config) =
    map Some (kindIf (match QueryConfig.limit config with
                      | Some n => (0 <? n)%Z
                      | None => false
                      end) KLimit).
Proof.
  unfold limitClauses.
  destruct (QueryConfig.limit config) as [n|]; [|reflexivity].
  destruct (0 <? n)%Z; reflexivity.
Qed.

Lemma kinds_generateParts (config : QueryConfig.t) :
  map clauseKind (generateParts config) = map Some (expectedKinds config).
Proof.
  rewrite generateParts_blocks. unfold expectedKinds.
  rewrite !map_app.
  rewrite kinds_fromClauses, kinds_joinClauses, kinds_whereClauses,
    kinds_groupByClauses, kinds_orderByClauses, kinds_limitClauses.
  cbn [map]. rewrite kind_select, !map_app, <- !app_assoc. reflexivity.
Qed.

(** *** Sortedness of a run of blocks *)












End ClauseStructure.

(** ** The Cartesian fallback *)

Section CartesianFallback.
Import JS SQLGenerator Clauses Scenario.

Lemma isCrossJoin_crossJoin (tables : list string) :
  filter isCrossJoin (map crossJoin tables) = map crossJoin tables.
Proof.
  induction tables as [|t ts IH]; simpl; [reflexivity|]. now rewrite IH.
Qed.

Lemma selectClause_not_crossJoin (config : QueryConfig.t) :
  isCrossJoin (selectClause config) = false.
Proof.
  unfold selectClause.
  destruct (QueryConfig.distinct config);
    destruct (List.length (QueryConfig.selectedColumns config) =? 0)%nat;
    reflexivity.
Qed.

Lemma tailClauses_not_crossJoin (config : QueryConfig.t) :
  Forall (fun part => isCrossJoin part = false) (tailClauses config).
Proof.
  unfold tailClauses, whereClauses, groupByClauses, orderByClauses,
    limitClauses.
  apply Forall_app; split; [|apply Forall_app; split;
                              [|apply Forall_app; split]].
  - destruct (0 <? _)%nat; repeat constructor.
  - destruct (0 <? _)%nat; repeat constructor.
  - destruct (0 <? _)%nat; repeat constructor.
  - destruct (QueryConfig.limit config) as [n|]; [|constructor].
    destruct (0 <? n)%Z; repeat constructor.
Qed.

Lemma filter_none {A : Type} (f : A -> bool) (l : list A) :
  Forall (fun x => f x = false) l -> filter f l = [].
Proof.
  induction 1 as [|x l Hx _ IH]; simpl; [reflexivity|]. now rewrite Hx.
Qed.

(** C5: with more than one selected table and no join defined, the text
    [generateSQL] returns is, line by line, the SELECT clause, [FROM] the
    first table, one [CROSS JOIN <table>] for each further table in selection
    order, and then the WHERE, GROUP BY, ORDER BY and LIMIT clauses, none of
    which is a CROSS JOIN; so the CROSS JOIN clauses of the text are exactly
    those of the further tables.  With exactly two tables the text has
    exactly one CROSS JOIN clause, the third clause of the text, and it
    names the second table. *)
Theorem cross_join_for_every_further_table (config : QueryConfig.t) :
  1 < List.length (QueryConfig.selectedTables config) ->
  QueryConfig.joins config = [] ->
  generateSQL config
  = join LF
      (selectClause config
       :: ("FROM " ++ hd "" (QueryConfig.selectedTables config))
       :: (map (fun table => ("CROSS JOIN " ++ table)%string)
               (tl (QueryConfig.selectedTables config))
           ++ tailClauses config)%list)
  /\ Forall (fun part => isCrossJoin part = false)
            (selectClause config
             :: ("FROM " ++ hd "" (QueryConfig.selectedTables config))
             :: tailClauses config)
  /\ filter isCrossJoin
       (selectClause config
        :: ("FROM " ++ hd "" (QueryConfig.selectedTables config))
        :: (map (fun table => ("CROSS JOIN " ++ table)%string)
                (tl (QueryConfig.selectedTables config))
            ++ tailClauses config)%list)
     = map (fun table => "CROSS JOIN " ++ table)
           (tl (QueryConfig.selectedTables config))
  /\ (forall a b, QueryConfig.selectedTables config = [a; b] ->
                  generateSQL config
                  = join LF
                      (selectClause config :: ("FROM " ++ a)
                       :: ("CROSS JOIN " ++ b) :: tailClauses config)).
Proof.
  intros Hlen Hjoins.
  assert (Hparts :
            generateParts config =
              selectClause config
              :: ("FROM " ++ hd "" (QueryConfig.selectedTables config))
              :: (map crossJoin (tl (QueryConfig.selectedTables config))
                  ++ tailClauses config)%list).
  { rewrite generateParts_blocks. unfold fromClauses, joinClauses, tailClauses.
    rewrite Hjoins.
    destruct (QueryConfig.selectedTables config) as [|t0 [|t1 ts]];
      simpl in Hlen; try lia.
    reflexivity. }
  assert (Hfilter :
            filter isCrossJoin (generateParts config) =
              map crossJoin (tl (QueryConfig.selectedTables config))).
  { rewrite Hparts. cbn [filter].
    rewrite selectClause_not_crossJoin.
    change (isCrossJoin ("FROM " ++ hd "" (QueryConfig.selectedTables config)))
      with false.
    cbv iota. rewrite filter_app, isCrossJoin_crossJoin.
    rewrite (filter_none _ _ (tailClauses_not_crossJoin config)).
    apply app_nil_r. }
  split; [|split; [|split]].
  - unfold generateSQL. now rewrite Hparts.
  - constructor; [apply selectClause_not_crossJoin|].
    constructor; [reflexivity|]. apply tailClauses_not_crossJoin.
  - rewrite Hparts in Hfilter. exact Hfilter.
  - intros a b Hab. unfold generateSQL. rewrite Hparts, Hab. reflexivity.
Qed.

Lemma cross_join_for_every_further_table_witness :
  1 < List.length (QueryConfig.selectedTables twoTablesConfig)
  /\ QueryConfig.joins twoTablesConfig = []
  /\ generateSQL twoTablesConfig
     = "SELECT *" ++ LF ++ "FROM orders" ++ LF ++ "CROSS JOIN users".
Proof.
  assert (Hlen : 1 < List.length (QueryConfig.selectedTables twoTablesConfig))
    by (simpl; lia).
  assert (Hjoins : QueryConfig.joins twoTablesConfig = []) by reflexivity.
  split; [exact Hlen|]. split; [exact Hjoins|].
  exact (proj2 (proj2 (proj2 (cross_join_for_every_further_table
                                twoTablesConfig Hlen Hjoins)))
               "orders" "users" eq_refl).
Defined.

End CartesianFallback.

(** ** No table selected *)

Section NoTableSelected.
Import JS SQLGenerator Clauses Rules Scenario.

Lemma allChars_append (p : ascii -> bool) (a b : string) :
  allChars p (a ++ b) = allChars p a && allChars p b.
Proof.
  induction a as [|c a IH]; simpl; [reflexivity|].
  now rewrite IH, andb_assoc.
Qed.

Lemma allChars_trimStart (p : ascii -> bool) (s : string) :
  allChars p s = true -> allChars p (trimStart s) = true.
Proof.
  induction s as [|c s IH]; simpl; [reflexivity|].
  intros H. destruct (isWhiteSpace c); [|exact H].
  apply andb_true_iff in H as [_ H]. now apply IH.
Qed.

Lemma allChars_trimEnd (p : ascii -> bool) (s : string) :
  allChars p s = true -> allChars p (trimEnd s) = true.
Proof.
  induction s as [|c s IH]; simpl; [reflexivity|].
  intros H. apply andb_true_iff in H as [Hc Hs].
  specialize (IH Hs).
  destruct (trimEnd s) as [|d t].
  - destruct (isWhiteSpace c); simpl; [reflexivity|].
    now rewrite Hc.
  - change (allChars p (String c (String d t)))
      with (p c && allChars p (String d t)).
    now rewrite Hc, IH.
Qed.

Lemma toLowerChar_notF (c : ascii) :
  notLetterF c = true -> notLowerF (toLowerChar c) = true.
Proof.
  destruct c as [[] [] [] [] [] [] [] []]; vm_compute;
    intros H; first [reflexivity | discriminate H].
Qed.

Lemma allChars_toLowerCase (s : string) :
  allChars notLetterF s = true -> allChars notLowerF (toLowerCase s) = true.
Proof.
  induction s as [|c s IH]; simpl; [reflexivity|].
  intros H. apply andb_true_iff in H as [Hc Hs].
  now rewrite (toLowerChar_notF _ Hc), IH.
Qed.

Lemma includes_from_has_f (s : string) :
  allChars notLowerF s = true -> includes s "from" = false.
Proof.
  intros H. destruct (includes s "from") eqn:E; [|reflexivity].
  apply includes_spec in E as (a & b & ->).
  rewrite allChars_append in H. apply andb_true_iff in H as [_ H].
  discriminate H.
Qed.

(** A text without the letter F, in either case, fails the FROM rule. *)
Lemma failsFrom_without_f (text : string) :
  allChars notLetterF text = true -> failsFrom text = true.
Proof.
  intros H. unfold failsFrom, normalize.
  rewrite includes_from_has_f; [reflexivity|].
  apply allChars_toLowerCase. unfold trim.
  now apply allChars_trimEnd, allChars_trimStart.
Qed.

Lemma allChars_string_of_uint (d : Decimal.uint) :
  allChars notLetterF (NilEmpty.string_of_uint d) = true.
Proof. induction d; simpl; auto. Qed.

Lemma allChars_numberToString (n : Z) :
  allChars notLetterF (numberToString n) = true.
Proof.
  unfold numberToString, NilZero.string_of_int, NilZero.string_of_uint.
  destruct (Z.to_int n) as [d|d];
    destruct d; try reflexivity;
    try (change (allChars notLetterF (String "-" ?s))
          with (allChars notLetterF s));
    apply allChars_string_of_uint.
Qed.

Lemma in_kindIf (k k' : ClauseKind) (present : bool) :
  In k (kindIf present k') -> k = k'.
Proof. destruct present; simpl; intuition congruence. Qed.

Lemma from_not_expected (config : QueryConfig.t) :
  QueryConfig.selectedTables config = [] ->
  ~ In KFrom (expectedKinds config).
Proof.
  intros Ht. unfold expectedKinds. rewrite Ht.
  cbn [nonEmpty kindIf app In]. rewrite !in_app_iff.
  intros [H|[H|[H|[H|[H|[H|H]]]]]];
    try discriminate H;
    try (apply repeat_spec in H; discriminate H);
    try (apply in_kindIf in H; discriminate H).
Qed.

Lemma error_invalid (sql m : string) :
  In m (ValidationResult.errors (validateSQL sql)) ->
  ValidationResult.isValid (validateSQL sql) = false.
Proof.
  rewrite validateSQL_isValid.
  destruct (ValidationResult.errors (validateSQL sql)); simpl;
    [tauto|reflexivity].
Qed.

Lemma in_errors_from (sql : string) :
  In MSG_FROM (ValidationResult.errors (validateSQL sql))
  <-> failsFrom sql = true.
Proof.
  rewrite in_errors. unfold MSG_SELECT, MSG_FROM, MSG_PARENS, MSG_KEYWORDS.
  intuition discriminate.
Qed.

(** With nothing but the flag and the limit set, the text is free of the
    letter F. *)
Lemma bare_text_without_f (config : QueryConfig.t) :
  QueryConfig.selectedTables config = [] ->
  QueryConfig.selectedColumns config = [] ->
  QueryConfig.joins config = [] ->
  QueryConfig.conditions config = [] ->
  QueryConfig.groupBy config = [] ->
  QueryConfig.orderBy config = [] ->
  allChars notLetterF (generateSQL config) = true.
Proof.
  intros Ht Hc Hj Hw Hg Ho.
  unfold generateSQL. rewrite generateParts_blocks.
  unfold selectClause, fromClauses, joinClauses, whereClauses,
    groupByClauses, orderByClauses, orderList, limitClauses.
  rewrite Ht, Hc, Hj, Hw, Hg, Ho.
  destruct (QueryConfig.distinct config);
    (destruct (QueryConfig.limit config) as [n|];
     [destruct (0 <? n)%Z|]);
    try reflexivity;
    cbn [List.length Nat.eqb Nat.ltb Nat.leb map filter app join
           String.concat];
    rewrite !allChars_append, allChars_numberToString; reflexivity.
Qed.

(** C10, as the claim states it, fails: no table is selected in
    [extractConfig], and the FROM rule of [validateSQL] lets the
    generator's output through, since the text of EXTRACT holds [FROM]. *)
Lemma extract_output_passes_from_rule :
  QueryConfig.selectedTables extractConfig = []
  /\ generateSQL extractConfig
     = "SELECT" ++ LF ++ "  EXTRACT(year FROM orders.ts)"
  /\ ~ In MSG_FROM
         (ValidationResult.errors (validateSQL (generateSQL extractConfig)))
  /\ ValidationResult.isValid (validateSQL (generateSQL extractConfig))
     = true.
Proof.
  repeat split.
  vm_compute. intros H. exact H.
Qed.

(** C10, amended: with no table selected [generateSQL] still renders its
    clauses (the SELECT clause, then the joins, WHERE, GROUP BY, ORDER BY
    and LIMIT as configured), none of which is a FROM clause.  The FROM
    rule of [validateSQL] rejects that output exactly when the lower-cased
    text holds [from] nowhere: it does whenever the text is free of the
    letter F, as it is when nothing but the distinct flag and the limit is
    configured. *)
Theorem no_table_no_from_clause (config : QueryConfig.t) :
  QueryConfig.selectedTables config = [] ->
  generateParts config =
    selectClause config :: (joinClauses config ++ tailClauses config)%list
  /\ (forall part, In part (generateParts config) ->
                   clauseKind part <> Some KFrom)
  /\ (In MSG_FROM
         (ValidationResult.errors (validateSQL (generateSQL config)))
      <-> includes (toLowerCase (trim (generateSQL config))) "from" = false)
  /\ (allChars notLetterF (generateSQL config) = true ->
      In MSG_FROM (ValidationResult.errors (validateSQL (generateSQL config)))
      /\ ValidationResult.isValid (validateSQL (generateSQL config)) = false)
  /\ (QueryConfig.selectedColumns config = [] ->
      QueryConfig.joins config = [] ->
      QueryConfig.conditions config = [] ->
      QueryConfig.groupBy config = [] ->
      QueryConfig.orderBy config = [] ->
      In MSG_FROM (ValidationResult.errors (validateSQL (generateSQL config)))
      /\ ValidationResult.isValid (validateSQL (generateSQL config)) = false).
Proof.
  intros Ht.
  assert (Hf : allChars notLetterF (generateSQL config) = true ->
               In MSG_FROM
                  (ValidationResult.errors (validateSQL (generateSQL config)))
               /\ ValidationResult.isValid (validateSQL (generateSQL config))
                  = false).
  { intros H. apply failsFrom_without_f, in_errors_from in H.
    split; [exact H|]. now apply error_invalid with MSG_FROM. }
  split.
  { rewrite generateParts_blocks. unfold fromClauses, tailClauses.
    now rewrite Ht. }
  split.
  { intros part Hin Hk.
    apply (from_not_expected config Ht).
    apply (in_map clauseKind) in Hin.
    rewrite kinds_generateParts, Hk in Hin.
    apply in_map_iff in Hin as (k & Ek & Hin).
    now injection Ek as ->. }
  split.
  { rewrite in_errors_from. unfold failsFrom, normalize.
    apply negb_true_iff. }
  split; [exact Hf|].
  intros Hc Hj Hw Hg Ho. apply Hf. now apply bare_text_without_f.
Qed.

Lemma no_table_no_from_clause_witness :
  QueryConfig.selectedTables emptyConfig = []
  /\ In MSG_FROM
        (ValidationResult.errors (validateSQL (generateSQL emptyConfig)))
  /\ ValidationResult.isValid (validateSQL (generateSQL emptyConfig)) = false.
Proof.
  split; [reflexivity|].
  apply (proj2 (proj2 (proj2 (proj2
           (no_table_no_from_clause emptyConfig eq_refl))))); reflexivity.
Defined.

End NoTableSelected.

(** ** Determinism of the generator *)

Section Determinism.
Import JS SQLGenerator Scenario.

Lemma mapi_from_map {A B C : Type} (f : B -> nat -> C) (g : A -> B)
    (l : list A) (i : nat) :
  mapi_from i f (map g l) = mapi_from i (fun x n => f (g x) n) l.
Proof.
  revert i; induction l as [|x l IH]; intros i; simpl; [reflexivity|].
  now rewrite IH.
Qed.

Lemma renderJoin_forget (j : QueryJoin.t) :
  renderJoin (Forget.join j) = renderJoin j.
Proof.
  unfold renderJoin, Forget.join. cbn [QueryJoin.type QueryJoin.rightTable
    QueryJoin.leftTable QueryJoin.leftColumn QueryJoin.rightColumn
    QueryJoin.additionalConditions].
  destruct (QueryJoin.additionalConditions j) as [acs|]; [|reflexivity].
  cbn [option_map]. rewrite length_map, map_map. reflexivity.
Qed.

Lemma generateParts_forget (config : QueryConfig.t) :
  generateParts (Forget.forgetIds config) = generateParts config.
Proof.
  rewrite !generateParts_blocks.
  unfold selectClause, Clauses.fromClauses, Clauses.joinClauses,
    Clauses.whereClauses, Clauses.groupByClauses, Clauses.orderByClauses,
    Clauses.orderList, Clauses.limitClauses, Forget.forgetIds.
  cbn [QueryConfig.selectedTables QueryConfig.selectedColumns
       QueryConfig.conditions QueryConfig.joins QueryConfig.groupBy
       QueryConfig.orderBy QueryConfig.limit QueryConfig.distinct].
  rewrite !length_map, !map_map.
  unfold mapi. rewrite mapi_from_map.
  rewrite (map_ext _ _ renderJoin_forget).
  reflexivity.
Qed.

Lemma generateSQL_forget (c1 c2 : QueryConfig.t) :
  Forget.forgetIds c1 = Forget.forgetIds c2 ->
  generateSQL c1 = generateSQL c2.
Proof.
  intros H. unfold generateSQL.
  rewrite <- (generateParts_forget c1), <- (generateParts_forget c2).
  now rewrite H.
Qed.

End Determinism.

(** ** Calls of the generator in a world that can change *)

Section CallsInAWorld.
Import JS SQLGenerator Scenario Runtime.
Local Open Scope list_scope.

Lemma updateAt_last {A : Type} (f : A -> A) (before : list A) (x : A) :
  updateAt (List.length before) f (before ++ [x]) = (before ++ [f x])%list.
Proof.
  induction before as [|y before IH]; [reflexivity|].
  cbn [List.length app updateAt]. now rewrite IH.
Qed.

Lemma arrayPush_last (c : QueryConfig.t) (before : list (list string))
    (parts : list string) (t : Z) (x : string) :
  arrayPush (List.length before) x (mkWorld c (before ++ [parts]) t)
  = (tt, mkWorld c (before ++ [parts ++ [x]]) t).
Proof.
  unfold arrayPush. cbn [config arrays now]. now rewrite updateAt_last.
Qed.

Lemma forEach_push {A : Type} (f : A -> string) (l : list A)
    (c : QueryConfig.t) (before : list (list string)) (parts : list string)
    (t : Z) :
  forEach l (fun x => arrayPush (List.length before) (f x))
          (mkWorld c (before ++ [parts]) t)
  = (tt, mkWorld c (before ++ [parts ++ map f l]) t).
Proof.
  revert parts; induction l as [|x l IH]; intros parts.
  - cbn [forEach map]. now rewrite app_nil_r.
  - cbn [forEach map]. unfold bind. rewrite arrayPush_last, IH.
    now rewrite <- app_assoc.
Qed.

Lemma whenM_push (b : bool) (x : string) (c : QueryConfig.t)
    (before : list (list string)) (parts : list string) (t : Z) :
  whenM b (arrayPush (List.length before) x) (mkWorld c (before ++ [parts]) t)
  = (tt, mkWorld c (before ++ [parts ++ if b then [x] else []]) t).
Proof.
  destruct b; cbn [whenM]; [apply arrayPush_last|].
  unfold ret. now rewrite app_nil_r.
Qed.

Lemma selectBlock_pushes (c : QueryConfig.t) (before : list (list string))
    (parts : list string) (t : Z) :
  selectBlock (List.length before) (mkWorld c (before ++ [parts]) t)
  = (tt, mkWorld c (before ++ [parts ++ [selectClause c]]) t).
Proof.
  unfold selectBlock, bind, field. cbn [config]. apply arrayPush_last.
Qed.

Lemma fromBlock_pushes (c : QueryConfig.t) (before : list (list string))
    (parts : list string) (t : Z) :
  fromBlock (List.length before) (mkWorld c (before ++ [parts]) t)
  = (tt, mkWorld c (before ++ [parts ++ Clauses.fromClauses c]) t).
Proof.
  unfold fromBlock, Clauses.fromClauses, bind, field. cbn [config].
  destruct (QueryConfig.selectedTables c) as [|table0 others].
  - unfold ret. now rewrite app_nil_r.
  - rewrite arrayPush_last. cbn [config].
    destruct ((1 <? List.length (table0 :: others))%nat
              && (List.length (QueryConfig.joins c) =? 0)%nat);
      cbn [whenM].
    + rewrite forEach_push. now rewrite <- app_assoc.
    + reflexivity.
Qed.

Lemma joinBlock_pushes (c : QueryConfig.t) (before : list (list string))
    (parts : list string) (t : Z) :
  joinBlock (List.length before) (mkWorld c (before ++ [parts]) t)
  = (tt, mkWorld c (before ++ [parts ++ Clauses.joinClauses c]) t).
Proof.
  unfold joinBlock, Clauses.joinClauses, bind, field. cbn [config].
  apply forEach_push.
Qed.

Lemma whereBlock_pushes (c : QueryConfig.t) (before : list (list string))
    (parts : list string) (t : Z) :
  whereBlock (List.length before) (mkWorld c (before ++ [parts]) t)
  = (tt, mkWorld c (before ++ [parts ++ Clauses.whereClauses c]) t).
Proof.
  unfold whereBlock, Clauses.whereClauses, bind, field. cbn [config].
  rewrite whenM_push. reflexivity.
Qed.

Lemma groupByBlock_pushes (c : QueryConfig.t) (before : list (list string))
    (parts : list string) (t : Z) :
  groupByBlock (List.length before) (mkWorld c (before ++ [parts]) t)
  = (tt, mkWorld c (before ++ [parts ++ Clauses.groupByClauses c]) t).
Proof.
  unfold groupByBlock, Clauses.groupByClauses, bind, field. cbn [config].
  rewrite whenM_push. reflexivity.
Qed.

Lemma orderByBlock_pushes (c : QueryConfig.t) (before : list (list string))
    (parts : list string) (t : Z) :
  orderByBlock (List.length before) (mkWorld c (before ++ [parts]) t)
  = (tt, mkWorld c (before ++ [parts ++ Clauses.orderByClauses c]) t).
Proof.
  unfold orderByBlock, Clauses.orderByClauses, Clauses.orderList, bind, field.
  cbn [config].
  destruct (QueryConfig.orderBy c) as [|order orders].
  - cbn [List.length Nat.ltb Nat.leb whenM filter map]. unfold ret.
    now rewrite app_nil_r.
  - cbn [List.length Nat.ltb Nat.leb whenM]. rewrite whenM_push. reflexivity.
Qed.

Lemma limitBlock_pushes (c : QueryConfig.t) (before : list (list string))
    (parts : list string) (t : Z) :
  limitBlock (List.length before) (mkWorld c (before ++ [parts]) t)
  = (tt, mkWorld c (before ++ [parts ++ Clauses.limitClauses c]) t).
Proof.
  unfold limitBlock, Clauses.limitClauses, bind, field. cbn [config].
  destruct (QueryConfig.limit c) as [n|].
  - rewrite whenM_push. f_equal. f_equal. f_equal. f_equal.
    destruct (Z.ltb_spec 0 n) as [Hn|Hn].
    + destruct (Z.eqb_spec n 0); [lia|reflexivity].
    + now rewrite andb_false_r.
  - unfold ret. now rewrite app_nil_r.
Qed.

(** The call returns the text of the functional model and leaves behind
    the array [parts] it allocated, and nothing else. *)
Lemma callGenerateSQL_run (w : World) :
  callGenerateSQL w
  = (generateSQL (config w),
     mkWorld (config w) (arrays w ++ [generateParts (config w)]) (now w)).
Proof.
  destruct w as [c before t]. cbn [config arrays now].
  unfold callGenerateSQL. unfold bind at 1. unfold newArray.
  cbn [config arrays now].
  unfold bind at 1. rewrite selectBlock_pushes.
  unfold bind at 1. rewrite fromBlock_pushes.
  unfold bind at 1. rewrite joinBlock_pushes.
  unfold bind at 1. rewrite whereBlock_pushes.
  unfold bind at 1. rewrite groupByBlock_pushes.
  unfold bind at 1. rewrite orderByBlock_pushes.
  unfold bind at 1. rewrite limitBlock_pushes.
  unfold arrayJoin. cbn [arrays].
  rewrite app_nth2, Nat.sub_diag by lia. cbn [nth].
  unfold generateSQL. rewrite generateParts_blocks.
  cbn [app]. rewrite <- !app_assoc. reflexivity.
Qed.

(** A handler that reads the clock is told apart by the same worlds: the
    join "Add Join" appends differs with the time of the click. *)
Lemma callAddJoin_reads_the_clock (c : QueryConfig.t)
    (before : list (list string)) :
  config (snd (callAddJoin (mkWorld c before 1)))
  <> config (snd (callAddJoin (mkWorld c before 2))).
Proof.
  unfold callAddJoin, bind, dateNow, field, setConfig.
  cbn [config arrays now snd]. unfold Configuration.addJoin, Update.joins.
  intros H. injection H as H. apply app_inv_head in H. discriminate H.
Qed.

(** C9: [generateSQL] is deterministic.  A call reads the configuration it
    is given and nothing else of the world it runs in: not the clock, and
    none of the arrays allocated before.  It writes only the array [parts]
    it allocates itself, and leaves the configuration, the clock and every
    earlier array as they were.  So two calls on equal configuration values
    return identical text in whatever worlds they are made, and so do two
    calls in a row; the text is that of the functional model
    [SQLGenerator.generateSQL]. *)
Theorem generateSQL_deterministic (w1 w2 : World) :
  config w1 = config w2 ->
  fst (callGenerateSQL w1) = fst (callGenerateSQL w2)
  /\ fst (callGenerateSQL (snd (callGenerateSQL w1)))
     = fst (callGenerateSQL w1)
  /\ config (snd (callGenerateSQL w1)) = config w1
  /\ now (snd (callGenerateSQL w1)) = now w1
  /\ firstn (List.length (arrays w1)) (arrays (snd (callGenerateSQL w1)))
     = arrays w1
  /\ fst (callGenerateSQL w1) = generateSQL (config w1).
Proof.
  intros H. rewrite !callGenerateSQL_run. cbn [fst snd config now arrays].
  rewrite H. repeat split.
  rewrite firstn_app, Nat.sub_diag, firstn_all. cbn [firstn].
  apply app_nil_r.
Qed.

Lemma generateSQL_deterministic_witness :
  config (mkWorld endToEndConfig [] 0)
  = config (mkWorld endToEndConfig [["SELECT *"]] 1750000000000)
  /\ fst (callGenerateSQL (mkWorld endToEndConfig [] 0)) = endToEndText
  /\ fst (callGenerateSQL
            (mkWorld endToEndConfig [["SELECT *"]] 1750000000000))
     = endToEndText.
Proof.
  split; [reflexivity|].
  rewrite <- (proj1 (generateSQL_deterministic
                       (mkWorld endToEndConfig [] 0)
                       (mkWorld endToEndConfig [["SELECT *"]] 1750000000000)
                       eq_refl)).
  split; reflexivity.
Defined.

End CallsInAWorld.

(** ** Adding tables and columns *)

Section AddHandlers.
Import JS QueryBuilder Scenario.

Lemma arrayIncludes_In (arr : list string) (x : string) :
  arrayIncludes arr x = true <-> In x arr.
Proof.
  unfold arrayIncludes. rewrite existsb_exists. split.
  - intros (y & Hy & E). apply String.eqb_eq in E. now subst y.
  - intros H. exists x. split; [exact H|apply String.eqb_refl].
Qed.

Lemma arrayIncludes_not_In (arr : list string) (x : string) :
  arrayIncludes arr x = false <-> ~ In x arr.
Proof.
  rewrite <- arrayIncludes_In. destruct (arrayIncludes arr x); split;
    intros H; congruence.
Qed.

(** *** The Set behind [handleTablesAdd] *)

Lemma setAdd_present (set : list string) (x : string) :
  In x set -> setAdd set x = set.
Proof.
  intros H. unfold setAdd. apply arrayIncludes_In in H. now rewrite H.
Qed.

Lemma setAdd_absent (set : list string) (x : string) :
  ~ In x set -> setAdd set x = (set ++ [x])%list.
Proof.
  intros H. unfold setAdd. apply arrayIncludes_not_In in H. now rewrite H.
Qed.

Lemma setAdd_In (set : list string) (x y : string) :
  In y (setAdd set x) <-> In y set \/ y = x.
Proof.
  unfold setAdd. destruct (arrayIncludes set x) eqn:E.
  - apply arrayIncludes_In in E. split; [tauto|].
    intros [H| ->]; assumption.
  - unfold push. rewrite in_app_iff. simpl. intuition.
Qed.

Lemma setAdd_NoDup (set : list string) (x : string) :
  NoDup set -> NoDup (setAdd set x).
Proof.
  intros H. unfold setAdd. destruct (arrayIncludes set x) eqn:E; [exact H|].
  apply arrayIncludes_not_In in E. unfold push.
  apply NoDup_app; repeat split; try assumption.
  - repeat constructor. simpl. tauto.
  - intros y Hy [<-|[]]. contradiction.
Qed.

Lemma fold_setAdd_In (l set : list string) (y : string) :
  In y (fold_left setAdd l set) <-> In y set \/ In y l.
Proof.
  revert set; induction l as [|x l IH]; intros set; simpl.
  - tauto.
  - rewrite IH, setAdd_In. intuition.
Qed.

Lemma fold_setAdd_NoDup (l set : list string) :
  NoDup set -> NoDup (fold_left setAdd l set).
Proof.
  revert set; induction l as [|x l IH]; intros set H; simpl; [exact H|].
  now apply IH, setAdd_NoDup.
Qed.

Lemma fold_setAdd_present (l set : list string) :
  (forall x, In x l -> In x set) -> fold_left setAdd l set = set.
Proof.
  induction l as [|x l IH]; intros H; simpl; [reflexivity|].
  rewrite setAdd_present by (apply H; now left).
  apply IH. intros y Hy. apply H. now right.
Qed.

Lemma fold_setAdd_fresh (l set : list string) :
  NoDup (set ++ l) -> fold_left setAdd l set = (set ++ l)%list.
Proof.
  revert set; induction l as [|x l IH]; intros set H; simpl.
  - now rewrite app_nil_r.
  - assert (Hx : ~ In x set).
    { intros Hin. apply NoDup_remove_2 in H. apply H.
      apply in_app_iff. now left. }
    rewrite (setAdd_absent _ _ Hx).
    rewrite IH; rewrite <- app_assoc; [reflexivity|exact H].
Qed.

Lemma uniqueInOrder_NoDup (l : list string) :
  NoDup l -> uniqueInOrder l = l.
Proof. intros H. unfold uniqueInOrder. now rewrite fold_setAdd_fresh. Qed.

Lemma uniqueInOrder_present (tables names : list string) :
  NoDup tables -> (forall n, In n names -> In n tables) ->
  uniqueInOrder (tables ++ names) = tables.
Proof.
  intros Hnd Hin. unfold uniqueInOrder.
  rewrite fold_left_app.
  change (fold_left setAdd tables []) with (uniqueInOrder tables).
  rewrite (uniqueInOrder_NoDup _ Hnd).
  now apply fold_setAdd_present.
Qed.

(** *** The two loops of [handleColumnsAdd] *)

Lemma addTableOf_In (tables : list string) (col : ColumnPick.t) (y : string) :
  In y (addTableOf tables col) <-> In y tables \/ y = ColumnPick.tableName col.
Proof.
  unfold addTableOf.
  destruct (arrayIncludes tables (ColumnPick.tableName col)) eqn:E; simpl.
  - apply arrayIncludes_In in E. split; [tauto|].
    intros [H| ->]; assumption.
  - unfold push. rewrite in_app_iff. simpl. intuition.
Qed.

Lemma fold_addTableOf_In (cols : list ColumnPick.t) (tables : list string)
    (y : string) :
  In y (fold_left addTableOf cols tables)
  <-> In y tables \/ exists col, In col cols /\ y = ColumnPick.tableName col.
Proof.
  revert tables; induction cols as [|c cols IH]; intros tables; simpl.
  - split; [tauto|]. intros [H|(col & [] & _)]. exact H.
  - rewrite IH, addTableOf_In. split.
    + intros [[H|H]|(col & Hc & E)].
      * now left.
      * right. exists c. split; [now left|exact H].
      * right. exists col. split; [now right|exact E].
    + intros [H|(col & [<-|Hc] & E)].
      * left. now left.
      * left. now right.
      * right. now exists col.
Qed.

Lemma fold_addTableOf_present (cols : list ColumnPick.t)
    (tables : list string) :
  (forall col, In col cols -> In (ColumnPick.tableName col) tables) ->
  fold_left addTableOf cols tables = tables.
Proof.
  induction cols as [|c cols IH]; intros H; simpl; [reflexivity|].
  assert (E : addTableOf tables c = tables).
  { unfold addTableOf.
    assert (Hc : In (ColumnPick.tableName c) tables) by (apply H; now left).
    apply arrayIncludes_In in Hc. now rewrite Hc. }
  rewrite E. apply IH. intros col Hcol. apply H. now right.
Qed.

Lemma find_id_hasId (columns : list SelectedColumn.t) (id : string) :
  hasId columns id <->
  find (fun c => String.eqb (SelectedColumn.id c) id) columns <> None.
Proof.
  split.
  - intros (c & Hc & E) Hnone.
    apply (find_none _ _ Hnone) in Hc. simpl in Hc.
    rewrite E, String.eqb_refl in Hc. discriminate Hc.
  - destruct (find _ columns) as [c|] eqn:E; [intros _|congruence].
    apply find_some in E as [Hc E]. apply String.eqb_eq in E.
    now exists c.
Qed.

Lemma addColumnOf_present (columns : list SelectedColumn.t)
    (col : ColumnPick.t) :
  hasId columns (derivedId col) -> addColumnOf columns col = columns.
Proof.
  intros H. apply find_id_hasId in H. unfold addColumnOf.
  destruct (find _ columns); [reflexivity|congruence].
Qed.

Lemma addColumnOf_hasId (columns : list SelectedColumn.t)
    (col : ColumnPick.t) (id : string) :
  hasId columns id \/ id = derivedId col -> hasId (addColumnOf columns col) id.
Proof.
  unfold addColumnOf.
  destruct (find _ columns) as [c|] eqn:E.
  - intros [H| ->]; [exact H|].
    apply find_id_hasId. rewrite E. discriminate.
  - intros [(c & Hc & Ec)| ->].
    + exists c. split; [|exact Ec]. unfold push. apply in_app_iff. now left.
    + eexists. split; [unfold push; apply in_app_iff; right; now left|].
      reflexivity.
Qed.

Lemma fold_addColumnOf_hasId (cols : list ColumnPick.t)
    (columns : list SelectedColumn.t) (id : string) :
  hasId columns id \/ (exists col, In col cols /\ id = derivedId col) ->
  hasId (fold_left addColumnOf cols columns) id.
Proof.
  revert columns; induction cols as [|c cols IH]; intros columns; simpl.
  - intros [H|(col & [] & _)]. exact H.
  - intros [H|(col & [<-|Hc] & E)]; apply IH.
    + left. apply addColumnOf_hasId. now left.
    + left. apply addColumnOf_hasId. now right.
    + right. now exists col.
Qed.

Lemma fold_addColumnOf_present (cols : list ColumnPick.t)
    (columns : list SelectedColumn.t) :
  (forall col, In col cols -> hasId columns (derivedId col)) ->
  fold_left addColumnOf cols columns = columns.
Proof.
  induction cols as [|c cols IH]; intros H; simpl; [reflexivity|].
  rewrite addColumnOf_present by (apply H; now left).
  apply IH. intros col Hcol. apply H. now right.
Qed.

Lemma withTablesAndColumns_same (config : QueryConfig.t) :
  withTablesAndColumns config (QueryConfig.selectedTables config)
    (QueryConfig.selectedColumns config) = config.
Proof. destruct config; reflexivity. Qed.

(** C8, as the claim states it, fails.  The id [users.id] is among the
    selected columns of [orphanColumnConfig], whose table has been removed;
    adding the column again puts the table back.  The table [users] is in
    [twiceListedConfig]; adding it again drops the second listing. *)
Lemma add_of_present_key_changes_config :
  (hasId (QueryConfig.selectedColumns orphanColumnConfig)
         (derivedId (ColumnPick.mk "users" "id"))
   /\ handleColumnsAdd [ColumnPick.mk "users" "id"] orphanColumnConfig
      <> orphanColumnConfig)
  /\ (In "users" (QueryConfig.selectedTables twiceListedConfig)
      /\ handleTablesAdd ["users"] twiceListedConfig <> twiceListedConfig).
Proof.
  split; split.
  - exists (plainColumn "users" "id"). split; [now left|reflexivity].
  - intros H. apply (f_equal QueryConfig.selectedTables) in H.
    vm_compute in H. discriminate H.
  - now left.
  - intros H. apply (f_equal QueryConfig.selectedTables) in H.
    vm_compute in H. discriminate H.
Qed.

(** C8, amended: adding table names that are all present returns the
    configuration unchanged when [selectedTables] lists no table twice;
    adding columns whose derived ids ([table.column]) are all present
    leaves [selectedColumns] unchanged, and returns the configuration
    unchanged when their tables are in [selectedTables] too; and for every
    configuration a repeated add, of tables or of columns, changes nothing
    after the first. *)
Theorem add_is_idempotent_by_key (config : QueryConfig.t) :
  (forall names,
      NoDup (QueryConfig.selectedTables config) ->
      (forall n, In n names -> In n (QueryConfig.selectedTables config)) ->
      handleTablesAdd names config = config)
  /\ (forall cols,
        (forall col, In col cols ->
                     hasId (QueryConfig.selectedColumns config)
                           (derivedId col)) ->
        QueryConfig.selectedColumns (handleColumnsAdd cols config)
        = QueryConfig.selectedColumns config)
  /\ (forall cols,
        (forall col, In col cols ->
                     In (ColumnPick.tableName col)
                        (QueryConfig.selectedTables config)
                     /\ hasId (QueryConfig.selectedColumns config)
                              (derivedId col)) ->
        handleColumnsAdd cols config = config)
  /\ (forall names,
        handleTablesAdd names (handleTablesAdd names config)
        = handleTablesAdd names config)
  /\ (forall cols,
        handleColumnsAdd cols (handleColumnsAdd cols config)
        = handleColumnsAdd cols config).
Proof.
  repeat split.
  - intros names Hnd Hin. unfold handleTablesAdd.
    rewrite (uniqueInOrder_present _ _ Hnd Hin).
    apply withTablesAndColumns_same.
  - intros cols H. unfold handleColumnsAdd.
    cbn [withTablesAndColumns QueryConfig.selectedColumns].
    now apply fold_addColumnOf_present.
  - intros cols H. unfold handleColumnsAdd.
    rewrite fold_addTableOf_present by (intros col Hc; apply (H col Hc)).
    rewrite fold_addColumnOf_present by (intros col Hc; apply (H col Hc)).
    apply withTablesAndColumns_same.
  - intros names. unfold handleTablesAdd at 1.
    rewrite uniqueInOrder_present.
    + apply withTablesAndColumns_same.
    + apply fold_setAdd_NoDup. constructor.
    + intros n Hn. cbn [handleTablesAdd QueryConfig.selectedTables
                         withTablesAndColumns].
      unfold uniqueInOrder. apply fold_setAdd_In. right.
      apply in_app_iff. now right.
  - intros cols. unfold handleColumnsAdd at 1.
    rewrite fold_addTableOf_present, fold_addColumnOf_present.
    + apply withTablesAndColumns_same.
    + intros col Hc. cbn [handleColumnsAdd QueryConfig.selectedColumns
                            withTablesAndColumns].
      apply fold_addColumnOf_hasId. right. now exists col.
    + intros col Hc. cbn [handleColumnsAdd QueryConfig.selectedTables
                            withTablesAndColumns].
      apply fold_addTableOf_In. right. now exists col.
Qed.

Lemma add_is_idempotent_by_key_witness :
  (NoDup (QueryConfig.selectedTables endToEndConfig)
   /\ handleTablesAdd ["public.users"] endToEndConfig = endToEndConfig)
  /\ (hasId (QueryConfig.selectedColumns orphanColumnConfig)
            (derivedId (ColumnPick.mk "users" "id"))
      /\ QueryConfig.selectedColumns
           (handleColumnsAdd [ColumnPick.mk "users" "id"] orphanColumnConfig)
         = QueryConfig.selectedColumns orphanColumnConfig)
  /\ handleColumnsAdd [ColumnPick.mk "users" "email"]
       (handleTablesAdd ["users"] endToEndConfig)
     = handleTablesAdd ["users"] endToEndConfig.
Proof.
  assert (Hnd : NoDup (QueryConfig.selectedTables endToEndConfig)).
  { simpl. constructor; [simpl; tauto|constructor]. }
  assert (Hid : hasId (QueryConfig.selectedColumns orphanColumnConfig)
                      (derivedId (ColumnPick.mk "users" "id"))).
  { exists (plainColumn "users" "id"). split; [now left|reflexivity]. }
  split; [split; [exact Hnd|]|split; [split; [exact Hid|]|]].
  - apply (proj1 (add_is_idempotent_by_key endToEndConfig)
             ["public.users"] Hnd).
    simpl. intros n [<-|[]]. now left.
  - apply (proj1 (proj2 (add_is_idempotent_by_key orphanColumnConfig))).
    simpl. intros col [<-|[]]. exact Hid.
  - apply (proj1 (proj2 (proj2 (add_is_idempotent_by_key
                                   (handleTablesAdd ["users"] endToEndConfig))))).
    simpl. intros col [<-|[]]. split.
    + vm_compute. tauto.
    + exists (plainColumn "users" "email"). split; [|reflexivity].
      vm_compute. tauto.
Defined.

End AddHandlers.

(** ** White space and letter case in the validator *)

Section ValidatorNormalisation.
Import JS SQLGenerator Rules.

Lemma allWhiteSpace_trimStart (ws : string) :
  allChars isWhiteSpace ws = true -> trimStart ws = "".
Proof.
  induction ws as [|c ws IH]; simpl; [reflexivity|].
  intros H. apply andb_true_iff in H as [Hc Hws]. now rewrite Hc, IH.
Qed.

Lemma trimStart_leading (ws s : string) :
  allChars isWhiteSpace ws = true -> trimStart (ws ++ s) = trimStart s.
Proof.
  induction ws as [|c ws IH]; simpl; [reflexivity|].
  intros H. apply andb_true_iff in H as [Hc Hws]. now rewrite Hc, IH.
Qed.

Lemma allWhiteSpace_trimEnd (ws : string) :
  allChars isWhiteSpace ws = true -> trimEnd ws = "".
Proof.
  induction ws as [|c ws IH]; simpl; [reflexivity|].
  intros H. apply andb_true_iff in H as [Hc Hws]. now rewrite IH, Hc.
Qed.

Lemma trimEnd_trailing (s ws : string) :
  allChars isWhiteSpace ws = true -> trimEnd (s ++ ws) = trimEnd s.
Proof.
  intros H. induction s as [|c s IH]; simpl.
  - now apply allWhiteSpace_trimEnd.
  - now rewrite IH.
Qed.

Lemma trimEnd_cons (c : ascii) (s : string) :
  isWhiteSpace c = false -> trimEnd (String c s) = String c (trimEnd s).
Proof.
  intros H. simpl. rewrite H. destruct (trimEnd s); reflexivity.
Qed.

Lemma trim_surrounding (a s b : string) :
  allChars isWhiteSpace a = true -> allChars isWhiteSpace b = true ->
  trim (a ++ s ++ b) = trim s.
Proof.
  intros Ha Hb. unfold trim. rewrite (trimStart_leading _ _ Ha).
  induction s as [|c s IH].
  - cbn [append]. rewrite (allWhiteSpace_trimStart _ Hb). reflexivity.
  - cbn [append trimStart]. destruct (isWhiteSpace c); [exact IH|].
    exact (trimEnd_trailing (String c s) b Hb).
Qed.

Lemma countChar_append (c : ascii) (a b : string) :
  countChar c (a ++ b) = countChar c a + countChar c b.
Proof.
  induction a as [|d a IH]; simpl; [reflexivity|]. rewrite IH. lia.
Qed.

Lemma countChar_whiteSpace (c : ascii) (ws : string) :
  isWhiteSpace c = false -> allChars isWhiteSpace ws = true ->
  countChar c ws = 0.
Proof.
  intros Hc. induction ws as [|d ws IH]; simpl; [reflexivity|].
  intros H. apply andb_true_iff in H as [Hd Hws]. rewrite (IH Hws).
  destruct (Ascii.eqb_spec d c) as [->|_]; [congruence|reflexivity].
Qed.

(** The verdict depends on the text through its trimmed, lower-cased form
    and its two parenthesis counts only. *)
Lemma validateSQL_ext (s1 s2 : string) :
  toLowerCase (trim s1) = toLowerCase (trim s2) ->
  countChar "(" s1 = countChar "(" s2 ->
  countChar ")" s1 = countChar ")" s2 ->
  validateSQL s1 = validateSQL s2.
Proof.
  intros Hn Ho Hc. unfold validateSQL. now rewrite Hn, Ho, Hc.
Qed.

(** X1: white space around a query text never changes the verdict of
    [validateSQL]: the same errors, the same [isValid]. *)
Theorem validateSQL_ignores_surrounding_space (a sql b : string) :
  allChars isWhiteSpace a = true -> allChars isWhiteSpace b = true ->
  validateSQL (a ++ sql ++ b) = validateSQL sql.
Proof.
  intros Ha Hb. apply validateSQL_ext.
  - now rewrite trim_surrounding.
  - rewrite !countChar_append, (countChar_whiteSpace _ a),
      (countChar_whiteSpace _ b) by (assumption || reflexivity).
    lia.
  - rewrite !countChar_append, (countChar_whiteSpace _ a),
      (countChar_whiteSpace _ b) by (assumption || reflexivity).
    lia.
Qed.

Lemma validateSQL_ignores_surrounding_space_witness :
  validateSQL ("  " ++ "SELECT * FROM users" ++ SQLGenerator.LF)
  = validateSQL "SELECT * FROM users".
Proof.
  apply validateSQL_ignores_surrounding_space; reflexivity.
Defined.

Lemma toLowerChar_whiteSpace (c : ascii) :
  isWhiteSpace (toLowerChar c) = isWhiteSpace c.
Proof. destruct c as [[] [] [] [] [] [] [] []]; reflexivity. Qed.

Lemma toLowerChar_idempotent (c : ascii) :
  toLowerChar (toLowerChar c) = toLowerChar c.
Proof. destruct c as [[] [] [] [] [] [] [] []]; reflexivity. Qed.

Lemma toLowerChar_paren (c : ascii) :
  Ascii.eqb (toLowerChar c) "(" = Ascii.eqb c "("
  /\ Ascii.eqb (toLowerChar c) ")" = Ascii.eqb c ")".
Proof. destruct c as [[] [] [] [] [] [] [] []]; split; reflexivity. Qed.

Lemma toLowerCase_idempotent (s : string) :
  toLowerCase (toLowerCase s) = toLowerCase s.
Proof.
  induction s as [|c s IH]; simpl; [reflexivity|].
  now rewrite toLowerChar_idempotent, IH.
Qed.

Lemma toLowerCase_append (a b : string) :
  toLowerCase (a ++ b) = toLowerCase a ++ toLowerCase b.
Proof. induction a as [|c a IH]; simpl; congruence. Qed.

Lemma trimStart_toLowerCase (s : string) :
  trimStart (toLowerCase s) = toLowerCase (trimStart s).
Proof.
  induction s as [|c s IH]; simpl; [reflexivity|].
  rewrite toLowerChar_whiteSpace. destruct (isWhiteSpace c); [exact IH|].
  reflexivity.
Qed.

Lemma trimEnd_toLowerCase (s : string) :
  trimEnd (toLowerCase s) = toLowerCase (trimEnd s).
Proof.
  induction s as [|c s IH]; simpl; [reflexivity|].
  rewrite IH, toLowerChar_whiteSpace.
  destruct (trimEnd s); simpl; [destruct (isWhiteSpace c)|]; reflexivity.
Qed.

Lemma trim_toLowerCase (s : string) :
  trim (toLowerCase s) = toLowerCase (trim s).
Proof. unfold trim. now rewrite trimStart_toLowerCase, trimEnd_toLowerCase. Qed.

Lemma countChar_paren_toLowerCase (s : string) :
  countChar "(" (toLowerCase s) = countChar "(" s
  /\ countChar ")" (toLowerCase s) = countChar ")" s.
Proof.
  induction s as [|c s [IHo IHc]]; simpl; [now split|].
  destruct (toLowerChar_paren c) as [-> ->]. now rewrite IHo, IHc.
Qed.

(** X2: [validateSQL] does not see letter case: two texts that are equal
    after lower-casing get the same verdict, and so does a text and its
    lower-cased form. *)
Theorem validateSQL_ignores_case (s1 s2 : string) :
  toLowerCase s1 = toLowerCase s2 ->
  validateSQL s1 = validateSQL s2
  /\ validateSQL (toLowerCase s1) = validateSQL s1.
Proof.
  assert (H : forall a b, toLowerCase a = toLowerCase b ->
                          validateSQL a = validateSQL b).
  { intros a b E. apply validateSQL_ext.
    - now rewrite <- !trim_toLowerCase, E.
    - rewrite <- (proj1 (countChar_paren_toLowerCase a)), E.
      apply countChar_paren_toLowerCase.
    - rewrite <- (proj2 (countChar_paren_toLowerCase a)), E.
      apply countChar_paren_toLowerCase. }
  intros E. split; [now apply H|].
  apply H, toLowerCase_idempotent.
Qed.

Lemma validateSQL_ignores_case_witness :
  toLowerCase "Select * From T" = toLowerCase "SELECT * FROM t"
  /\ validateSQL "Select * From T" = validateSQL "SELECT * FROM t".
Proof.
  split; [reflexivity|].
  apply (validateSQL_ignores_case "Select * From T" "SELECT * FROM t").
  reflexivity.
Defined.

End ValidatorNormalisation.

(** ** The generator's output before the validator *)

Section GeneratedTextValidated.
Import JS SQLGenerator Clauses Rules.

Lemma join_cons (sep x : string) (l : list string) :
  join sep (x :: l) =
    x ++ match l with [] => "" | _ :: _ => sep ++ join sep l end.
Proof.
  unfold join. destruct l; simpl; [|reflexivity].
  induction x as [|c x IH]; simpl; congruence.
Qed.

Lemma selectClause_prefix (config : QueryConfig.t) :
  exists r, selectClause config = "SELECT" ++ r.
Proof.
  unfold selectClause.
  destruct (QueryConfig.distinct config);
    destruct (List.length (QueryConfig.selectedColumns config) =? 0)%nat;
    eexists; reflexivity.
Qed.

Lemma append_assoc_str (a b c : string) : (a ++ b) ++ c = a ++ (b ++ c).
Proof. induction a as [|d a IH]; simpl; congruence. Qed.

Lemma generateSQL_prefix (config : QueryConfig.t) :
  exists r, generateSQL config = "SELECT" ++ r.
Proof.
  unfold generateSQL. rewrite generateParts_blocks. cbn [app].
  rewrite join_cons.
  destruct (selectClause_prefix config) as [r ->].
  eexists. apply append_assoc_str.
Qed.

Lemma trim_select (r : string) :
  exists r', trim ("SELECT" ++ r) = "SELECT" ++ r'.
Proof.
  exists (trimEnd r). unfold trim. cbn [append trimStart].
  change (isWhiteSpace "S") with false. cbv iota.
  now rewrite !trimEnd_cons by reflexivity.
Qed.

Lemma generateSQL_passes_select (config : QueryConfig.t) :
  failsSelect (generateSQL config) = false.
Proof.
  unfold failsSelect, normalize.
  destruct (generateSQL_prefix config) as [r ->].
  destruct (trim_select r) as [r' ->]. reflexivity.
Qed.

(** X3: whatever the configuration, the text [generateSQL] returns begins
    with SELECT for the validator: [validateSQL] never answers it with
    "Query must start with SELECT". *)
Theorem generated_text_never_fails_select_rule (config : QueryConfig.t) :
  ~ In MSG_SELECT
       (ValidationResult.errors (validateSQL (generateSQL config))).
Proof.
  rewrite in_errors, generateSQL_passes_select.
  unfold MSG_SELECT, MSG_FROM, MSG_PARENS, MSG_KEYWORDS.
  intuition discriminate.
Qed.

(** A run of characters that are no white space survives [trim]. *)
Lemma trimStart_keeps (a x b : string) (c : ascii) :
  isWhiteSpace c = false ->
  exists a', trimStart (a ++ String c x ++ b) = a' ++ String c x ++ b.
Proof.
  intros Hc. induction a as [|d a [a' IH]]; cbn [append trimStart].
  - exists "". now rewrite Hc.
  - destruct (isWhiteSpace d).
    + now exists a'.
    + now exists (String d a).
Qed.

Lemma trimEnd_keeps (a x b : string) :
  allChars (fun c => negb (isWhiteSpace c)) x = true -> x <> "" ->
  exists b', trimEnd (a ++ x ++ b) = a ++ x ++ b'.
Proof.
  intros Hx Hne.
  assert (Hbase : trimEnd (x ++ b) = x ++ trimEnd b).
  { clear Hne. induction x as [|c x IH]; [reflexivity|].
    cbn [allChars] in Hx. apply andb_true_iff in Hx as [Hc Hx].
    apply negb_true_iff in Hc.
    cbn [append]. rewrite (trimEnd_cons _ _ Hc), (IH Hx). reflexivity. }
  exists (trimEnd b).
  induction a as [|d a IH]; cbn [append]; [exact Hbase|].
  cbn [trimEnd]. rewrite IH.
  destruct (a ++ x ++ trimEnd b) eqn:E; [|reflexivity].
  exfalso. destruct a; [destruct x; [congruence|discriminate E]|discriminate E].
Qed.

Lemma generateSQL_holds_from (config : QueryConfig.t) :
  QueryConfig.selectedTables config <> [] ->
  exists a b, generateSQL config = a ++ "FROM" ++ b.
Proof.
  intros Ht. unfold generateSQL. rewrite generateParts_blocks.
  unfold fromClauses.
  destruct (QueryConfig.selectedTables config) as [|t0 others]; [congruence|].
  cbn [app]. rewrite join_cons. rewrite join_cons.
  exists (selectClause config ++ LF). eexists.
  rewrite (append_assoc_str (selectClause config) LF). do 2 f_equal.
  reflexivity.
Qed.

Lemma generateSQL_passes_from (config : QueryConfig.t) :
  QueryConfig.selectedTables config <> [] ->
  failsFrom (generateSQL config) = false.
Proof.
  intros Ht. destruct (generateSQL_holds_from config Ht) as (a & b & E).
  unfold failsFrom, normalize. apply negb_false_iff, includes_spec.
  rewrite E. unfold trim.
  destruct (trimStart_keeps a "ROM" b "F" eq_refl) as [a' ->].
  destruct (trimEnd_keeps a' "FROM" b eq_refl) as [b' Eb]; [discriminate|].
  change (String "F" "ROM" ++ b) with ("FROM" ++ b). rewrite Eb.
  exists (toLowerCase a'), (toLowerCase b').
  now rewrite !toLowerCase_append.
Qed.

(** X4: once a table is selected, the text [generateSQL] returns holds its
    FROM clause for the validator too: [validateSQL] never answers it with
    "Query must include FROM clause"; together with the SELECT rule, the only
    errors it can get are unbalanced parentheses and restricted keywords. *)
Theorem generated_text_with_table_passes_from_rule (config : QueryConfig.t) :
  QueryConfig.selectedTables config <> [] ->
  ~ In MSG_FROM (ValidationResult.errors (validateSQL (generateSQL config)))
  /\ ValidationResult.errors (validateSQL (generateSQL config)) =
       (when (failsParens (generateSQL config)) MSG_PARENS
        ++ when (failsKeywords (generateSQL config)) MSG_KEYWORDS)%list.
Proof.
  intros Ht. split.
  - rewrite in_errors, (generateSQL_passes_from config Ht).
    unfold MSG_SELECT, MSG_FROM, MSG_PARENS, MSG_KEYWORDS.
    intuition discriminate.
  - rewrite validateSQL_errors, generateSQL_passes_select,
      (generateSQL_passes_from config Ht). reflexivity.
Qed.

Lemma generated_text_with_table_passes_from_rule_witness :
  QueryConfig.selectedTables Scenario.twoTablesConfig <> []
  /\ ~ In MSG_FROM
         (ValidationResult.errors
            (validateSQL (generateSQL Scenario.twoTablesConfig))).
Proof.
  assert (H : QueryConfig.selectedTables Scenario.twoTablesConfig <> [])
    by (simpl; discriminate).
  split; [exact H|].
  exact (proj1 (generated_text_with_table_passes_from_rule _ H)).
Defined.

End GeneratedTextValidated.

(** ** Executing from the page *)

Section PageExecution.
Import JS JSArray SQLGenerator Clauses Rules Page.

Lemma generateSQL_trim_truthy (config : QueryConfig.t) :
  truthy (trim (generateSQL config)) = true.
Proof.
  destruct (generateSQL_prefix config) as [r ->].
  destruct (trim_select r) as [r' ->]. reflexivity.
Qed.

Lemma isValid_errors (sql : string) :
  ValidationResult.isValid (validateSQL sql) =
    match ValidationResult.errors (validateSQL sql) with
    | [] => true
    | _ :: _ => false
    end.
Proof.
  rewrite validateSQL_isValid.
  destruct (ValidationResult.errors (validateSQL sql)); reflexivity.
Qed.

(** X5: what the Execute button does with the text the page generates.
    With no table selected the page holds no text and the handler only
    says "No Query", whatever else is configured.  With a table selected
    the handler starts the query for page 1 exactly when the text has
    balanced parentheses and holds no denylist word; otherwise its toast
    lists the parenthesis and keyword messages, and never a SELECT or FROM
    message. *)
Theorem handleExecuteQuery_on_generated_text (config : QueryConfig.t) :
  (QueryConfig.selectedTables config = [] ->
   handleExecuteQuery (generatedSQL config)
   = ToastShown "No Query" "Please build a query first")
  /\ (QueryConfig.selectedTables config <> [] ->
      handleExecuteQuery (generatedSQL config) =
        if failsParens (generateSQL config)
           || failsKeywords (generateSQL config)
        then ToastShown "Invalid Query"
               (join ", "
                  (when (failsParens (generateSQL config)) MSG_PARENS
                   ++ when (failsKeywords (generateSQL config))
                           MSG_KEYWORDS)%list)
        else MutationStarted 1).
Proof.
  split; intros Ht.
  - unfold generatedSQL. rewrite Ht. reflexivity.
  - unfold generatedSQL.
    destruct (QueryConfig.selectedTables config) as [|t0 others] eqn:Et;
      [congruence|].
    cbn [List.length Nat.ltb Nat.leb].
    unfold handleExecuteQuery.
    rewrite generateSQL_trim_truthy. cbn [negb].
    assert (Ht' : QueryConfig.selectedTables config <> [])
      by (rewrite Et; discriminate).
    rewrite isValid_errors, validateSQL_errors, generateSQL_passes_select,
      (generateSQL_passes_from config Ht').
    destruct (failsParens (generateSQL config)),
      (failsKeywords (generateSQL config)); reflexivity.
Qed.

Lemma handleExecuteQuery_on_generated_text_witness :
  (QueryConfig.selectedTables Scenario.extractConfig = []
   /\ handleExecuteQuery (generatedSQL Scenario.extractConfig)
      = ToastShown "No Query" "Please build a query first")
  /\ (QueryConfig.selectedTables Scenario.endToEndConfig <> []
      /\ handleExecuteQuery (generatedSQL Scenario.endToEndConfig)
         = MutationStarted 1).
Proof.
  assert (H : QueryConfig.selectedTables Scenario.endToEndConfig <> [])
    by (simpl; discriminate).
  split; (split; [reflexivity || exact H|]).
  - apply (proj1 (handleExecuteQuery_on_generated_text Scenario.extractConfig)).
    reflexivity.
  - rewrite (proj2 (handleExecuteQuery_on_generated_text
                      Scenario.endToEndConfig) H).
    reflexivity.
Defined.

(** *** The last segment of a column path *)

Lemma append_empty_r (s : string) : s ++ "" = s.
Proof. induction s as [|c s IH]; simpl; congruence. Qed.

Lemma splitFrom_nonempty (sep : ascii) (segment s : string) :
  splitFrom sep segment s <> [].
Proof.
  revert segment; induction s as [|c s IH]; intros segment; simpl.
  - discriminate.
  - destruct (Ascii.eqb c sep); [discriminate|apply IH].
Qed.

Lemma pop_cons {A : Type} (x : A) (l : list A) : l <> [] -> pop (x :: l) = pop l.
Proof. destruct l; [congruence|reflexivity]. Qed.

Lemma splitFrom_pop (sep : ascii) (s segment : string) :
  exists last,
    pop (splitFrom sep segment s) = Some last
    /\ ((countChar sep s = 0 /\ last = segment ++ s)
        \/ (countChar sep last = 0 /\ exists p, s = p ++ String sep last)).
Proof.
  revert segment; induction s as [|c s IH]; intros segment;
    cbn [splitFrom countChar].
  - exists segment. split; [reflexivity|left].
    now rewrite append_empty_r.
  - destruct (Ascii.eqb_spec c sep) as [->|Hc].
    + rewrite pop_cons by apply splitFrom_nonempty.
      destruct (IH "") as (last & Hp & H).
      exists last. split; [exact Hp|right].
      destruct H as [[H0 E]|[H0 (p & E)]].
      * cbn [append] in E. subst last. split; [exact H0|]. now exists "".
      * split; [exact H0|]. exists (String sep p). now rewrite E.
    + destruct (IH (segment ++ String c "")) as (last & Hp & H).
      exists last. split; [exact Hp|].
      destruct H as [[H0 E]|[H0 (p & E)]].
      * left. split; [exact H0|]. now rewrite E, append_assoc_str.
      * right. split; [exact H0|]. exists (String c p). now rewrite E.
Qed.

(** [path.split('.').pop()] is the part of the path after its last dot. *)
Lemma lastSegment_spec (path : string) :
  exists last prefix,
    lastSegment path = Some last
    /\ countChar "." last = 0
    /\ path = prefix ++ last
    /\ (prefix = "" \/ exists p, prefix = p ++ ".").
Proof.
  destruct (splitFrom_pop "." path "") as (last & Hp & [[H0 E]|[H0 (p & E)]]).
  - cbn [append] in E. subst last.
    exists path, "". repeat split; try assumption. now left.
  - exists last, (p ++ "."). repeat split; try assumption.
    + rewrite E, append_assoc_str. reflexivity.
    + right. now exists p.
Qed.

Lemma Forall2_map_r {A B : Type} (R : A -> B -> Prop) (f : A -> B)
    (l : list A) :
  (forall x, R x (f x)) -> Forall2 R l (map f l).
Proof. intros H; induction l; simpl; constructor; auto. Qed.

(** X6: the request the page sends on execute names every filter, grouping
    and ordering column by what follows the last dot of its path, so the
    table and schema a path was qualified with are not sent; operators and
    values of the filters go unchanged, in the order of the conditions. *)
Theorem payload_names_columns_by_last_segment
    (config : QueryConfig.t) (page : Z) :
  Forall2 (fun cond sent =>
             namedByLastSegment (QueryCondition.column cond)
                                (FilterCondition.column sent)
             /\ FilterCondition.op sent = QueryCondition.operator cond
             /\ FilterCondition.value sent = QueryCondition.value cond)
          (QueryConfig.conditions config)
          (Payload.conditions (buildPayload config page))
  /\ Forall2 namedByLastSegment (QueryConfig.groupBy config)
             (Payload.group_by (buildPayload config page))
  /\ Forall2 (fun order sent =>
                namedByLastSegment (OrderBy.column order)
                                   (OrderEntry.column sent))
             (QueryConfig.orderBy config)
             (Payload.order_by (buildPayload config page)).
Proof.
  assert (H : forall path, namedByLastSegment path (lastSegment path)).
  { intros path. destruct (lastSegment_spec path) as (last & prefix & E & R).
    exists last, prefix. now split. }
  unfold buildPayload.
  cbn [Payload.conditions Payload.group_by Payload.order_by].
  repeat split; apply Forall2_map_r; intros x; cbn; auto.
Qed.

Lemma filter_partition_length {A : Type} (p : A -> bool) (l : list A) :
  List.length (filter p l) + List.length (filter (fun x => negb (p x)) l)
  = List.length l.
Proof.
  induction l as [|x l IH]; simpl; [reflexivity|].
  destruct (p x); simpl; lia.
Qed.

(** X7: the request splits the selected columns in two: a column without a
    function is sent by name in [columns], a column with one is sent in
    [aggregations] under that function, with its alias or, when it has none,
    its column name.  No selected column is sent twice or left out. *)
Theorem payload_partitions_selected_columns
    (config : QueryConfig.t) (page : Z) :
  let payload := buildPayload config page in
  List.length (Payload.columns payload)
  + List.length (Payload.aggregations payload)
  = List.length (QueryConfig.selectedColumns config)
  /\ (forall col, In col (QueryConfig.selectedColumns config) ->
        match SelectedColumn.function col with
        | Some (String c fn) =>
            In (Aggregation.mk (String c fn) (SelectedColumn.columnName col)
                  (orElse (SelectedColumn.alias col)
                          (SelectedColumn.columnName col)))
               (Payload.aggregations payload)
        | _ => In (SelectedColumn.columnName col) (Payload.columns payload)
        end)
  /\ (forall agg, In agg (Payload.aggregations payload) ->
        truthy (Aggregation.operation agg) = true).
Proof.
  intros payload. subst payload. unfold buildPayload.
  cbn [Payload.columns Payload.aggregations].
  rewrite !length_map. split; [apply filter_partition_length|]. split.
  - intros col Hin.
    destruct (SelectedColumn.function col) as [[|c fn]|] eqn:Ef.
    + apply in_map, filter_In. split; [exact Hin|].
      unfold noFunction. now rewrite Ef.
    + apply in_map_iff. exists col. split.
      * unfold functionOf. now rewrite Ef.
      * apply filter_In. split; [exact Hin|].
        unfold noFunction. now rewrite Ef.
    + apply in_map, filter_In. split; [exact Hin|].
      unfold noFunction. now rewrite Ef.
  - intros agg Hin. apply in_map_iff in Hin as (col & <- & Hcol).
    apply filter_In in Hcol as [_ Hf]. cbn [Aggregation.operation].
    unfold noFunction, functionOf in *.
    destruct (SelectedColumn.function col) as [fn|]; [|discriminate Hf].
    now apply negb_true_iff, negb_false_iff in Hf.
Qed.

End PageExecution.

(** ** Grouping columns *)

Section GroupingHandlers.
Import JS Configuration.

Lemma update_groupBy_same (config : QueryConfig.t) :
  Update.groupBy config (QueryConfig.groupBy config) = config.
Proof. destruct config; reflexivity. Qed.

Lemma filter_absent (column : string) (l : list string) :
  ~ In column l -> filter (fun col => negb (String.eqb col column)) l = l.
Proof.
  induction l as [|x l IH]; simpl; [reflexivity|].
  intros H. destruct (String.eqb_spec x column) as [->|_]; simpl.
  - exfalso. apply H. now left.
  - rewrite IH; [reflexivity|]. intros Hin. apply H. now right.
Qed.

Lemma filter_other (column : string) (l : list string) (c : string) :
  In c (filter (fun col => negb (String.eqb col column)) l)
  <-> In c l /\ c <> column.
Proof.
  rewrite filter_In, negb_true_iff, String.eqb_neq. reflexivity.
Qed.

(** X8: [addToGroupBy] never lists a column twice: for a column already
    grouped by it leaves [onChange] uncalled; otherwise it appends the
    column, a duplicate-free list stays duplicate-free, and
    [removeFromGroupBy] of that column gives the configuration back. *)
Theorem addToGroupBy_keeps_columns_unique
    (column : string) (config : QueryConfig.t) :
  (In column (QueryConfig.groupBy config) ->
   addToGroupBy column config = None)
  /\ (~ In column (QueryConfig.groupBy config) ->
      exists config',
        addToGroupBy column config = Some config'
        /\ QueryConfig.groupBy config'
           = (QueryConfig.groupBy config ++ [column])%list
        /\ (NoDup (QueryConfig.groupBy config) ->
            NoDup (QueryConfig.groupBy config'))
        /\ removeFromGroupBy column config' = config).
Proof.
  unfold addToGroupBy. split; intros H.
  - apply arrayIncludes_In in H. now rewrite H.
  - assert (E := H). apply arrayIncludes_not_In in E. rewrite E.
    eexists. split; [reflexivity|]. cbn [Update.groupBy QueryConfig.groupBy].
    split; [reflexivity|]. split.
    + intros Hnd. apply NoDup_app; repeat split; try assumption.
      * repeat constructor. simpl. tauto.
      * intros y Hy [<-|[]]. contradiction.
    + unfold removeFromGroupBy. cbn [Update.groupBy QueryConfig.groupBy
        QueryConfig.selectedTables QueryConfig.selectedColumns
        QueryConfig.conditions QueryConfig.joins QueryConfig.orderBy
        QueryConfig.limit QueryConfig.distinct QueryConfig.logicalOperator].
      rewrite filter_app, (filter_absent _ _ H). cbn [filter].
      rewrite String.eqb_refl. cbn [negb]. rewrite app_nil_r.
      destruct config; reflexivity.
Qed.

Lemma addToGroupBy_keeps_columns_unique_witness :
  ~ In "users.id" (QueryConfig.groupBy Scenario.endToEndConfig)
  /\ exists config',
       addToGroupBy "users.id" Scenario.endToEndConfig = Some config'
       /\ removeFromGroupBy "users.id" config' = Scenario.endToEndConfig.
Proof.
  assert (H : ~ In "users.id" (QueryConfig.groupBy Scenario.endToEndConfig))
    by (simpl; tauto).
  split; [exact H|].
  destruct (proj2 (addToGroupBy_keeps_columns_unique
                     "users.id" Scenario.endToEndConfig) H)
    as (config' & E & _ & _ & R).
  now exists config'.
Defined.

Lemma filter_segments (column : string) (segments : list (list string))
    (last : list string) :
  Forall (fun segment => ~ In column segment) segments ->
  ~ In column last ->
  filter (fun col => negb (String.eqb col column))
         (concat (map (fun segment => (segment ++ [column])%list) segments) ++ last)
  = (concat segments ++ last)%list.
Proof.
  intros Hs Hl. rewrite filter_app, (filter_absent _ _ Hl). f_equal.
  induction Hs as [|segment segments Hseg _ IH]; [reflexivity|].
  cbn [map concat]. rewrite !filter_app, (filter_absent _ _ Hseg), IH.
  cbn [filter]. rewrite String.eqb_refl. cbn [negb]. now rewrite app_nil_r.
Qed.

Lemma segments_exist (column : string) (l : list string) :
  exists segments last,
    l = (concat (map (fun segment => (segment ++ [column])%list) segments) ++ last)%list
    /\ Forall (fun segment => ~ In column segment) segments
    /\ ~ In column last.
Proof.
  induction l as [|x l (segments & last & E & Hs & Hl)].
  - exists [], []. repeat split; [constructor|intros []].
  - destruct (String.eqb_spec x column) as [->|Hne].
    + exists ([] :: segments), last. subst l.
      repeat split; [constructor; [intros []|exact Hs]|exact Hl].
    + destruct segments as [|segment segments].
      * exists [], (x :: last). subst l. repeat split; [constructor|].
        intros [H|H]; [now apply Hne|now apply Hl].
      * exists ((x :: segment) :: segments), last. subst l.
        repeat split; [|exact Hl].
        inversion Hs as [|? ? Hseg Hrest]; subst.
        constructor; [|exact Hrest].
        intros [H|H]; [now apply Hne|now apply Hseg].
Qed.

(** X9: [removeFromGroupBy] removes every occurrence of the column and
    nothing else: the other columns stay, in their order.  Every grouping
    list is a run of segments free of the column, each followed by the
    column, and a last segment free of it; what comes back is the segments,
    one after the other, and the last one.  Removing a column that is not
    grouped by, or removing twice, changes nothing, and no other field of
    the configuration changes. *)
Theorem removeFromGroupBy_removes_only_that_column
    (column : string) (config : QueryConfig.t) :
  (exists segments last,
      QueryConfig.groupBy config
      = (concat (map (fun segment => (segment ++ [column])%list) segments)
         ++ last)%list
      /\ Forall (fun segment => ~ In column segment) segments
      /\ ~ In column last)
  /\ (forall segments last,
        QueryConfig.groupBy config
        = (concat (map (fun segment => (segment ++ [column])%list) segments)
           ++ last)%list ->
        Forall (fun segment => ~ In column segment) segments ->
        ~ In column last ->
        removeFromGroupBy column config
        = Update.groupBy config (concat segments ++ last)%list)
  /\ (forall c, In c (QueryConfig.groupBy (removeFromGroupBy column config))
                <-> In c (QueryConfig.groupBy config) /\ c <> column)
  /\ (~ In column (QueryConfig.groupBy config) ->
      removeFromGroupBy column config = config)
  /\ removeFromGroupBy column (removeFromGroupBy column config)
     = removeFromGroupBy column config.
Proof.
  assert (Hno : forall cfg, ~ In column (QueryConfig.groupBy cfg) ->
                            removeFromGroupBy column cfg = cfg).
  { intros cfg H. unfold removeFromGroupBy. rewrite (filter_absent _ _ H).
    apply update_groupBy_same. }
  split; [apply segments_exist|].
  split; [|split; [intros c; apply filter_other|split]].
  - intros segments last E Hs Hl. unfold removeFromGroupBy.
    now rewrite E, filter_segments.
  - apply Hno.
  - apply Hno. unfold removeFromGroupBy. cbn [Update.groupBy QueryConfig.groupBy].
    rewrite filter_other. tauto.
Qed.

Lemma removeFromGroupBy_removes_only_that_column_witness :
  QueryConfig.groupBy
    (removeFromGroupBy "users.status"
       (Update.groupBy Scenario.endToEndConfig
          ["users.id"; "users.status"; "users.email"; "users.status";
           "users.name"]))
  = ["users.id"; "users.email"; "users.name"].
Proof.
  rewrite (proj1 (proj2 (removeFromGroupBy_removes_only_that_column
                           "users.status"
                           (Update.groupBy Scenario.endToEndConfig
                              ["users.id"; "users.status"; "users.email";
                               "users.status"; "users.name"])))
                 [["users.id"]; ["users.email"]] ["users.name"] eq_refl).
  - reflexivity.
  - repeat constructor; simpl; intuition discriminate.
  - simpl; intuition discriminate.
Defined.

End GroupingHandlers.

(** ** Conditions *)

Section ConditionHandlers.
Import JS SQLGenerator Clauses Configuration.

Lemma renderCondition_first (c : QueryCondition.t)
    (lop : option LogicalOperator) :
  renderCondition (Update.conditionLogicalOperator c lop) 0
  = renderCondition c 0.
Proof.
  unfold renderCondition, Update.conditionLogicalOperator.
  cbn [QueryCondition.logicalOperator QueryCondition.operator
       QueryCondition.value QueryCondition.column Nat.ltb Nat.leb].
  destruct lop, (QueryCondition.logicalOperator c); reflexivity.
Qed.

(** X10: the connective of the first condition never reaches the text:
    whatever [logicalOperator] the first condition carries (as it does after
    the condition before it was removed), [generateSQL] returns the same
    text. *)
Theorem first_condition_connective_is_ignored
    (config : QueryConfig.t) (c : QueryCondition.t)
    (rest : list QueryCondition.t) (lop : option LogicalOperator) :
  QueryConfig.conditions config = c :: rest ->
  generateSQL
    (Update.conditions config (Update.conditionLogicalOperator c lop :: rest))
  = generateSQL config.
Proof.
  intros E. unfold generateSQL. rewrite !generateParts_blocks.
  unfold selectClause, fromClauses, joinClauses, whereClauses,
    groupByClauses, orderByClauses, orderList, limitClauses, Update.conditions.
  cbn [QueryConfig.selectedTables QueryConfig.selectedColumns
       QueryConfig.conditions QueryConfig.joins QueryConfig.groupBy
       QueryConfig.orderBy QueryConfig.limit QueryConfig.distinct].
  rewrite E. unfold mapi. cbn [mapi_from List.length].
  now rewrite renderCondition_first.
Qed.

Lemma first_condition_connective_is_ignored_witness :
  generateSQL
    (Update.conditions Scenario.endToEndConfig
       [Update.conditionLogicalOperator
          (QueryCondition.mk "condition_1" "public.users.status" "=" "active"
             None) (Some OR)])
  = generateSQL Scenario.endToEndConfig.
Proof.
  apply first_condition_connective_is_ignored. reflexivity.
Defined.

Lemma update_conditions_same (config : QueryConfig.t) :
  Update.conditions config (QueryConfig.conditions config) = config.
Proof. destruct config; reflexivity. Qed.

Lemma filter_all {A : Type} (p : A -> bool) (l : list A) :
  (forall x, In x l -> p x = true) -> filter p l = l.
Proof.
  induction l as [|x l IH]; simpl; intros H; [reflexivity|].
  rewrite (H x) by now left.
  rewrite IH; [reflexivity|]. intros y Hy. apply H. now right.
Qed.

(** X11: [addCondition] appends an empty condition that carries no
    connective when it is the first and AND otherwise; [removeCondition]
    with its id gives the configuration back when no other condition has
    that id, and in every case leaves no condition with that id. *)
Theorem addCondition_then_removeCondition
    (now : Z) (config : QueryConfig.t) :
  let newId := "condition_" ++ numberToString now in
  QueryConfig.conditions (addCondition now config)
  = (QueryConfig.conditions config
     ++ [QueryCondition.mk newId "" "=" ""
           (match QueryConfig.conditions config with
            | [] => None
            | _ :: _ => Some AND
            end)])%list
  /\ ((forall c, In c (QueryConfig.conditions config) ->
                 QueryCondition.id c <> newId) ->
      removeCondition newId (addCondition now config) = config)
  /\ (forall c,
        In c (QueryConfig.conditions
                (removeCondition newId (addCondition now config))) ->
        QueryCondition.id c <> newId /\ In c (QueryConfig.conditions config)).
Proof.
  intros newId. split; [|split].
  - unfold addCondition. cbn [Update.conditions QueryConfig.conditions].
    destruct (QueryConfig.conditions config); reflexivity.
  - intros Hfresh. unfold removeCondition, addCondition.
    cbn [Update.conditions QueryConfig.conditions QueryConfig.selectedTables
         QueryConfig.selectedColumns QueryConfig.joins QueryConfig.groupBy
         QueryConfig.orderBy QueryConfig.limit QueryConfig.distinct
         QueryConfig.logicalOperator].
    rewrite filter_app. cbn [filter QueryCondition.id].
    fold newId. rewrite String.eqb_refl. cbn [negb]. rewrite app_nil_r.
    rewrite filter_all.
    + destruct config; reflexivity.
    + intros c Hc. apply negb_true_iff, String.eqb_neq. now apply Hfresh.
  - intros c. unfold removeCondition, addCondition.
    cbn [Update.conditions QueryConfig.conditions].
    rewrite filter_In, in_app_iff, negb_true_iff, String.eqb_neq.
    intros [[H|[<-|[]]] Hid]; [now split|].
    exfalso. apply Hid. reflexivity.
Qed.

Lemma addCondition_then_removeCondition_witness :
  (forall c, In c (QueryConfig.conditions Scenario.endToEndConfig) ->
             QueryCondition.id c <> "condition_" ++ numberToString 1750000000000)
  /\ removeCondition ("condition_" ++ numberToString 1750000000000)
       (addCondition 1750000000000 Scenario.endToEndConfig)
     = Scenario.endToEndConfig.
Proof.
  assert (H : forall c, In c (QueryConfig.conditions Scenario.endToEndConfig) ->
                QueryCondition.id c
                <> "condition_" ++ numberToString 1750000000000).
  { simpl. intros c [<-|[]]. vm_compute. discriminate. }
  split; [exact H|].
  exact (proj1 (proj2 (addCondition_then_removeCondition
                         1750000000000 Scenario.endToEndConfig)) H).
Defined.

End ConditionHandlers.

(** ** Joins *)

Section JoinHandlers.
Import JS JSArray SQLGenerator Clauses Configuration.

(** X12: the first join added to a configuration with several tables and
    no join yet ends the Cartesian fallback: the text then has the FROM
    clause of the first table and one INNER JOIN of the second, with empty
    columns on both sides of its ON, and no CROSS JOIN; a third or later
    table is no longer named by any clause. *)
Theorem addJoin_ends_the_cartesian_fallback
    (now : Z) (config : QueryConfig.t) (t0 t1 : string)
    (others : list string) :
  QueryConfig.selectedTables config = t0 :: t1 :: others ->
  QueryConfig.joins config = [] ->
  generateParts config =
    selectClause config :: ("FROM " ++ t0) :: ("CROSS JOIN " ++ t1)
    :: (map crossJoin others ++ tailClauses config)%list
  /\ generateParts (addJoin now config) =
       selectClause config :: ("FROM " ++ t0)
       :: ("INNER JOIN " ++ t1 ++ " ON " ++ t0 ++ ". = " ++ t1 ++ ".")
       :: tailClauses config
  /\ filter isCrossJoin (generateParts (addJoin now config)) = [].
Proof.
  intros Et Ej.
  assert (Hbefore :
            generateParts config =
              selectClause config :: ("FROM " ++ t0) :: ("CROSS JOIN " ++ t1)
              :: (map crossJoin others ++ tailClauses config)%list).
  { rewrite generateParts_blocks. unfold fromClauses, joinClauses, tailClauses.
    rewrite Et, Ej. reflexivity. }
  assert (Hafter :
            generateParts (addJoin now config) =
              selectClause config :: ("FROM " ++ t0)
              :: ("INNER JOIN " ++ t1 ++ " ON " ++ t0 ++ ". = " ++ t1 ++ ".")
              :: tailClauses config).
  { rewrite generateParts_blocks.
    unfold fromClauses, joinClauses, tailClauses, whereClauses,
      groupByClauses, orderByClauses, orderList, limitClauses, selectClause,
      addJoin, Update.joins.
    cbn [QueryConfig.selectedTables QueryConfig.selectedColumns
         QueryConfig.conditions QueryConfig.joins QueryConfig.groupBy
         QueryConfig.orderBy QueryConfig.limit QueryConfig.distinct].
    rewrite Et, Ej. cbn [app List.length Nat.eqb andb map at_ nth_error].
    rewrite andb_false_r. unfold orElse.
    destruct t0, t1; reflexivity. }
  split; [exact Hbefore|]. split; [exact Hafter|].
  rewrite Hafter. cbn [filter]. rewrite selectClause_not_crossJoin.
  change (isCrossJoin ("FROM " ++ t0)) with false.
  change (isCrossJoin ("INNER JOIN " ++ t1 ++ " ON " ++ t0 ++ ". = "
                       ++ t1 ++ ".")) with false.
  cbv iota. apply filter_none, tailClauses_not_crossJoin.
Qed.

Lemma addJoin_ends_the_cartesian_fallback_witness :
  generateSQL (addJoin 1750000000000 Scenario.twoTablesConfig)
  = "SELECT *" ++ LF ++ "FROM orders" ++ LF
    ++ "INNER JOIN users ON orders. = users.".
Proof.
  unfold generateSQL.
  rewrite (proj1 (proj2 (addJoin_ends_the_cartesian_fallback
                           1750000000000 Scenario.twoTablesConfig
                           "orders" "users" [] eq_refl eq_refl))).
  reflexivity.
Defined.

Lemma map_unchanged {A : Type} (f : A -> A) (l : list A) :
  (forall x, In x l -> f x = x) -> map f l = l.
Proof.
  induction l as [|x l IH]; simpl; intros H; [reflexivity|].
  rewrite (H x) by now left.
  rewrite IH; [reflexivity|]. intros y Hy. apply H. now right.
Qed.

Lemma update_joins_same (config : QueryConfig.t) :
  Update.joins config (QueryConfig.joins config) = config.
Proof. destruct config; reflexivity. Qed.

Lemma map_update_twice {A : Type} (id : A -> string) (f : A -> A)
    (key : string) (l : list A) :
  (forall x, id x = key -> id (f x) = key -> f (f x) = f x) ->
  map (fun x => if String.eqb (id x) key then f x else x)
      (map (fun x => if String.eqb (id x) key then f x else x) l)
  = map (fun x => if String.eqb (id x) key then f x else x) l.
Proof.
  intros H. rewrite map_map. apply map_ext. intros x.
  destruct (String.eqb_spec (id x) key) as [E|E].
  - destruct (String.eqb_spec (id (f x)) key) as [E'|_]; [|reflexivity].
    now apply H.
  - apply String.eqb_neq in E. now rewrite E.
Qed.

Lemma override_twice {A : Type} (old : A) (update : option A) :
  override (override old update) update = override old update.
Proof. destruct update; reflexivity. Qed.

(** X13: [updateJoin] and [updateCondition] touch the entries with the
    given id and no other.  The lists keep their lengths; an entry with
    another id stays as it is at its place; an entry with the given id stays
    at its place and takes every field the update carries, the id included,
    and keeps the fields it does not carry; with an id no entry has the
    configuration comes back unchanged; and the same update made twice is
    the update made once. *)
Theorem update_by_id_touches_only_that_id (config : QueryConfig.t) :
  (forall joinId updates,
      List.length (QueryConfig.joins (updateJoin joinId updates config))
      = List.length (QueryConfig.joins config)
      /\ (forall i j, nth_error (QueryConfig.joins config) i = Some j ->
                      QueryJoin.id j <> joinId ->
                      nth_error
                        (QueryConfig.joins (updateJoin joinId updates config)) i
                      = Some j)
      /\ (forall i j, nth_error (QueryConfig.joins config) i = Some j ->
                      QueryJoin.id j = joinId ->
                      exists j',
                        nth_error
                          (QueryConfig.joins
                             (updateJoin joinId updates config)) i
                        = Some j'
                        /\ merged (QueryJoin.id j) (JoinUpdates.id updates)
                                  (QueryJoin.id j')
                        /\ merged (QueryJoin.type j) (JoinUpdates.type updates)
                                  (QueryJoin.type j')
                        /\ merged (QueryJoin.leftTable j)
                                  (JoinUpdates.leftTable updates)
                                  (QueryJoin.leftTable j')
                        /\ merged (QueryJoin.leftColumn j)
                                  (JoinUpdates.leftColumn updates)
                                  (QueryJoin.leftColumn j')
                        /\ merged (QueryJoin.rightTable j)
                                  (JoinUpdates.rightTable updates)
                                  (QueryJoin.rightTable j')
                        /\ merged (QueryJoin.rightColumn j)
                                  (JoinUpdates.rightColumn updates)
                                  (QueryJoin.rightColumn j')
                        /\ match JoinUpdates.additionalConditions updates with
                           | Some acs =>
                               QueryJoin.additionalConditions j' = Some acs
                           | None =>
                               QueryJoin.additionalConditions j'
                               = QueryJoin.additionalConditions j
                           end)
      /\ ((forall j, In j (QueryConfig.joins config) ->
                     QueryJoin.id j <> joinId) ->
          updateJoin joinId updates config = config)
      /\ updateJoin joinId updates (updateJoin joinId updates config)
         = updateJoin joinId updates config)
  /\ (forall conditionId updates,
        List.length
          (QueryConfig.conditions (updateCondition conditionId updates config))
        = List.length (QueryConfig.conditions config)
        /\ (forall i c, nth_error (QueryConfig.conditions config) i = Some c ->
                        QueryCondition.id c <> conditionId ->
                        nth_error
                          (QueryConfig.conditions
                             (updateCondition conditionId updates config)) i
                        = Some c)
        /\ (forall i c, nth_error (QueryConfig.conditions config) i = Some c ->
                        QueryCondition.id c = conditionId ->
                        exists c',
                          nth_error
                            (QueryConfig.conditions
                               (updateCondition conditionId updates config)) i
                          = Some c'
                          /\ merged (QueryCondition.id c)
                                    (ConditionUpdates.id updates)
                                    (QueryCondition.id c')
                          /\ merged (QueryCondition.column c)
                                    (ConditionUpdates.column updates)
                                    (QueryCondition.column c')
                          /\ merged (QueryCondition.operator c)
                                    (ConditionUpdates.operator updates)
                                    (QueryCondition.operator c')
                          /\ merged (QueryCondition.value c)
                                    (ConditionUpdates.value updates)
                                    (QueryCondition.value c')
                          /\ match ConditionUpdates.logicalOperator updates with
                             | Some lop =>
                                 QueryCondition.logicalOperator c' = Some lop
                             | None =>
                                 QueryCondition.logicalOperator c'
                                 = QueryCondition.logicalOperator c
                             end)
        /\ ((forall c, In c (QueryConfig.conditions config) ->
                       QueryCondition.id c <> conditionId) ->
            updateCondition conditionId updates config = config)
        /\ updateCondition conditionId updates
             (updateCondition conditionId updates config)
           = updateCondition conditionId updates config).
Proof.
  split.
  - intros joinId updates. unfold updateJoin.
    cbn [Update.joins QueryConfig.joins]. split; [apply length_map|].
    split; [|split; [|split]].
    + intros i j Hi Hid. rewrite nth_error_map, Hi. cbn [option_map].
      apply String.eqb_neq in Hid. now rewrite Hid.
    + intros i j Hi Hid. exists (applyJoinUpdates j updates).
      rewrite nth_error_map, Hi. cbn [option_map].
      apply String.eqb_eq in Hid. rewrite Hid. split; [reflexivity|].
      unfold applyJoinUpdates, merged, override.
      cbn [QueryJoin.id QueryJoin.type QueryJoin.leftTable
           QueryJoin.leftColumn QueryJoin.rightTable QueryJoin.rightColumn
           QueryJoin.additionalConditions].
      destruct updates as [uid utype ult ulc urt urc uacs].
      cbn [JoinUpdates.id JoinUpdates.type JoinUpdates.leftTable
           JoinUpdates.leftColumn JoinUpdates.rightTable
           JoinUpdates.rightColumn JoinUpdates.additionalConditions].
      destruct uid, utype, ult, ulc, urt, urc, uacs; repeat split.
    + intros H. rewrite map_unchanged; [apply update_joins_same|].
      intros j Hj. apply H, String.eqb_neq in Hj. now rewrite Hj.
    + unfold Update.joins. cbn [QueryConfig.selectedTables
        QueryConfig.selectedColumns QueryConfig.conditions QueryConfig.joins
        QueryConfig.groupBy QueryConfig.orderBy QueryConfig.limit
        QueryConfig.distinct QueryConfig.logicalOperator].
      rewrite (map_update_twice QueryJoin.id
                 (fun j => applyJoinUpdates j updates)); [reflexivity|].
      intros j _ _. unfold applyJoinUpdates.
      cbn [QueryJoin.id QueryJoin.type QueryJoin.leftTable
           QueryJoin.leftColumn QueryJoin.rightTable QueryJoin.rightColumn
           QueryJoin.additionalConditions].
      rewrite !override_twice.
      destruct (JoinUpdates.additionalConditions updates); reflexivity.
  - intros conditionId updates. unfold updateCondition.
    cbn [Update.conditions QueryConfig.conditions].
    split; [apply length_map|]. split; [|split; [|split]].
    + intros i c Hi Hid. rewrite nth_error_map, Hi. cbn [option_map].
      apply String.eqb_neq in Hid. now rewrite Hid.
    + intros i c Hi Hid. exists (applyConditionUpdates c updates).
      rewrite nth_error_map, Hi. cbn [option_map].
      apply String.eqb_eq in Hid. rewrite Hid. split; [reflexivity|].
      unfold applyConditionUpdates, merged, override.
      cbn [QueryCondition.id QueryCondition.column QueryCondition.operator
           QueryCondition.value QueryCondition.logicalOperator].
      destruct updates as [uid ucol uop uval ulop].
      cbn [ConditionUpdates.id ConditionUpdates.column
           ConditionUpdates.operator ConditionUpdates.value
           ConditionUpdates.logicalOperator].
      destruct uid, ucol, uop, uval, ulop; repeat split.
    + intros H. rewrite map_unchanged; [apply update_conditions_same|].
      intros c Hc. apply H, String.eqb_neq in Hc. now rewrite Hc.
    + unfold Update.conditions. cbn [QueryConfig.selectedTables
        QueryConfig.selectedColumns QueryConfig.conditions QueryConfig.joins
        QueryConfig.groupBy QueryConfig.orderBy QueryConfig.limit
        QueryConfig.distinct QueryConfig.logicalOperator].
      rewrite (map_update_twice QueryCondition.id
                 (fun c => applyConditionUpdates c updates)); [reflexivity|].
      intros c _ _. unfold applyConditionUpdates.
      cbn [QueryCondition.id QueryCondition.column QueryCondition.operator
           QueryCondition.value QueryCondition.logicalOperator].
      rewrite !override_twice.
      destruct (ConditionUpdates.logicalOperator updates); reflexivity.
Qed.

Lemma update_by_id_touches_only_that_id_witness :
  exists c',
    nth_error
      (QueryConfig.conditions
         (updateCondition "condition_1"
            (ConditionUpdates.mk None None (Some "<>") (Some "inactive") None)
            Scenario.endToEndConfig)) 0
    = Some c'
    /\ QueryCondition.id c' = "condition_1"
    /\ QueryCondition.column c' = "public.users.status"
    /\ QueryCondition.operator c' = "<>"
    /\ QueryCondition.value c' = "inactive"
    /\ QueryCondition.logicalOperator c' = None.
Proof.
  destruct (proj1 (proj2 (proj2 (proj2 (update_by_id_touches_only_that_id
                                          Scenario.endToEndConfig)
                                       "condition_1"
                                       (ConditionUpdates.mk None None
                                          (Some "<>") (Some "inactive")
                                          None))))
                  0 (QueryCondition.mk "condition_1" "public.users.status"
                       "=" "active" None)
                  eq_refl eq_refl)
    as (c' & Hnth & Hid & Hcol & Hop & Hval & Hlop).
  exists c'. repeat split; assumption.
Defined.

End JoinHandlers.

(** ** Join conditions and the text *)

Section JoinConditions.
Import JS SQLGenerator Clauses Canvas.

Lemma concat_empty_cons (x : string) (l : list string) :
  String.concat "" (x :: l) = x ++ String.concat "" l.
Proof.
  destruct l; simpl; [now rewrite append_empty_r|reflexivity].
Qed.

Lemma concat_empty_snoc (l : list string) (x : string) :
  String.concat "" (l ++ [x]) = String.concat "" l ++ x.
Proof.
  induction l as [|y l IH].
  - reflexivity.
  - cbn [app]. rewrite !concat_empty_cons, IH. now rewrite append_assoc_str.
Qed.

Lemma renderJoin_withAdditional (j : QueryJoin.t)
    (acs : list AdditionalCondition.t) :
  renderJoin (withAdditional j acs)
  = onClause j ++ String.concat "" (map (andClause j) acs).
Proof.
  unfold renderJoin, withAdditional, onClause, andClause, join.
  cbn [QueryJoin.type QueryJoin.rightTable QueryJoin.leftTable
       QueryJoin.leftColumn QueryJoin.rightColumn
       QueryJoin.additionalConditions].
  destruct acs as [|ac acs]; [|reflexivity].
  cbn [List.length Nat.ltb Nat.leb map String.concat].
  now rewrite append_empty_r.
Qed.

Lemma renderJoin_additionalOrEmpty (j : QueryJoin.t) :
  renderJoin j = onClause j
                 ++ String.concat "" (map (andClause j) (additionalOrEmpty j)).
Proof.
  rewrite <- renderJoin_withAdditional.
  unfold renderJoin, withAdditional, additionalOrEmpty.
  cbn [QueryJoin.type QueryJoin.rightTable QueryJoin.leftTable
       QueryJoin.leftColumn QueryJoin.rightColumn
       QueryJoin.additionalConditions].
  destruct (QueryJoin.additionalConditions j); reflexivity.
Qed.

Lemma withAdditional_id (j : QueryJoin.t) (acs : list AdditionalCondition.t) :
  QueryJoin.id (withAdditional j acs) = QueryJoin.id j.
Proof. reflexivity. Qed.

Lemma additionalOrEmpty_withAdditional (j : QueryJoin.t)
    (acs : list AdditionalCondition.t) :
  additionalOrEmpty (withAdditional j acs) = acs.
Proof. reflexivity. Qed.

Lemma withAdditional_twice (j : QueryJoin.t)
    (a b : list AdditionalCondition.t) :
  withAdditional (withAdditional j a) b = withAdditional j b.
Proof. reflexivity. Qed.

Lemma generateSQL_same_joins (config : QueryConfig.t)
    (joins : list QueryJoin.t) :
  map renderJoin joins = map renderJoin (QueryConfig.joins config) ->
  generateSQL (Update.joins config joins) = generateSQL config.
Proof.
  intros E. unfold generateSQL. rewrite !generateParts_blocks.
  unfold selectClause, fromClauses, joinClauses, whereClauses,
    groupByClauses, orderByClauses, orderList, limitClauses, Update.joins.
  cbn [QueryConfig.selectedTables QueryConfig.selectedColumns
       QueryConfig.conditions QueryConfig.joins QueryConfig.groupBy
       QueryConfig.orderBy QueryConfig.limit QueryConfig.distinct].
  rewrite E.
  replace (List.length joins) with (List.length (QueryConfig.joins config));
    [reflexivity|].
  now rewrite <- (length_map renderJoin joins), E, length_map.
Qed.

(** X14: a join condition added on the canvas shows in the text as one more
    [AND <left>. = <right>.] at the end of the clause of every join with
    that id; removing it again gives the text back, when no other condition
    of those joins has its id. *)
Theorem join_condition_add_then_remove_keeps_text
    (now : Z) (joinId : string) (config : QueryConfig.t) :
  let conditionId := "join_condition_" ++ numberToString now in
  map renderJoin (QueryConfig.joins (addJoinCondition now joinId config))
  = map (fun j =>
           if String.eqb (QueryJoin.id j) joinId
           then renderJoin j ++ " AND " ++ QueryJoin.leftTable j ++ ". = "
                ++ QueryJoin.rightTable j ++ "."
           else renderJoin j)
        (QueryConfig.joins config)
  /\ ((forall j ac, In j (QueryConfig.joins config) ->
                    QueryJoin.id j = joinId ->
                    In ac (additionalOrEmpty j) ->
                    AdditionalCondition.id ac <> conditionId) ->
      generateSQL
        (removeJoinCondition joinId conditionId
           (addJoinCondition now joinId config))
      = generateSQL config).
Proof.
  intros conditionId. split.
  - unfold addJoinCondition. cbn [Update.joins QueryConfig.joins].
    rewrite map_map. apply map_ext. intros j.
    destruct (String.eqb (QueryJoin.id j) joinId); [|reflexivity].
    rewrite renderJoin_withAdditional, map_app. cbn [map].
    rewrite concat_empty_snoc, (renderJoin_additionalOrEmpty j).
    rewrite append_assoc_str. reflexivity.
  - intros Hfresh.
    assert (E : removeJoinCondition joinId conditionId
                  (addJoinCondition now joinId config)
                = Update.joins config
                    (map (fun j =>
                            if String.eqb (QueryJoin.id j) joinId
                            then withAdditional j (additionalOrEmpty j)
                            else j)
                         (QueryConfig.joins config))).
    { unfold removeJoinCondition, addJoinCondition, Update.joins.
      cbn [QueryConfig.selectedTables QueryConfig.selectedColumns
           QueryConfig.conditions QueryConfig.joins QueryConfig.groupBy
           QueryConfig.orderBy QueryConfig.limit QueryConfig.distinct
           QueryConfig.logicalOperator].
      f_equal. rewrite map_map. apply map_ext_in. intros j Hj.
      destruct (String.eqb (QueryJoin.id j) joinId) eqn:Ej.
      + rewrite withAdditional_id, Ej, additionalOrEmpty_withAdditional,
          withAdditional_twice.
        rewrite filter_app. cbn [filter AdditionalCondition.id].
        fold conditionId. rewrite String.eqb_refl. cbn [negb].
        rewrite app_nil_r, filter_all; [reflexivity|].
        intros ac Hac. apply negb_true_iff, String.eqb_neq.
        apply (Hfresh j ac Hj); [now apply String.eqb_eq|exact Hac].
      + now rewrite Ej. }
    rewrite E. apply generateSQL_same_joins.
    rewrite map_map. apply map_ext. intros j.
    destruct (String.eqb (QueryJoin.id j) joinId); [|reflexivity].
    now rewrite renderJoin_withAdditional, <- renderJoin_additionalOrEmpty.
Qed.

Lemma join_condition_add_then_remove_keeps_text_witness :
  generateSQL
    (removeJoinCondition "join_1"
       ("join_condition_" ++ numberToString 1750000000000)
       (addJoinCondition 1750000000000 "join_1"
          (Configuration.addJoin 1 Scenario.twoTablesConfig)))
  = generateSQL (Configuration.addJoin 1 Scenario.twoTablesConfig).
Proof.
  apply (proj2 (join_condition_add_then_remove_keeps_text 1750000000000
                  "join_1" (Configuration.addJoin 1 Scenario.twoTablesConfig))).
  simpl. intros j ac [<-|[]] _ [].
Defined.

End JoinConditions.

(** ** Sort entries *)

Section SortHandlers.
Import JS JSArray SQLGenerator Clauses Configuration.

Lemma removeAtFrom_beyond {A : Type} (l : list A) (i index : nat) :
  index < i \/ i + List.length l <= index -> removeAtFrom i index l = l.
Proof.
  revert i; induction l as [|x l IH]; intros i H; simpl in *; [reflexivity|].
  destruct (Nat.eqb_spec i index); [lia|].
  rewrite IH by lia. reflexivity.
Qed.

Lemma removeAtFrom_last {A : Type} (l : list A) (x : A) (i : nat) :
  removeAtFrom i (i + List.length l) (l ++ [x]) = l.
Proof.
  revert i; induction l as [|y l IH]; intros i; simpl.
  - rewrite Nat.add_0_r, Nat.eqb_refl. reflexivity.
  - destruct (Nat.eqb_spec i (i + S (List.length l))); [lia|].
    replace (i + S (List.length l)) with (S i + List.length l) by lia.
    now rewrite IH.
Qed.

Lemma removeAtFrom_length {A : Type} (l : list A) (i index : nat) :
  i <= index < i + List.length l ->
  S (List.length (removeAtFrom i index l)) = List.length l.
Proof.
  revert i; induction l as [|x l IH]; intros i H; simpl in *; [lia|].
  destruct (Nat.eqb_spec i index) as [->|Hne].
  - rewrite removeAtFrom_beyond by lia. reflexivity.
  - simpl. rewrite IH by lia. reflexivity.
Qed.

Lemma update_orderBy_same (config : QueryConfig.t) :
  Update.orderBy config (QueryConfig.orderBy config) = config.
Proof. destruct config; reflexivity. Qed.

(** X15: the entry "Add Sort" appends has an empty column, which the
    generator skips: the text stays as it was until a column is chosen.
    Removing the entry at the last index gives the configuration back;
    removing at an index at or past the end changes nothing, and removing
    at an index in range shortens the list by one. *)
Theorem addSort_is_invisible_until_a_column_is_chosen
    (config : QueryConfig.t) :
  generateSQL (addSort config) = generateSQL config
  /\ removeSort (List.length (QueryConfig.orderBy config)) (addSort config)
     = config
  /\ (forall index,
        List.length (QueryConfig.orderBy config) <= index ->
        removeSort index config = config)
  /\ (forall index,
        index < List.length (QueryConfig.orderBy config) ->
        S (List.length (QueryConfig.orderBy (removeSort index config)))
        = List.length (QueryConfig.orderBy config)).
Proof.
  split; [|split; [|split]].
  - unfold generateSQL. rewrite !generateParts_blocks.
    unfold selectClause, fromClauses, joinClauses, whereClauses,
      groupByClauses, orderByClauses, orderList, limitClauses, addSort,
      Update.orderBy.
    cbn [QueryConfig.selectedTables QueryConfig.selectedColumns
         QueryConfig.conditions QueryConfig.joins QueryConfig.groupBy
         QueryConfig.orderBy QueryConfig.limit QueryConfig.distinct].
    rewrite filter_app. cbn [filter]. 
    change (orderFilter (OrderBy.mk "" ASC)) with false. cbv iota.
    rewrite app_nil_r. reflexivity.
  - unfold removeSort, addSort, removeAt.
    cbn [Update.orderBy QueryConfig.orderBy QueryConfig.selectedTables
         QueryConfig.selectedColumns QueryConfig.conditions QueryConfig.joins
         QueryConfig.groupBy QueryConfig.limit QueryConfig.distinct
         QueryConfig.logicalOperator].
    rewrite (removeAtFrom_last (QueryConfig.orderBy config) _ 0).
    destruct config; reflexivity.
  - intros index H. unfold removeSort, removeAt.
    rewrite removeAtFrom_beyond by (simpl; lia).
    apply update_orderBy_same.
  - intros index H. unfold removeSort, removeAt.
    cbn [Update.orderBy QueryConfig.orderBy].
    apply removeAtFrom_length. simpl. lia.
Qed.

Lemma addSort_is_invisible_until_a_column_is_chosen_witness :
  0 < List.length (QueryConfig.orderBy (addSort Scenario.endToEndConfig))
  /\ S (List.length
          (QueryConfig.orderBy
             (removeSort 0 (addSort Scenario.endToEndConfig))))
     = List.length (QueryConfig.orderBy (addSort Scenario.endToEndConfig)).
Proof.
  assert (H : 0 < List.length
                    (QueryConfig.orderBy (addSort Scenario.endToEndConfig)))
    by (simpl; lia).
  split; [exact H|].
  exact (proj2 (proj2 (proj2 (addSort_is_invisible_until_a_column_is_chosen
                                (addSort Scenario.endToEndConfig)))) 0 H).
Defined.

End SortHandlers.

(** ** The tables and columns the panel offers *)

Section OfferedColumns.
Import JS JSArray Configuration.

(** X16: [allTables] lists every selected table and every table a join
    names on either side, each of them once and nothing else. *)
Theorem allTables_lists_each_table_once (config : QueryConfig.t) :
  NoDup (allTables config)
  /\ (forall t,
        In t (allTables config)
        <-> In t (QueryConfig.selectedTables config)
            \/ exists j, In j (QueryConfig.joins config)
                         /\ (t = QueryJoin.leftTable j
                             \/ t = QueryJoin.rightTable j)).
Proof.
  unfold allTables, uniqueInOrder. split.
  - apply fold_setAdd_NoDup. constructor.
  - intros t. rewrite fold_setAdd_In, !in_app_iff, !in_map_iff. split.
    + intros [[]|[H|[(j & E & Hj)|(j & E & Hj)]]].
      * now left.
      * right. exists j. split; [exact Hj|left; now symmetry].
      * right. exists j. split; [exact Hj|right; now symmetry].
    + intros [H|(j & Hj & [E|E])]; right.
      * now left.
      * right; left. exists j. split; [now symmetry|exact Hj].
      * right; right. exists j. split; [now symmetry|exact Hj].
Qed.

Lemma splitFrom_no_separator (sep : ascii) (s segment : string) :
  countChar sep s = 0 -> splitFrom sep segment s = [segment ++ s].
Proof.
  revert segment; induction s as [|c s IH]; intros segment; simpl.
  - now rewrite append_empty_r.
  - destruct (Ascii.eqb c sep); [discriminate|].
    intros H. rewrite (IH _ H), append_assoc_str. reflexivity.
Qed.

Lemma splitFrom_at_separator (sep : ascii) (a b segment : string) :
  countChar sep a = 0 ->
  splitFrom sep segment (a ++ String sep b)
  = (segment ++ a) :: splitFrom sep "" b.
Proof.
  revert segment; induction a as [|c a IH]; intros segment; simpl.
  - rewrite Ascii.eqb_refl, append_empty_r. reflexivity.
  - destruct (Ascii.eqb c sep); [discriminate|].
    intros H. rewrite (IH _ H), append_assoc_str. reflexivity.
Qed.

Lemma split_table_column (table column : string) :
  countChar "." table = 0 -> countChar "." column = 0 ->
  split "." (table ++ "." ++ column) = [table; column].
Proof.
  intros Ht Hc. unfold split.
  change (table ++ "." ++ column) with (table ++ String "." column).
  rewrite (splitFrom_at_separator _ _ _ _ Ht), (splitFrom_no_separator _ _ _ Hc).
  reflexivity.
Qed.

Lemma filter_flat_map_one {A : Type} (table : A -> string)
    (g : string -> list A) (tables : list string) (tableName : string) :
  (forall t x, In x (g t) -> table x = t) ->
  NoDup tables -> In tableName tables ->
  filter (fun x => String.eqb (table x) tableName) (flat_map g tables)
  = g tableName.
Proof.
  intros Hg.
  assert (Hother : forall ts, ~ In tableName ts ->
            filter (fun x => String.eqb (table x) tableName) (flat_map g ts)
            = []).
  { induction ts as [|t ts IH]; intros Hn; simpl; [reflexivity|].
    rewrite filter_app, IH, app_nil_r by (intros H; apply Hn; now right).
    apply filter_none, Forall_forall. intros x Hx.
    rewrite (Hg _ _ Hx). apply String.eqb_neq. intros ->. apply Hn. now left. }
  induction tables as [|t ts IH]; intros Hnd Hin; [destruct Hin|].
  inversion Hnd as [|? ? Hnt Hnd']; subst. simpl. rewrite filter_app.
  destruct (String.eqb_spec t tableName) as [->|Hne].
  - rewrite (Hother _ Hnt), app_nil_r. apply filter_all.
    intros x Hx. rewrite (Hg _ _ Hx). apply String.eqb_refl.
  - destruct Hin as [E|Hin]; [contradiction|].
    rewrite (IH Hnd' Hin).
    replace (filter _ (g t)) with (@nil A); [reflexivity|].
    symmetry. apply filter_none, Forall_forall. intros x Hx.
    rewrite (Hg _ _ Hx). now apply String.eqb_neq.
Qed.

(** X17: for a table whose name holds no dot, [getColumnsForTable] gives
    back exactly the cached column names of that table, in their order,
    provided they are not blank and hold no dot either; each comes with its
    full name [table.column]. *)
Theorem getColumnsForTable_returns_the_cached_columns
    (tables : list string) (columnsCache : string -> option (list string))
    (tableName : string) (cols : list string) :
  NoDup tables -> In tableName tables ->
  countChar "." tableName = 0 ->
  columnsCache tableName = Some cols ->
  (forall c, In c cols -> countChar "." c = 0 /\ trim c <> "") ->
  getColumnsForTable (buildAvailableColumns tables columnsCache) tableName
  = map (fun c => TableColumn.mk c (tableName ++ "." ++ c)) cols.
Proof.
  intros Hnd Hin Ht Hcache Hcols.
  unfold getColumnsForTable, buildAvailableColumns.
  rewrite (filter_flat_map_one AvailableColumn.table _ tables tableName);
    try assumption.
  - rewrite Hcache, map_map. cbn [AvailableColumn.value].
    rewrite filter_all.
    + apply map_ext_in. intros c Hc. destruct (Hcols c Hc) as [Hdot Hblank].
      rewrite (split_table_column _ _ Ht Hdot). cbn [at_ nth_error orElse].
      destruct c; [now contradiction Hblank|reflexivity].
    + intros x Hx. apply in_map_iff in Hx as (c & <- & Hc).
      destruct (Hcols c Hc) as [Hdot Hblank].
      rewrite (split_table_column _ _ Ht Hdot).
      cbn [at_ nth_error orElse TableColumn.name].
      destruct c as [|ch c]; [now contradiction Hblank|].
      cbn [truthy andb]. apply negb_true_iff, String.eqb_neq. exact Hblank.
  - intros t x Hx. apply in_map_iff in Hx as (c & <- & _). reflexivity.
Qed.

Lemma getColumnsForTable_returns_the_cached_columns_witness :
  getColumnsForTable
    (buildAvailableColumns ["orders"; "users"]
       (fun t => if String.eqb t "users" then Some ["id"; "email"]
                 else Some ["total"]))
    "users"
  = [TableColumn.mk "id" "users.id"; TableColumn.mk "email" "users.email"].
Proof.
  apply (getColumnsForTable_returns_the_cached_columns
           ["orders"; "users"] _ "users" ["id"; "email"]).
  - repeat constructor; simpl; intuition discriminate.
  - simpl. tauto.
  - reflexivity.
  - reflexivity.
  - simpl. intros c [<-|[<-|[]]]; (split; [reflexivity|vm_compute; discriminate]).
Defined.

End OfferedColumns.

(** ** Connecting to an external database *)

Section ExternalDatabase.
Import Server.

Variable pgConnect : ExternalDatabaseConfig.t -> option string.
Variable externalQuery :
  ExternalDatabaseConfig.t -> string -> PgResult.t + string.
Variable poolQuery : string -> PgResult.t + string.

Lemma testConnection_success (config : ExternalDatabaseConfig.t) :
  TestResult.success (testConnection pgConnect config) = true
  <-> ExternalDatabaseConfig.type config = postgresql
      /\ pgConnect config = None.
Proof.
  unfold testConnection.
  destruct (ExternalDatabaseConfig.type config); [|split; intros H].
  - destruct (pgConnect config); simpl; split; intros H; try discriminate H.
    + destruct H as [_ H]. discriminate H.
    + now split.
    + reflexivity.
  - discriminate H.
  - destruct H as [H _]. discriminate H.
Qed.

Lemma handle_consistent (request : Request) (st : State.t) :
  consistent pgConnect st ->
  consistent pgConnect (fst (handle pgConnect request st)).
Proof.
  intros Hst. destruct request as [config|config| |]; cbn [handle fst];
    try exact Hst.
  - destruct (TestResult.success (testConnection pgConnect config)) eqn:E;
      cbn [negb fst]; [|exact Hst].
    apply testConnection_success in E.
    split; [reflexivity|]. split; [reflexivity|].
    intros c Hc. cbn in Hc. injection Hc as <-. exact E.
  - split; [reflexivity|]. split; [reflexivity|].
    intros c Hc. discriminate Hc.
Qed.

Lemma run_consistent (requests : list Request) (st : State.t) :
  consistent pgConnect st -> consistent pgConnect (run pgConnect requests st).
Proof.
  revert st; induction requests as [|request requests IH]; intros st Hst.
  - exact Hst.
  - cbn [run fold_left]. apply IH, handle_consistent, Hst.
Qed.

Lemma initial_consistent : consistent pgConnect initial.
Proof.
  split; [reflexivity|]. split; [reflexivity|]. intros c Hc. discriminate Hc.
Qed.

(** X18: whatever requests the database routes have served, the storage
    flag is set exactly when a configuration is held, a configuration held
    is a PostgreSQL one that passed the connection test, and [isConnected] is
    still false. *)
Theorem database_routes_keep_the_state_consistent (requests : list Request) :
  let st := run pgConnect requests initial in
  Manager.isConnected (State.manager st) = false
  /\ State.useExternalDB st = isExternalDatabaseConfigured (State.manager st)
  /\ (forall config,
        Manager.currentConfig (State.manager st) = Some config ->
        ExternalDatabaseConfig.type config = postgresql
        /\ pgConnect config = None).
Proof.
  exact (run_consistent requests initial initial_consistent).
Qed.

(** X19: after any requests, [GET /api/database/status] reports where the
    queries go.  When it reports a connection, a configuration is held and
    [storage.executeQuery] answers from the external database under it,
    whatever the local pool would say: an error comes back as it is, a result
    with the driver's rows as they are and its field names, or no column
    names when the driver gives no fields.  When it reports none,
    [storage.executeQuery] answers from the local pool, whatever the external
    database would say: an error is reported as "Query execution failed",
    a result with every row turned into the array of its values, under the
    field names or, without them, the keys of the first row; a result without
    rows has no column names.  The manager's own errors, "No external
    database configured" and "Unsupported database type", are never the
    answer unless a database gives them. *)
Theorem queries_go_where_status_says
    (requests : list Request) (sqlQuery : string) :
  let st := run pgConnect requests initial in
  exists connected,
    snd (handle pgConnect GetStatus st)
    = DbResponse.mk 200 (StatusBody connected)
    /\ (connected = true ->
        exists config,
          Manager.currentConfig (State.manager st) = Some config
          /\ (forall otherPool,
                storage_executeQuery externalQuery otherPool st sqlQuery
                = storage_executeQuery externalQuery poolQuery st sqlQuery)
          /\ (forall message,
                externalQuery config sqlQuery = inr message ->
                storage_executeQuery externalQuery poolQuery st sqlQuery
                = inr message)
          /\ (forall result,
                externalQuery config sqlQuery = inl result ->
                storage_executeQuery externalQuery poolQuery st sqlQuery
                = inl (StorageResult.mk
                         (match PgResult.fields result with
                          | Some fields => fields
                          | None => []
                          end)
                         (map ObjectRow (PgResult.rows result)))))
    /\ (connected = false ->
        Manager.currentConfig (State.manager st) = None
        /\ (forall otherExternal,
              storage_executeQuery otherExternal poolQuery st sqlQuery
              = storage_executeQuery externalQuery poolQuery st sqlQuery)
        /\ (forall message,
              poolQuery sqlQuery = inr message ->
              storage_executeQuery externalQuery poolQuery st sqlQuery
              = inr ("Query execution failed: " ++ message))
        /\ (forall result,
              poolQuery sqlQuery = inl result ->
              storage_executeQuery externalQuery poolQuery st sqlQuery
              = inl (StorageResult.mk
                       (match PgResult.rows result, PgResult.fields result with
                        | [], _ => []
                        | _ :: _, Some fields => fields
                        | row0 :: _, None => map fst row0
                        end)
                       (map (fun row => ArrayRow (map snd row))
                            (PgResult.rows result))))).
Proof.
  intros st.
  destruct (run_consistent requests initial initial_consistent)
    as (_ & Hflag & Hcfg).
  fold st in Hflag, Hcfg.
  exists (isExternalDatabaseConfigured (State.manager st)).
  split; [reflexivity|].
  unfold storage_executeQuery. rewrite Hflag.
  unfold isExternalDatabaseConfigured, manager_executeQuery.
  destruct (Manager.currentConfig (State.manager st)) as [config|] eqn:E.
  - split; [|intros H; discriminate H]. intros _. exists config.
    destruct (Hcfg config eq_refl) as [Htype _]. rewrite Htype. cbn [andb].
    split; [reflexivity|]. split; [reflexivity|].
    split; [intros message H|intros result H]; now rewrite H.
  - split; [intros H; discriminate H|]. intros _. cbn [andb].
    split; [reflexivity|]. split; [reflexivity|].
    split; [intros message H|intros result H]; rewrite H; [reflexivity|].
    destruct (PgResult.rows result) as [|row0 rows]; [reflexivity|].
    destruct (PgResult.fields result); reflexivity.
Qed.

Lemma run_app (before later : list Request) (st : State.t) :
  run pgConnect (before ++ later) st
  = run pgConnect later (run pgConnect before st).
Proof. unfold run. apply fold_left_app. Qed.

Lemma run_cons (request : Request) (later : list Request) (st : State.t) :
  run pgConnect (request :: later) st
  = run pgConnect later (fst (handle pgConnect request st)).
Proof. reflexivity. Qed.

Lemma run_quiet (later : list Request) (st : State.t) :
  Forall (quiet pgConnect) later -> run pgConnect later st = st.
Proof.
  induction 1 as [|request later Hq _ IH]; [reflexivity|].
  rewrite run_cons.
  replace (fst (handle pgConnect request st)) with st; [exact IH|].
  destruct request as [config|config| |]; cbn [handle fst];
    try reflexivity; [|destruct Hq].
  destruct (TestResult.success (testConnection pgConnect config)) eqn:Et;
    [|reflexivity].
  apply testConnection_success in Et. destruct Et as [Htype Hup].
  destruct Hq as [Hq|Hq]; [congruence|contradiction].
Qed.

(** X20: what the server holds after any requests is decided by the last
    disconnect or connect that passed its test; the requests before it do
    not matter, and the tests, status requests and failed connects after it
    change nothing.  After a disconnect the server is in its initial state;
    after a connect to a PostgreSQL server that can be reached it holds that
    configuration; a connect to a MySQL server never passes, so it is among
    the requests that change nothing. *)
Theorem connect_and_disconnect
    (before later : list Request) (st : State.t) :
  Forall (quiet pgConnect) later ->
  run pgConnect later st = st
  /\ run pgConnect (before ++ PostDisconnect :: later) st = initial
  /\ (forall config,
        ExternalDatabaseConfig.type config = postgresql ->
        pgConnect config = None ->
        run pgConnect (before ++ PostConnect config :: later) st
        = State.mk (Manager.mk (Some config) false) true)
  /\ (forall config,
        ExternalDatabaseConfig.type config = mysql ->
        run pgConnect (before ++ PostConnect config :: later) st
        = run pgConnect before st).
Proof.
  intros Hq. split; [now apply run_quiet|]. split; [|split].
  - rewrite run_app, run_cons. now apply run_quiet.
  - intros config Htype Hup.
    rewrite run_app, run_cons, (run_quiet later) by exact Hq.
    cbn [handle].
    assert (Et : TestResult.success (testConnection pgConnect config) = true)
      by now apply testConnection_success.
    now rewrite Et.
  - intros config Htype. rewrite run_app. apply run_quiet.
    constructor; [now left|exact Hq].
Qed.

End ExternalDatabase.

Lemma connect_and_disconnect_witness :
  Forall (Server.quiet Examples.alwaysUp)
         [Server.PostConnect Examples.mysqlConfig; Server.GetStatus;
          Server.PostTest Examples.pgConfig]
  /\ Server.run Examples.alwaysUp
       ([Server.PostDisconnect; Server.PostTest Examples.mysqlConfig]
        ++ Server.PostConnect Examples.pgConfig
        :: [Server.PostConnect Examples.mysqlConfig; Server.GetStatus;
            Server.PostTest Examples.pgConfig])
       Server.initial
     = Server.State.mk (Server.Manager.mk (Some Examples.pgConfig) false) true.
Proof.
  assert (Hq : Forall (Server.quiet Examples.alwaysUp)
                 [Server.PostConnect Examples.mysqlConfig; Server.GetStatus;
                  Server.PostTest Examples.pgConfig]).
  { repeat constructor. }
  split; [exact Hq|].
  exact (proj1 (proj2 (proj2 (connect_and_disconnect Examples.alwaysUp
                                [Server.PostDisconnect;
                                 Server.PostTest Examples.mysqlConfig]
                                [Server.PostConnect Examples.mysqlConfig;
                                 Server.GetStatus;
                                 Server.PostTest Examples.pgConfig]
                                Server.initial Hq)))
               Examples.pgConfig eq_refl eq_refl).
Defined.

(** ** Subqueries in the main query *)

Section SubqueryInMainQuery.
Import JS SQLGenerator Clauses Rules Subquery.

Lemma mapi_from_snoc {A B : Type} (f : A -> nat -> B) (l : list A) (x : A)
    (i : nat) :
  mapi_from i f (l ++ [x])
  = (mapi_from i f l ++ [f x (i + List.length l)])%list.
Proof.
  revert i; induction l as [|y l IH]; intros i; simpl.
  - now rewrite Nat.add_0_r.
  - rewrite IH.
    replace (S i + List.length l) with (i + S (List.length l)) by lia.
    reflexivity.
Qed.

Lemma renderCondition_subquery (now : Z) (subquery : Subquery.t)
    (lop : option LogicalOperator) (index : nat) :
  renderCondition
    (QueryCondition.mk ("condition_" ++ numberToString now) "id" "IN"
       (subqueryValue subquery) lop) index
  = match lop with
    | Some l => if (0 <? index)%nat
                then LogicalOperator_toString l ++ " " else ""
    | None => ""
    end ++ "id IN " ++ subqueryValue subquery.
Proof.
  unfold renderCondition, renderValue.
  cbn [QueryCondition.logicalOperator QueryCondition.operator
       QueryCondition.value QueryCondition.column].
  change (String.eqb "IN" "IN") with true. cbn [orb].
  change (startsWith (subqueryValue subquery) "(") with true.
  cbn [negb]. change (truthy (subqueryValue subquery)) with true.
  cbv iota.
  destruct lop as [l|]; [destruct (0 <? index)%nat|];
    rewrite ?append_assoc_str; reflexivity.
Qed.

Lemma mapi_addSubquery (now : Z) (subquery : Subquery.t)
    (config : QueryConfig.t) :
  mapi renderCondition
    (QueryConfig.conditions (addSubqueryToMainQuery now subquery config))
  = (mapi renderCondition (QueryConfig.conditions config)
     ++ [ ((if nonEmpty (QueryConfig.conditions config) then "AND " else "")
           ++ "id IN " ++ subqueryValue subquery)%string ])%list.
Proof.
  unfold addSubqueryToMainQuery, mapi.
  cbn [Update.conditions QueryConfig.conditions].
  rewrite mapi_from_snoc, renderCondition_subquery.
  destruct (QueryConfig.conditions config) as [|c cs]; reflexivity.
Qed.

(** X21: a subquery added to the main query becomes its last condition, and
    the generator renders it as [id IN (SELECT id FROM (<subquery text>)
    <alias>)], preceded by AND when there was a condition before: the value
    is neither wrapped in further parentheses nor quoted. *)
Theorem subquery_condition_is_rendered_verbatim
    (now : Z) (subquery : Subquery.t) (config : QueryConfig.t) :
  whereClauses (addSubqueryToMainQuery now subquery config)
  = [ "WHERE "
      ++ join " "
           (mapi renderCondition (QueryConfig.conditions config)
            ++ [ ((if nonEmpty (QueryConfig.conditions config)
                   then "AND " else "")
                  ++ "id IN (SELECT id FROM ("
                  ++ generateSubquerySQL (Subquery.config subquery) ++ ") "
                  ++ Subquery.alias subquery ++ ")")%string ])%list ]
  /\ generateParts (addSubqueryToMainQuery now subquery config)
     = (selectClause config :: fromClauses config ++ joinClauses config
        ++ whereClauses (addSubqueryToMainQuery now subquery config)
        ++ groupByClauses config ++ orderByClauses config
        ++ limitClauses config)%list.
Proof.
  split.
  - unfold whereClauses. rewrite mapi_addSubquery.
    unfold addSubqueryToMainQuery.
    cbn [Update.conditions QueryConfig.conditions]. rewrite length_app.
    destruct (QueryConfig.conditions config) as [|c cs]; reflexivity.
  - rewrite generateParts_blocks. reflexivity.
Qed.

(** *** Parentheses *)

Lemma countChar_join_free (c : ascii) (sep : string) (l : list string) :
  countChar c sep = 0 ->
  countChar c (join sep l) = list_sum (map (countChar c) l).
Proof.
  intros Hsep. induction l as [|x l IH]; [reflexivity|].
  rewrite join_cons, countChar_append. cbn [map list_sum]. f_equal.
  destruct l as [|y l]; [reflexivity|].
  rewrite countChar_append, Hsep, IH. reflexivity.
Qed.

Lemma countChar_generateSQL (c : ascii) (config : QueryConfig.t) :
  countChar c LF = 0 ->
  countChar c (generateSQL config)
  = list_sum (map (countChar c) (generateParts config)).
Proof. intros H. now apply countChar_join_free. Qed.

Lemma list_sum_single (n : nat) : list_sum [n] = n.
Proof. simpl. lia. Qed.

Lemma countChar_whereClauses (c : ascii) (config : QueryConfig.t) :
  c = "("%char \/ c = ")"%char ->
  list_sum (map (countChar c) (whereClauses config))
  = list_sum (map (countChar c)
                  (mapi renderCondition (QueryConfig.conditions config))).
Proof.
  intros Hc. unfold whereClauses.
  destruct (QueryConfig.conditions config) as [|x l]; [reflexivity|].
  cbn [List.length Nat.ltb Nat.leb map].
  rewrite list_sum_single, countChar_append, countChar_join_free
    by (destruct Hc as [-> | ->]; reflexivity).
  destruct Hc as [-> | ->]; reflexivity.
Qed.

Lemma countChar_added_subquery (c : ascii) (now : Z) (subquery : Subquery.t)
    (config : QueryConfig.t) :
  c = "("%char \/ c = ")"%char ->
  countChar c (generateSQL (addSubqueryToMainQuery now subquery config))
  = countChar c (generateSQL config) + 2
    + countChar c (generateSubquerySQL (Subquery.config subquery))
    + countChar c (Subquery.alias subquery).
Proof.
  intros Hc.
  rewrite !countChar_generateSQL by (destruct Hc as [-> | ->]; reflexivity).
  rewrite !generateParts_blocks.
  change (selectClause (addSubqueryToMainQuery now subquery config))
    with (selectClause config).
  change (fromClauses (addSubqueryToMainQuery now subquery config))
    with (fromClauses config).
  change (joinClauses (addSubqueryToMainQuery now subquery config))
    with (joinClauses config).
  change (groupByClauses (addSubqueryToMainQuery now subquery config))
    with (groupByClauses config).
  change (orderByClauses (addSubqueryToMainQuery now subquery config))
    with (orderByClauses config).
  change (limitClauses (addSubqueryToMainQuery now subquery config))
    with (limitClauses config).
  rewrite !map_app, !list_sum_app, !(countChar_whereClauses c) by exact Hc.
  rewrite mapi_addSubquery, map_app, list_sum_app.
  cbn [map]. unfold subqueryValue.
  rewrite !countChar_append.
  destruct Hc as [-> | ->];
    destruct (nonEmpty (QueryConfig.conditions config));
    cbn [countChar Ascii.eqb Bool.eqb list_sum fold_right]; lia.
Qed.

(** X22: adding a subquery to the main query adds two opening and two
    closing parentheses to the generated text, beside those of the
    subquery's own text and alias; so when these are balanced, the main
    text passes the parenthesis rule of [validateSQL] exactly when it did
    before. *)
Theorem subquery_keeps_parentheses_balanced
    (now : Z) (subquery : Subquery.t) (config : QueryConfig.t) :
  let inner :=
    generateSubquerySQL (Subquery.config subquery) ++ Subquery.alias subquery in
  let added := addSubqueryToMainQuery now subquery config in
  countChar "(" (generateSQL added)
  = countChar "(" (generateSQL config) + 2 + countChar "(" inner
  /\ countChar ")" (generateSQL added)
     = countChar ")" (generateSQL config) + 2 + countChar ")" inner
  /\ (countChar "(" inner = countChar ")" inner ->
      failsParens (generateSQL added) = failsParens (generateSQL config)).
Proof.
  intros inner added. subst inner added.
  rewrite !countChar_append.
  assert (Ho := countChar_added_subquery "(" now subquery config
                  (or_introl eq_refl)).
  assert (Hc := countChar_added_subquery ")" now subquery config
                  (or_intror eq_refl)).
  split; [lia|]. split; [lia|].
  intros Hbal. unfold failsParens. rewrite Ho, Hc. f_equal.
  destruct (Nat.eqb_spec (countChar "(" (generateSQL config))
                         (countChar ")" (generateSQL config))) as [E|E].
  - apply Nat.eqb_eq. lia.
  - apply Nat.eqb_neq. lia.
Qed.

End SubqueryInMainQuery.

Lemma subquery_keeps_parentheses_balanced_witness :
  Rules.failsParens
    (SQLGenerator.generateSQL
       (Subquery.addSubqueryToMainQuery 1750000000000 Examples.activeUsers
          Scenario.endToEndConfig))
  = Rules.failsParens (SQLGenerator.generateSQL Scenario.endToEndConfig).
Proof.
  apply (proj2 (proj2 (subquery_keeps_parentheses_balanced 1750000000000
                         Examples.activeUsers Scenario.endToEndConfig))).
  reflexivity.
Defined.

(** ** The exported CSV *)

Section CsvExport.
Import JS Routes.

Lemma fold_csv (f : list Cell -> string) (rows : list (list Cell))
    (csv : string) :
  fold_left (fun csv row => csv ++ f row) rows csv
  = csv ++ String.concat "" (map f rows).
Proof.
  revert csv; induction rows as [|row rows IH]; intros csv.
  - cbn. now rewrite append_empty_r.
  - cbn [fold_left map]. rewrite IH, concat_empty_cons.
    now rewrite append_assoc_str.
Qed.

Lemma countChar_doubleQuotes (c : ascii) (s : string) :
  countChar c (doubleQuotes s)
  = if Ascii.eqb c "034" then 2 * countChar c s else countChar c s.
Proof.
  induction s as [|d s IH]; [now destruct (Ascii.eqb c "034")|].
  cbn [doubleQuotes]. destruct (Ascii.eqb_spec d "034") as [->|Hd].
  - unfold DQUOTE. cbn [append countChar]. rewrite IH.
    destruct (Ascii.eqb_spec c "034") as [->|Hc].
    + cbn [Ascii.eqb Bool.eqb]. lia.
    + destruct (Ascii.eqb_spec "034"%char c); [congruence|]. reflexivity.
  - cbn [countChar]. rewrite IH.
    destruct (Ascii.eqb_spec c "034") as [->|Hc]; [|reflexivity].
    destruct (Ascii.eqb_spec d "034"); [contradiction|]. lia.
Qed.

(** X23: how the export quotes a string cell.  A cell that holds a comma is
    put between double quotes, with every double quote of the value written
    twice and every other character once; a cell without a comma is written
    as it is, double quotes and line breaks included. *)
Theorem csvCell_quotes_cells_with_commas (s : string) :
  (includes s "," = true ->
   csvCell (CellString s) = DQUOTE ++ doubleQuotes s ++ DQUOTE
   /\ forall c,
        countChar c (csvCell (CellString s))
        = if Ascii.eqb c "034" then 2 * countChar c s + 2 else countChar c s)
  /\ (includes s "," = false -> csvCell (CellString s) = s).
Proof.
  split; intros H; cbn [csvCell]; rewrite H; [|reflexivity].
  split; [reflexivity|]. intros c.
  unfold DQUOTE. rewrite !countChar_append, countChar_doubleQuotes.
  cbn [countChar].
  destruct (Ascii.eqb_spec c "034") as [->|Hc].
  - cbn [Ascii.eqb Bool.eqb]. lia.
  - destruct (Ascii.eqb_spec "034"%char c); [congruence|]. lia.
Qed.

Lemma csvCell_quotes_cells_with_commas_witness :
  includes "Doe, Jane" "," = true
  /\ csvCell (CellString "Doe, Jane") = DQUOTE ++ "Doe, Jane" ++ DQUOTE.
Proof.
  split; [reflexivity|].
  apply (proj1 (csvCell_quotes_cells_with_commas "Doe, Jane")). reflexivity.
Defined.

Lemma countChar_csvCell (cell : Cell) :
  countChar "010" (csvCell cell) = countChar "010" (Examples.cellText cell).
Proof.
  destruct cell as [s|text]; [|reflexivity].
  cbn [csvCell Examples.cellText]. destruct (includes s ","); [|reflexivity].
  unfold DQUOTE. rewrite !countChar_append, countChar_doubleQuotes.
  cbn. lia.
Qed.

Lemma list_sum_zero (l : list nat) :
  Forall (fun n => n = 0) l -> list_sum l = 0.
Proof.
  induction 1 as [|n l Hn _ IH]; [reflexivity|].
  cbn [list_sum fold_right]. fold (list_sum l). lia.
Qed.

Lemma countChar_concat_lines (lines : list string) :
  Forall (fun line => countChar "010" line = 1) lines ->
  countChar "010" (String.concat "" lines) = List.length lines.
Proof.
  induction 1 as [|line lines Hl _ IH]; [reflexivity|].
  rewrite concat_empty_cons, countChar_append, Hl, IH. reflexivity.
Qed.

(** X24: the exported CSV has one line for the header and one for every
    row, each ended by a line break, when no column name and no cell holds a
    line break itself. *)
Theorem toCsv_has_one_line_per_row (result : QueryResult.t) :
  Forall (fun column => countChar "010" column = 0)
         (QueryResult.columns result) ->
  Forall (Forall (fun cell => countChar "010" (Examples.cellText cell) = 0))
         (QueryResult.rows result) ->
  countChar "010" (toCsv result) = 1 + List.length (QueryResult.rows result).
Proof.
  intros Hcols Hrows. unfold toCsv.
  rewrite (fold_csv (fun row => join "," (map csvCell row) ++ SQLGenerator.LF)).
  rewrite !countChar_append, countChar_join_free by reflexivity.
  rewrite list_sum_zero
    by (apply Forall_map; exact Hcols).
  rewrite countChar_concat_lines.
  - rewrite length_map. reflexivity.
  - apply Forall_map. eapply Forall_impl; [|exact Hrows].
    intros row Hrow. rewrite countChar_append, countChar_join_free by reflexivity.
    rewrite list_sum_zero; [reflexivity|].
    rewrite map_map. apply Forall_map.
    eapply Forall_impl; [|exact Hrow].
    intros cell Hcell. now rewrite countChar_csvCell.
Qed.

Lemma toCsv_has_one_line_per_row_witness :
  countChar "010" (toCsv Examples.sampleResult) = 3.
Proof.
  apply (toCsv_has_one_line_per_row Examples.sampleResult).
  - repeat constructor.
  - repeat constructor.
Defined.

End CsvExport.

(** ** Tables kept as records *)

Section RecordTables.
Import JS RecordsPage.

Lemma mapSet_keys_absent (entries : list (string * TableRef.t))
    (key : string) (value : TableRef.t) :
  ~ In key (keys entries) ->
  mapSet entries key value = (entries ++ [(key, value)])%list.
Proof.
  induction entries as [|[k v] rest IH]; intros H; [reflexivity|].
  cbn [mapSet]. destruct (String.eqb_spec k key) as [->|Hne].
  - exfalso. apply H. now left.
  - cbn [app]. rewrite IH; [reflexivity|]. intros Hin. apply H. now right.
Qed.

Lemma mapSet_keys (entries : list (string * TableRef.t))
    (key : string) (value : TableRef.t) :
  keys (mapSet entries key value)
  = if existsb (String.eqb key) (keys entries) then keys entries
    else (keys entries ++ [key])%list.
Proof.
  induction entries as [|[k v] rest IH]; [reflexivity|].
  cbn [mapSet keys map fst existsb].
  rewrite (String.eqb_sym key k).
  destruct (String.eqb k key); [reflexivity|].
  cbn [map fst orb]. fold (keys (mapSet rest key value)). rewrite IH.
  fold (keys rest). destruct (existsb (String.eqb key) (keys rest));
    reflexivity.
Qed.

Lemma mapSet_NoDup (entries : list (string * TableRef.t))
    (key : string) (value : TableRef.t) :
  NoDup (keys entries) -> NoDup (keys (mapSet entries key value)).
Proof.
  intros H. rewrite mapSet_keys.
  destruct (existsb (String.eqb key) (keys entries)) eqn:E; [exact H|].
  apply NoDup_app; repeat split; try assumption.
  - repeat constructor. simpl. tauto.
  - intros k Hk [Ek|[]]. subst k.
    assert (existsb (String.eqb key) (keys entries) = true).
    { apply existsb_exists. exists key.
      split; [exact Hk|apply String.eqb_refl]. }
    congruence.
Qed.

Lemma fold_mapSet_NoDup (tables : list TableRef.t)
    (entries : list (string * TableRef.t)) :
  NoDup (keys entries) ->
  NoDup (keys (fold_left (fun m table => mapSet m (keyOf table) (stored table))
                         tables entries)).
Proof.
  revert entries; induction tables as [|t ts IH]; intros entries H;
    [exact H|].
  cbn [fold_left]. now apply IH, mapSet_NoDup.
Qed.

Lemma fold_mapSet_fresh (tables : list TableRef.t)
    (entries : list (string * TableRef.t)) :
  NoDup (keys entries ++ map keyOf tables) ->
  fold_left (fun m table => mapSet m (keyOf table) (stored table))
            tables entries
  = (entries ++ map (fun t => (keyOf t, stored t)) tables)%list.
Proof.
  revert entries; induction tables as [|t ts IH]; intros entries H.
  - cbn. now rewrite app_nil_r.
  - cbn [fold_left map].
    assert (Hk : ~ In (keyOf t) (keys entries)).
    { intros Hin. cbn [map] in H. apply NoDup_remove_2 in H. apply H.
      apply in_app_iff. now left. }
    rewrite (mapSet_keys_absent _ _ _ Hk), IH.
    + now rewrite <- app_assoc.
    + unfold keys. rewrite map_app. cbn [map fst].
      rewrite <- app_assoc. exact H.
Qed.

Lemma mapSet_present (before after : list (string * TableRef.t))
    (key : string) (old value : TableRef.t) :
  ~ In key (keys before) ->
  mapSet (before ++ (key, old) :: after) key value
  = (before ++ (key, value) :: after)%list.
Proof.
  induction before as [|[k v] rest IH]; intros H; cbn [app mapSet].
  - now rewrite String.eqb_refl.
  - destruct (String.eqb_spec k key) as [->|Hne].
    + exfalso. apply H. now left.
    + rewrite IH; [reflexivity|]. intros Hin. apply H. now right.
Qed.

(** X25: [handleTablesAdd] of the record-keeping page never leaves two
    tables under one [schema.table] key, whatever was selected before and
    whatever is added. *)
Theorem handleTablesAdd_keeps_one_table_per_key
    (tableItems : list TableItem.t) (prevTables : list TableRef.t) :
  NoDup (map keyOf (handleTablesAdd tableItems prevTables)).
Proof.
  unfold handleTablesAdd.
  set (m := fold_left _ _ []).
  assert (Hm : NoDup (keys m)) by (apply fold_mapSet_NoDup; constructor).
  assert (Hv : forall entries : list (string * TableRef.t),
             Forall (fun e => fst e = keyOf (snd e)) entries ->
             map keyOf (map snd entries) = keys entries).
  { induction 1 as [|e es He _ IH]; [reflexivity|].
    cbn [map keys]. fold (keys es). now rewrite IH, He. }
  rewrite Hv; [exact Hm|]. subst m.
  assert (Hinv : forall tables entries,
             Forall (fun e => fst e = keyOf (snd e)) entries ->
             Forall (fun e => fst e = keyOf (snd e))
               (fold_left
                  (fun m table => mapSet m (keyOf table) (stored table))
                  tables entries)).
  { induction tables as [|t ts IH]; intros entries He; [exact He|].
    cbn [fold_left]. apply IH. clear IH.
    induction He as [|[k v] es Hkv Hes IHe]; cbn [mapSet].
    - repeat constructor.
    - cbn in Hkv. destruct (String.eqb_spec k (keyOf t)) as [E|_].
      + constructor; [exact E|exact Hes].
      + constructor; [exact Hkv|exact IHe]. }
  apply Hinv. constructor.
Qed.

(** X26: adding a table that is already selected keeps every table at its
    place, but the table added again comes back with an empty alias: the
    alias it had is lost, and [getTableAlias] answers [schema.table] for
    it. *)
Theorem handleTablesAdd_resets_the_alias_of_a_table_added_again
    (before after : list TableRef.t) (old : TableRef.t)
    (Hnd : NoDup (map keyOf (before ++ old :: after))) :
  handleTablesAdd
    [TableItem.mk (TableRef.schema old) (TableRef.tableName old)]
    (before ++ old :: after)
  = (map stored before
     ++ TableRef.mk (TableRef.tableName old) (TableRef.schema old) (Some "")
     :: map stored after)%list
  /\ getTableAlias
       (handleTablesAdd
          [TableItem.mk (TableRef.schema old) (TableRef.tableName old)]
          (before ++ old :: after))
       (TableRef.schema old) (TableRef.tableName old)
     = TableRef.schema old ++ "." ++ TableRef.tableName old.
Proof.
  assert (Hadd :
            handleTablesAdd
              [TableItem.mk (TableRef.schema old) (TableRef.tableName old)]
              (before ++ old :: after)
            = (map stored before
               ++ TableRef.mk (TableRef.tableName old) (TableRef.schema old)
                    (Some "")
               :: map stored after)%list).
  { unfold handleTablesAdd. rewrite fold_left_app.
    rewrite (fold_mapSet_fresh (before ++ old :: after) []) by exact Hnd.
    cbn [app map fold_left newTable TableItem.table TableItem.schema].
    rewrite map_app. cbn [map].
    change (keyOf (TableRef.mk (TableRef.tableName old) (TableRef.schema old)
                     (Some ""))) with (keyOf old).
    rewrite mapSet_present.
    - rewrite map_app. cbn [map snd]. rewrite !map_map. reflexivity.
    - unfold keys. rewrite map_map. cbn [fst].
      rewrite map_app in Hnd. cbn [map] in Hnd.
      apply NoDup_remove_2 in Hnd. intros Hin. apply Hnd.
      apply in_app_iff. now left. }
  split; [exact Hadd|]. rewrite Hadd. unfold getTableAlias.
  assert (Hfind : forall l : list TableRef.t,
             ~ In (keyOf old) (map keyOf l) ->
             find (fun t => String.eqb (TableRef.schema t) (TableRef.schema old)
                            && String.eqb (TableRef.tableName t)
                                          (TableRef.tableName old))
                  (map stored l ++ TableRef.mk (TableRef.tableName old)
                                     (TableRef.schema old) (Some "")
                   :: map stored after)
             = Some (TableRef.mk (TableRef.tableName old)
                       (TableRef.schema old) (Some ""))).
  { induction l as [|t l IH]; intros Hn; cbn [map app find].
    - cbn [TableRef.schema TableRef.tableName].
      now rewrite !String.eqb_refl.
    - cbn [stored TableRef.schema TableRef.tableName].
      destruct (String.eqb_spec (TableRef.schema t) (TableRef.schema old))
        as [Es|_];
        [destruct (String.eqb_spec (TableRef.tableName t)
                                   (TableRef.tableName old)) as [Et|_]|].
      + exfalso. apply Hn. left. unfold keyOf. now rewrite Es, Et.
      + cbn [andb]. apply IH. intros Hin. apply Hn. now right.
      + cbn [andb]. apply IH. intros Hin. apply Hn. now right. }
  rewrite Hfind; [reflexivity|].
  rewrite map_app in Hnd. cbn [map] in Hnd.
  apply NoDup_remove_2 in Hnd. intros Hin. apply Hnd.
  apply in_app_iff. now left.
Qed.

Lemma handleTablesAdd_resets_the_alias_of_a_table_added_again_witness :
  NoDup (map keyOf ([TableRef.mk "orders" "public" (Some "o")]
                    ++ TableRef.mk "users" "public" (Some "u") :: []))
  /\ getTableAlias
       ([TableRef.mk "orders" "public" (Some "o")]
        ++ TableRef.mk "users" "public" (Some "u") :: [])
       "public" "users" = "u"
  /\ getTableAlias
       (handleTablesAdd [TableItem.mk "public" "users"]
          ([TableRef.mk "orders" "public" (Some "o")]
           ++ TableRef.mk "users" "public" (Some "u") :: []))
       "public" "users" = "public.users".
Proof.
  assert (Hnd : NoDup (map keyOf ([TableRef.mk "orders" "public" (Some "o")]
                    ++ TableRef.mk "users" "public" (Some "u") :: []))).
  { repeat constructor; simpl; intuition discriminate. }
  split; [exact Hnd|]. split; [reflexivity|].
  exact (proj2 (handleTablesAdd_resets_the_alias_of_a_table_added_again
                  [TableRef.mk "orders" "public" (Some "o")] []
                  (TableRef.mk "users" "public" (Some "u")) Hnd)).
Defined.

End RecordTables.
